(** * MultiQC log-parsing modules: primerclip, coverage_metrics, jax_trimmer, hisat2

    A shallow embedding of the four modules under [multiqc/modules/] and the
    properties of their parse pass, sample bookkeeping and rendering stage.

    Conventions.
    - Python [str] values are [string]s; a character is a code point below 256.
    - Python [dict]s are insertion-ordered association lists ([dict]).
    - Python [int] is [Z]; Python [float] is IEEE binary64 as [spec_float]
      with [prec = 53] and [emax = 1024]. [int] refuses a text of more than
      4300 digits and [float] one of more than [10 ^ 9] digits, as CPython
      does.
    - Exceptions are the [Raise] branch of [result]; a method returns the
      module object it leaves behind together with its result, so that what
      was done before an exception stays visible.
    - The calls on the host ([add_data_source], [write_data_file],
      [general_stats_addcols], [add_section], ...) are recorded in the order
      they are made, with their arguments as they are at the call.
    - Calls of the logger are left out, and so is
      [jax_trimmer_stats_plot], which [__init__] never calls.

    Layout: the Python built-ins and the regular expressions the modules
    use, the modules themselves, the notions the statements need, lemmas,
    the claims [C1] to [C10], and last the further properties [X1] to
    [X20]. *)

From Stdlib Require Import List String Ascii ZArith Bool Lia PeanoNat Permutation.
From Stdlib Require Import SpecFloat.
Import ListNotations.

Local Open Scope string_scope.
Local Open Scope list_scope.

Set Implicit Arguments.

(* ================================================================= *)
(** * Python built-ins used by the modules *)

Module Py.

(** ** Exceptions and the error monad *)

Inductive exn : Type :=
| ValueError
| TypeError
| OverflowError
| UserWarning
| ModuleNoSamplesFound.

Inductive result (A : Type) : Type :=
| Ok (a : A)
| Raise (e : exn).

Arguments Ok {A} a.
Arguments Raise {A} e.

Definition bind {A B : Type} (m : result A) (k : A -> result B) : result B :=
  match m with
  | Ok a => k a
  | Raise e => Raise e
  end.

Notation "x <- m ;; k" := (bind m (fun x => k))
  (at level 61, m at next level, right associativity).

(** ** Characters *)

Definition code (c : ascii) : nat := nat_of_ascii c.

(** [\d] on code points below 256: the ASCII digits. *)
Definition is_digit (c : ascii) : bool :=
  (48 <=? code c)%nat && (code c <=? 57)%nat.

(** [\s] on code points below 256: tab..carriage return, the four
    separators 0x1c..0x1f, space, NEL (0x85) and no-break space (0xa0). *)
Definition is_space (c : ascii) : bool :=
  let n := code c in
  ((9 <=? n)%nat && (n <=? 13)%nat)
  || ((28 <=? n)%nat && (n <=? 32)%nat)
  || (n =? 133)%nat || (n =? 160)%nat.

Definition digit_val (c : ascii) : Z := Z.of_nat (code c) - 48.

Definition LF : ascii := ascii_of_nat 10.
Definition CR : ascii := ascii_of_nat 13.

(** ** [str] methods *)

(** [sub in s] *)
Fixpoint str_in (sub s : string) : bool :=
  if prefix sub s then true
  else match s with
       | EmptyString => false
       | String _ s' => str_in sub s'
       end.

(** [s.replace(old, "")] for a non-empty [old]: occurrences are removed left
    to right without overlap; [skip] counts the characters of the occurrence
    being removed that are still to be dropped. *)
Fixpoint str_remove_from (old s : string) (skip : nat) : string :=
  match s with
  | EmptyString => EmptyString
  | String c s' =>
      match skip with
      | S n => str_remove_from old s' n
      | O => if prefix old s
             then str_remove_from old s' (String.length old - 1)
             else String c (str_remove_from old s' 0)
      end
  end.

Definition str_remove (old s : string) : string := str_remove_from old s 0.

(** [s.rsplit(sep, 1)[0]]: what precedes the last [sep], or [s] itself. *)
Fixpoint before_last (sep : ascii) (s : string) : option string :=
  match s with
  | EmptyString => None
  | String c s' =>
      match before_last sep s' with
      | Some h => Some (String c h)
      | None => if Ascii.eqb c sep then Some EmptyString else None
      end
  end.

Definition rsplit1_head (sep : ascii) (s : string) : string :=
  match before_last sep s with
  | Some h => h
  | None => s
  end.

(** Line boundaries of [str.splitlines] below 256: LF, VT, FF, CR, FS, GS,
    RS and NEL. *)
Definition is_linebreak (c : ascii) : bool :=
  let n := code c in
  ((10 <=? n)%nat && (n <=? 13)%nat)
  || ((28 <=? n)%nat && (n <=? 30)%nat)
  || (n =? 133)%nat.

(** [cur] is the line being read, reversed; [after_cr] says that the previous
    character was a CR, so that a LF right after it ends no further line. *)
Fixpoint splitlines_from (s : string) (cur : list ascii) (after_cr : bool)
  : list string :=
  match s with
  | EmptyString =>
      match cur with
      | [] => []
      | _ => [string_of_list_ascii (rev cur)]
      end
  | String c s' =>
      if after_cr && Ascii.eqb c LF then splitlines_from s' [] false
      else if is_linebreak c
           then string_of_list_ascii (rev cur)
                  :: splitlines_from s' [] (Ascii.eqb c CR)
           else splitlines_from s' (c :: cur) false
  end.

Definition splitlines (s : string) : list string := splitlines_from s [] false.

(** ** Numbers *)

Definition prec : Z := 53.
Definition emax : Z := 1024.

Inductive pyval : Type :=
| PyInt (z : Z)
| PyFloat (x : spec_float).

(** A run of digits in which single underscores may separate digits: the
    digits read extend [acc]; [cnt] counts the digits of this run. Returns
    the number, the count and the unread rest. *)
Fixpoint digitpart (s : string) (acc : Z) (cnt : nat) : Z * nat * string :=
  match s with
  | EmptyString => (acc, cnt, s)
  | String c s' =>
      if is_digit c then digitpart s' (10 * acc + digit_val c) (S cnt)
      else if Ascii.eqb c "_" && (0 <? cnt)%nat
           then match s' with
                | String c2 s'' =>
                    if is_digit c2
                    then digitpart s'' (10 * acc + digit_val c2) (S cnt)
                    else (acc, cnt, s)
                | EmptyString => (acc, cnt, s)
                end
           else (acc, cnt, s)
  end.

(** The most digits [int] converts ([sys.get_int_max_str_digits()], 4300
    unless configured otherwise), and the most digits [float] reads. *)
Definition max_int_digits : Z := 4300.
Definition max_float_digits : Z := 1000000000.

(** [int(s)] on the strings a [(\d+)] group captures: a run of ASCII digits
    without underscores is its decimal value, unless it has more than
    [max_int_digits] digits, leading zeros counted, which raises
    [ValueError]; the leading sign, surrounding white space and underscores
    [int] also accepts never reach it from these modules and are answered as
    [ValueError] here. *)
Fixpoint all_digits (s : string) : bool :=
  match s with
  | EmptyString => true
  | String c s' => is_digit c && all_digits s'
  end.

Definition py_int (s : string) : result Z :=
  match s with
  | EmptyString => Raise ValueError
  | _ => if all_digits s
         then if (max_int_digits <? Z.of_nat (String.length s))%Z
              then Raise ValueError
              else Ok (fst (fst (digitpart s 0 0)))
         else Raise ValueError
  end.

(** The number of decimal digits of [n], none for zero; [fuel] bounds it. *)
Fixpoint decimal_digits (fuel : nat) (n : Z) : nat :=
  match fuel with
  | O => O
  | S fuel' => if (n =? 0)%Z then O else S (decimal_digits fuel' (n / 10))
  end.

(** The binary64 nearest (ties to even) to [n * 10 ^ x], for [0 <= n]. *)
Definition decimal_to_float (n x : Z) : spec_float :=
  match n with
  | Z0 => S754_zero false
  | Zneg _ => S754_nan
  | Zpos _ =>
      if (0 <=? x)%Z
      then binary_normalize prec emax (n * 10 ^ x) 0 false
      else let '(q, e, l) := SFdiv_core_binary prec emax n 0 (10 ^ (- x)) 0 in
           binary_round_aux prec emax false q e l
  end.

Definition exponent_sign (s : string) : bool * string :=
  match s with
  | String "-" r => (true, r)
  | String "+" r => (false, r)
  | _ => (false, s)
  end.

(** [float(s)] on unsigned decimal numerals: digits with an optional point
    and an optional exponent, underscores allowed between digits. Every other
    string a capture group of these modules can hold raises [ValueError], as
    in Python; a sign, surrounding white space, [inf] and [nan], which Python
    accepts as well, cannot start a capture and are not modelled. A numeral
    with more than [max_float_digits] digits after its leading zeros, or
    with more than that many digits after the point, raises [ValueError]
    too. *)
Definition py_float (s : string) : result spec_float :=
  let '(n1, c1, r1) := digitpart s 0 0 in
  let '(n2, c2, r2) :=
    match r1 with
    | String "." r => digitpart r n1 0
    | _ => (n1, O, r1)
    end in
  if (c1 + c2 =? 0)%nat then Raise ValueError
  else if (max_float_digits <? Z.of_nat (decimal_digits (c1 + c2) n2))%Z
          || (max_float_digits <? Z.of_nat c2)%Z
  then Raise ValueError
  else match r2 with
       | EmptyString => Ok (decimal_to_float n2 (- Z.of_nat c2))
       | String c r3 =>
           if Ascii.eqb c "e" || Ascii.eqb c "E"
           then let '(neg, r4) := exponent_sign r3 in
                let '(x, cx, r5) := digitpart r4 0 0 in
                match cx, r5 with
                | S _, EmptyString =>
                    Ok (decimal_to_float n2
                          ((if neg then - x else x) - Z.of_nat c2))
                | _, _ => Raise ValueError
                end
           else Raise ValueError
       end.

(** [float(n)] for an [int]: nearest binary64, [OverflowError] beyond range. *)
Definition float_of_int (z : Z) : result spec_float :=
  match binary_normalize prec emax z 0 false with
  | S754_infinity _ => Raise OverflowError
  | x => Ok x
  end.

(** [float(v)] *)
Definition float_of_val (v : pyval) : result spec_float :=
  match v with
  | PyInt z => float_of_int z
  | PyFloat x => Ok x
  end.

Definition float_two : spec_float := S754_finite false 4503599627370496 (-51).

(** [x / 2.0] *)
Definition halve (x : spec_float) : spec_float := SFdiv prec emax x float_two.

End Py.

(* ================================================================= *)
(** * The fragment of Python's [re] used by the modules *)

Module Re.
Import Py.

(** An item of a bracketed set, also a one-character pattern. *)
Inductive atom : Type :=
| AChr (c : ascii)       (* a literal character *)
| ADigit                 (* \d *)
| ASpace.                (* \s *)

Inductive cclass : Type :=
| COne (a : atom)
| CDot                                 (* .  : anything but a line feed *)
| CSet (neg : bool) (items : list atom).  (* [...] and [^...] *)

Inductive regex : Type :=
| RLit (s : string)            (* a run of literal characters *)
| RChr (c : cclass)            (* one character of a class *)
| RPlus (c : cclass)           (* c+ , greedy *)
| ROpt (r : regex)             (* (?:r)? , greedy *)
| RSeq (r1 r2 : regex)
| RGroup (n : nat) (r : regex) (* capturing group number n *)
| RBol.                        (* ^ without MULTILINE *)

Definition atom_match (a : atom) (c : ascii) : bool :=
  match a with
  | AChr c' => Ascii.eqb c c'
  | ADigit => is_digit c
  | ASpace => is_space c
  end.

Definition cclass_match (cc : cclass) (c : ascii) : bool :=
  match cc with
  | COne a => atom_match a c
  | CDot => negb (Ascii.eqb c LF)
  | CSet neg items => xorb neg (existsb (fun a => atom_match a c) items)
  end.

(** A match object: the groups that took part, latest binding first. *)
Definition rmatch : Type := list (nat * string).

Fixpoint group (n : nat) (m : rmatch) : option string :=
  match m with
  | [] => None
  | (i, s) :: m' => if (i =? n)%nat then Some s else group n m'
  end.

(** Length of the longest run of [cc] characters at the head of [s]. *)
Fixpoint run_length (cc : cclass) (s : string) : nat :=
  match s with
  | EmptyString => O
  | String c s' => if cclass_match cc c then S (run_length cc s') else O
  end.

Definition drop (n : nat) (s : string) : string :=
  substring n (String.length s - n) s.

Section Matcher.
(** The subject string; positions are offsets into it. *)
Variable line : string.

Definition kont : Type := nat -> rmatch -> option rmatch.

(** Greedy repetition: try the longest run first, then shorter ones, down
    to one character. *)
Fixpoint try_down (k : kont) (pos : nat) (caps : rmatch) (i : nat)
  : option rmatch :=
  match i with
  | O => None
  | S j =>
      match k (pos + i)%nat caps with
      | Some m => Some m
      | None => try_down k pos caps j
      end
  end.

(** Backtracking matcher in continuation-passing style: [k] is the rest of
    the pattern, run at the position this piece stops at. *)
Fixpoint match_at (r : regex) (pos : nat) (caps : rmatch) (k : kont)
  : option rmatch :=
  match r with
  | RLit s =>
      if prefix s (drop pos line) then k (pos + String.length s)%nat caps
      else None
  | RChr cc =>
      match get pos line with
      | Some c => if cclass_match cc c then k (S pos) caps else None
      | None => None
      end
  | RPlus cc => try_down k pos caps (run_length cc (drop pos line))
  | ROpt r1 =>
      match match_at r1 pos caps k with
      | Some m => Some m
      | None => k pos caps
      end
  | RSeq r1 r2 =>
      match_at r1 pos caps (fun p c => match_at r2 p c k)
  | RGroup n r1 =>
      match_at r1 pos caps
        (fun p c => k p ((n, substring pos (p - pos) line) :: c))
  | RBol => if (pos =? 0)%nat then k pos caps else None
  end.

(** Leftmost match: start positions [pos], [pos + 1], ... ([fuel] of them). *)
Fixpoint search_from (r : regex) (pos fuel : nat) : option rmatch :=
  match fuel with
  | O => None
  | S fuel' =>
      match match_at r pos [] (fun _ c => Some c) with
      | Some m => Some m
      | None => search_from r (S pos) fuel'
      end
  end.
End Matcher.

(** [re.search(r, line)] *)
Definition search (r : regex) (line : string) : option rmatch :=
  search_from line r 0 (S (String.length line)).

Definition matches (r : regex) (line : string) : bool :=
  match search r line with
  | Some _ => true
  | None => false
  end.

Definition digit : cclass := COne ADigit.
Definition space : cclass := COne ASpace.

Declare Scope re_scope.
Delimit Scope re_scope with re.
Infix "+++" := RSeq (at level 60, right associativity) : re_scope.

End Re.

(* ================================================================= *)
(** * Python dictionaries *)

Module Dict.

Section Dict.
Variable V : Type.

(** Entries in insertion order; a key occurs at most once ([wf]). *)
Definition dict : Type := list (string * V).

Definition empty : dict := [].

(** [d.get(k)] *)
Fixpoint get (k : string) (d : dict) : option V :=
  match d with
  | [] => None
  | (k', v) :: d' => if String.eqb k' k then Some v else get k d'
  end.

(** [k in d] *)
Definition mem (k : string) (d : dict) : bool :=
  match get k d with
  | Some _ => true
  | None => false
  end.

(** [d[k] = v]: an existing key keeps its place and takes the new value, a
    new key goes last. *)
Fixpoint set (k : string) (v : V) (d : dict) : dict :=
  match d with
  | [] => [(k, v)]
  | (k', v') :: d' =>
      if String.eqb k' k then (k, v) :: d' else (k', v') :: set k v d'
  end.

Definition keys (d : dict) : list string := map fst d.

(** [len(d)] *)
Definition len (d : dict) : nat := List.length d.

Definition wf (d : dict) : Prop := NoDup (keys d).

(** A run of assignments, made in order. *)
Definition set_all (ws : list (string * V)) (d : dict) : dict :=
  fold_left (fun acc kv => set (fst kv) (snd kv) acc) ws d.

(** The value the last assignment to [k] in [ws] gives it. *)
Fixpoint last_write (k : string) (ws : list (string * V)) : option V :=
  match ws with
  | [] => None
  | (k', v) :: ws' =>
      match last_write k ws' with
      | Some v' => Some v'
      | None => if String.eqb k' k then Some v else None
      end
  end.
End Dict.

Arguments empty {V}.

End Dict.

Abbreviation dict := Dict.dict.

(* ================================================================= *)
(** * What the modules exchange with the host *)

Import Py.

(** One sample's metrics, and the per-sample mapping of a module. *)
Definition record : Type := dict pyval.
Definition samples : Type := dict record.

(** A discovered log file: [f["fn"]], [f["s_name"]] and [f["f"]]. For hisat2,
    which asks for file handles, [contents] is the text the handle yields. *)
Record logfile : Type := {
  fn : string;
  s_name : string;
  contents : string
}.

(** A column description of the general-statistics table. *)
Record header : Type := {
  title : string;
  description : string;
  hmin : option Z;
  hmax : option Z;
  suffix : string;
  scale : option string
}.

Definition headers : Type := list (string * header).

(** A category of a bar chart: colour and name. *)
Record category : Type := { color : string; name : string }.

(** The arguments of one [bargraph.plot] call. *)
Record barplot : Type := {
  plot_data : samples;
  plot_keys : list (string * category);
  plot_id : string;
  plot_title : string
}.

(** The calls a module makes on the host, in the order it makes them. The
    logger is not part of this record. *)
Inductive event : Type :=
| AddDataSource (f : logfile) (s_name : string)
| AddSoftwareVersion
| WriteDataFile (data : samples) (fname : string)
| GeneralStatsAddcols (data : samples) (hs : headers)
| AddSection (description : string) (plot : barplot).

(** The report contributions among them: the data file, the columns of the
    general-statistics table and the plot sections. *)
Definition is_contribution (e : event) : bool :=
  match e with
  | WriteDataFile _ _ | GeneralStatsAddcols _ _ | AddSection _ _ => true
  | AddDataSource _ _ | AddSoftwareVersion => false
  end.

Definition contributions (host : list event) : list event :=
  filter is_contribution host.

(** A module object: its per-sample mapping ([self.<tool>_data]), the
    trimmer's [self.pe_bool] (unused by the other modules) and the host calls
    made so far. A method maps the object to the object it leaves behind and
    to what it returns or raises. *)
Record module : Type := {
  data : samples;
  pe_bool : bool;
  host : list event
}.

Definition run (A : Type) : Type := module * result A.

Definition set_data (d : samples) (self : module) : module :=
  {| data := d; pe_bool := pe_bool self; host := host self |}.

Definition set_pe_bool (b : bool) (self : module) : module :=
  {| data := data self; pe_bool := b; host := host self |}.

Definition call (e : event) (self : module) : module :=
  {| data := data self; pe_bool := pe_bool self; host := host self ++ [e] |}.

(** A [for] loop whose body may raise: the first exception ends it. *)
Fixpoint for_each {A : Type} (body : A -> module -> run unit) (l : list A)
    (self : module) : run unit :=
  match l with
  | [] => (self, Ok tt)
  | x :: l' =>
      match body x self with
      | (self', Ok _) => for_each body l' self'
      | (self', Raise e) => (self', Raise e)
      end
  end.

(** A fresh module object, as [__init__] sets it up before parsing. *)
Definition new_module : module :=
  {| data := Dict.empty; pe_bool := false; host := [] |}.

(* ================================================================= *)
(** * The scanning loop shared by the parsers *)

Import Re.

Definition regex_table : Type := list (string * regex).

(** [for k, r in regexes.items(): match = re.search(r, l); if match: ...]
    where [store k match parsed_data] is the body of the [if]. *)
Fixpoint scan_regexes (store : string -> rmatch -> record -> result record)
    (regexes : regex_table) (l : string) (parsed_data : record)
  : result record :=
  match regexes with
  | [] => Ok parsed_data
  | (k, r) :: rest =>
      match search r l with
      | Some m =>
          bind (store k m parsed_data) (scan_regexes store rest l)
      | None => scan_regexes store rest l parsed_data
      end
  end.

(** [for l in lines: <scan_regexes>] *)
Fixpoint scan_lines (store : string -> rmatch -> record -> result record)
    (regexes : regex_table) (lines : list string) (parsed_data : record)
  : result record :=
  match lines with
  | [] => Ok parsed_data
  | l :: lines' =>
      bind (scan_regexes store regexes l parsed_data)
           (scan_lines store regexes lines')
  end.

(** [float(match.group(n))]; an absent group is [None], which [float]
    rejects with [TypeError]. *)
Definition float_group (n : nat) (m : rmatch) : result pyval :=
  match group n m with
  | Some s => bind (py_float s) (fun x => Ok (PyFloat x))
  | None => Raise TypeError
  end.

(** [int(match.group(n))] *)
Definition int_group (n : nat) (m : rmatch) : result pyval :=
  match group n m with
  | Some s => bind (py_int s) (fun z => Ok (PyInt z))
  | None => Raise TypeError
  end.

(** [parsed_data[k] = float(match.group(1))] *)
Definition store_float (k : string) (m : rmatch) (parsed_data : record)
  : result record :=
  bind (float_group 1 m) (fun v => Ok (Dict.set k v parsed_data)).

(** The block that ends the single-record parsers:
    [if len(parsed_data) > 0: ... self.add_data_source(f, s_name);
     self.<tool>_data[s_name] = parsed_data]. *)
Definition save (f : logfile) (s_name : string) (parsed_data : record)
    (self : module) : module :=
  set_data (Dict.set s_name parsed_data (data self))
           (call (AddDataSource f s_name) self).

Definition save_if_any (f : logfile) (s_name : string) (parsed_data : record)
    (self : module) : module :=
  if (0 <? Dict.len parsed_data)%nat then save f s_name parsed_data self
  else self.

Local Open Scope re_scope.

(** Pieces the patterns share. *)
Definition num : regex := RPlus digit.                        (* \d+ *)
Definition num_any_num : regex :=                             (* \d+.\d+ *)
  RPlus digit +++ RChr CDot +++ RPlus digit.
Definition dot : cclass := COne (AChr ".").
Definition decimal : regex :=                                 (* \d+(?:\.\d+)? *)
  RPlus digit +++ ROpt (RChr dot +++ RPlus digit).
Definition spaces : regex := RPlus space.                     (* \s+ *)
Definition digits_dots : regex :=                             (* [\d\.]+ *)
  RPlus (CSet false [ADigit; AChr "."]).

Definition plain_header (t d : string) : header :=
  {| title := t; description := d; hmin := Some 0%Z; hmax := None;
     suffix := ""; scale := None |}.

Section Modules.

(** The host's configuration of ignored sample names. *)
Variable sample_ignored : string -> bool.

(** Modelled from the spec: the host's sample-ignore filter
    ([BaseMultiqcModule.ignore_samples]) is not among the sources. It
    returns the mapping without the samples whose name the host's
    configuration ignores, the others in their order. *)
Definition ignore_samples (d : samples) : samples :=
  filter (fun kv => negb (sample_ignored (fst kv))) d.

(** The host's [clean_s_name], which turns a file name found in a log into
    a sample name, is not among the sources either: it is a parameter. Its
    first argument is a capture group, which may be [None]. *)
Variable clean_s_name : option string -> logfile -> string.

(* --------------------------------------------------------------- *)
(** ** primerclip *)

Definition primerclip_regexes : regex_table :=
  [ ("total_alignments",
     RLit "Total alignments processed:" +++ spaces +++ RGroup 1 num);
    ("total_mapped_alignments",
     RLit "Total mapped alignments:" +++ spaces +++ RGroup 1 num);
    ("trimmed_by_ge_one_base",
     RBol +++ RLit "Alignments trimmed by >= 1 base:" +++ spaces
       +++ RGroup 1 num);
    ("trimmed_to_zero",
     RLit "Alignments trimmed to zero aligned length:" +++ spaces
       +++ RGroup 1 num_any_num);
    ("perc_trimmed_by_ge_one_base",
     RLit "% Alignments trimmed by >= 1 base:" +++ spaces
       +++ RGroup 1 num_any_num);
    ("perc_mapped_after_trimming",
     RLit "% Alignments mapped after trimming:" +++ spaces
       +++ RGroup 1 num_any_num) ].

Definition parse_primerclip_logs (f : logfile) (self : module) : run unit :=
  let s_name := str_remove "_primerclip_runstats" (s_name f) in
  match scan_lines store_float primerclip_regexes (splitlines (contents f))
          Dict.empty with
  | Raise e => (self, Raise e)
  | Ok parsed_data => (save_if_any f s_name parsed_data self, Ok tt)
  end.

Definition primerclip_headers : headers :=
  [ ("total_alignments",
     plain_header "Total Alignments" "The number total alignments in sample");
    ("total_mapped_alignments",
     plain_header "Mapped Alignments"
       "The number of mapped alignments in the sample");
    ("trimmed_by_ge_one_base",
     plain_header "Trimmed Alignments" "Alignments trimmed by >= 1 base");
    ("trimmed_to_zero",
     plain_header "Removed Alignments" "Alignments trimmed to 0 length") ].

Definition primerclip_general_stats_table (self : module) : run unit :=
  (call (GeneralStatsAddcols (data self) primerclip_headers) self, Ok tt).

(** [MultiqcModule.__init__]; [files] is what
    [self.find_log_files("primerclip")] yields. *)
Definition primerclip_init (files : list logfile) : run unit :=
  match for_each parse_primerclip_logs files new_module with
  | (self, Raise e) => (self, Raise e)
  | (self, Ok _) =>
      let self := set_data (ignore_samples (data self)) self in
      if (Dict.len (data self) =? 0)%nat then (self, Raise UserWarning)
      else
        let self := call (WriteDataFile (data self) "multiqc_primerclip")
                      self in
        primerclip_general_stats_table self
  end.

(* --------------------------------------------------------------- *)
(** ** coverage_metrics *)

Definition coverage_metrics_regexes : regex_table :=
  [ ("on_target_percent",
     RLit "on_target_percent" +++ spaces +++ RGroup 1 decimal);
    ("coverage_uniformity",
     RLit "coverage_uniformity" +++ spaces +++ RGroup 1 decimal) ].

Definition parse_coverage_metrics_logs (f : logfile) (self : module)
  : run unit :=
  let s_name := str_remove "_amplicon_coverage_metrics" (s_name f) in
  match scan_lines store_float coverage_metrics_regexes
          (splitlines (contents f)) Dict.empty with
  | Raise e => (self, Raise e)
  | Ok parsed_data => (save_if_any f s_name parsed_data self, Ok tt)
  end.

(** The Greek mu of the source's description is written [u]. *)
Definition coverage_metrics_headers : headers :=
  [ ("on_target_percent",
     plain_header "On Target Percentage"
       "The percentage of total aligned reads sequenced aligned to the intended target regions.");
    ("coverage_uniformity",
     plain_header "Coverage Uniformity"
       "Coverage uniformity percent (CU%) is calculated as the ratio of 'number of target bases that have coverage at or above 20% (0.2u)' and 'total number of target bases'") ].

Definition coverage_metrics_general_stats_table (self : module) : run unit :=
  (call (GeneralStatsAddcols (data self) coverage_metrics_headers) self,
   Ok tt).

Definition coverage_metrics_init (files : list logfile) : run unit :=
  match for_each parse_coverage_metrics_logs files new_module with
  | (self, Raise e) => (self, Raise e)
  | (self, Ok _) =>
      let self := set_data (ignore_samples (data self)) self in
      if (Dict.len (data self) =? 0)%nat then (self, Raise UserWarning)
      else
        let self :=
          call (WriteDataFile (data self) "multiqc_coverage_metrics") self in
        coverage_metrics_general_stats_table self
  end.

(* --------------------------------------------------------------- *)
(** ** jax_trimmer *)

(** The two-column patterns ([regexes]). *)
Definition jax_regexes : regex_table :=
  [ ("perc_hq",
     RLit "Percentage of HQ reads" +++ spaces +++ RGroup 1 num_any_num
       +++ RLit "%" +++ spaces +++ RGroup 2 num_any_num);
    ("total_reads",
     RLit "Total number of reads" +++ spaces +++ RGroup 1 num
       +++ spaces +++ RGroup 2 num);
    ("total_hq_reads",
     RLit "Total number of HQ filtered reads" +++ spaces +++ RGroup 1 num
       +++ spaces +++ RGroup 2 num);
    ("reads_passing",
     RLit "Reads passing filter" +++ spaces +++ RGroup 1 num
       +++ spaces +++ RGroup 2 num);
    ("perc_passing",
     RLit "Percent reads passing filter" +++ spaces
       +++ RGroup 1 num_any_num +++ RLit "%" +++ spaces
       +++ RGroup 2 num_any_num);
    ("max_trim_len",
     RLit "Max Trimmed Length" +++ spaces +++ RGroup 1 (RGroup 2 decimal)
       +++ spaces +++ RGroup 3 (RGroup 4 decimal));
    ("min_trim_len",
     RLit "Min Trimmed Length" +++ spaces +++ RGroup 1 (RGroup 2 decimal)
       +++ spaces +++ RGroup 3 (RGroup 4 decimal));
    ("mean_trim_len",
     RLit "Mean Trimmed Length" +++ spaces +++ RGroup 1 (RGroup 2 decimal)
       +++ spaces +++ RGroup 3 (RGroup 4 decimal)) ].

(** The one-column patterns ([regexes_se]). *)
Definition jax_regexes_se : regex_table :=
  [ ("perc_hq",
     RLit "Percentage of HQ reads" +++ spaces +++ RGroup 1 num_any_num
       +++ RLit "%");
    ("total_reads",
     RLit "Total number of reads" +++ spaces +++ RGroup 1 num);
    ("total_hq_reads",
     RLit "Total number of HQ filtered reads" +++ spaces +++ RGroup 1 num);
    ("reads_passing",
     RLit "Reads passing filter" +++ spaces +++ RGroup 1 num);
    ("perc_passing",
     RLit "Percent reads passing filter" +++ spaces
       +++ RGroup 1 num_any_num +++ RLit "%");
    ("max_trim_len",
     RLit "Max Trimmed Length" +++ spaces +++ RGroup 1 (RGroup 2 decimal));
    ("min_trim_len",
     RLit "Min Trimmed Length" +++ spaces +++ RGroup 1 (RGroup 2 decimal));
    ("mean_trim_len",
     RLit "Mean Trimmed Length" +++ spaces +++ RGroup 1 (RGroup 2 decimal)) ].

(** [parsed_data[k+"_1"] = float(match.group(1))] *)
Definition store_se (k : string) (m : rmatch) (parsed_data : record)
  : result record :=
  bind (float_group 1 m) (fun v => Ok (Dict.set (k ++ "_1") v parsed_data)).

(** [parsed_data[k+"_1"] = float(match.group(1));
     parsed_data[k+"_2"] = float(match.group(2))] *)
Definition store_pe (k : string) (m : rmatch) (parsed_data : record)
  : result record :=
  bind (float_group 1 m) (fun v1 =>
  let parsed_data := Dict.set (k ++ "_1") v1 parsed_data in
  bind (float_group 2 m) (fun v2 =>
  Ok (Dict.set (k ++ "_2") v2 parsed_data))).

(** The body of the loop over the lines of a trimmer log. *)
Definition jax_line (l : string) (parsed_data : record) (self : module)
  : run record :=
  if str_in "Read" l then
    if str_in "Read 2" l then (set_pe_bool true self, Ok parsed_data)
    else (self, Ok parsed_data)
  else if pe_bool self
       then (self, scan_regexes store_pe jax_regexes l parsed_data)
       else (self, scan_regexes store_se jax_regexes_se l parsed_data).

Fixpoint jax_lines (lines : list string) (parsed_data : record)
    (self : module) : run record :=
  match lines with
  | [] => (self, Ok parsed_data)
  | l :: lines' =>
      match jax_line l parsed_data self with
      | (self', Ok parsed_data') => jax_lines lines' parsed_data' self'
      | (self', Raise e) => (self', Raise e)
      end
  end.

Definition parse_jax_trimmer_logs (f : logfile) (self : module) : run unit :=
  let s_name := rsplit1_head "_" (s_name f) in
  let self := set_pe_bool false self in
  match jax_lines (splitlines (contents f)) Dict.empty self with
  | (self, Raise e) => (self, Raise e)
  | (self, Ok parsed_data) => (save_if_any f s_name parsed_data self, Ok tt)
  end.

Definition jax_headers_1 : headers :=
  [ ("total_reads_1",
     plain_header "Total Reads R1" "The total number of reads in the sample");
    ("total_hq_reads_1",
     plain_header "Total HQ Reads R1" "The total number of high quality reads");
    ("reads_passing_1",
     plain_header "Reads Passing Filter R1"
       "The total number of reads passing filter");
    ("min_trim_len_1",
     plain_header "Min Trim Length R1" "The minimum trim length of reads");
    ("mean_trim_len_1",
     plain_header "Mean Trim Length R1" "The average trim length of reads");
    ("max_trim_len_1",
     plain_header "Max Trim Length R1" "The max trim length of reads") ].

Definition jax_headers_2 : headers :=
  [ ("total_reads_2",
     plain_header "Total Reads R2" "The total number of reads in the sample");
    ("total_hq_reads_2",
     plain_header "Total HQ Reads R2" "The total number of high quality reads");
    ("reads_passing_2",
     plain_header "Reads Passing Filter R2"
       "The total number of reads passing filter");
    ("min_trim_len_2",
     plain_header "Min Trim Length R2" "The minimum trim length of reads");
    ("mean_trim_len_2",
     plain_header "Mean Trim Length R2" "The average trim length of reads");
    ("max_trim_len_2",
     plain_header "Max Trim Length R2" "The max trim length of reads") ].

(** The headers [jax_trimmer_general_stats_table] builds. *)
Definition jax_trimmer_headers (self : module) : headers :=
  if pe_bool self then jax_headers_1 ++ jax_headers_2 else jax_headers_1.

Definition jax_trimmer_general_stats_table (self : module) : run unit :=
  (call (GeneralStatsAddcols (data self) (jax_trimmer_headers self)) self,
   Ok tt).

Definition jax_trimmer_init (files : list logfile) : run unit :=
  match for_each parse_jax_trimmer_logs files new_module with
  | (self, Raise e) => (self, Raise e)
  | (self, Ok _) =>
      let self := set_data (ignore_samples (data self)) self in
      if (Dict.len (data self) =? 0)%nat then (self, Raise UserWarning)
      else
        let self := call (WriteDataFile (data self) "multiqc_jax_trimmer")
                      self in
        jax_trimmer_general_stats_table self
  end.

(* --------------------------------------------------------------- *)
(** ** hisat2 *)

Definition percent_in_parens : regex :=                (* \([\d\.]+%\) *)
  RLit "(" +++ digits_dots +++ RLit "%)".

Definition hisat2_regexes : regex_table :=
  [ ("unpaired_total",
     RLit "Total" +++ ROpt (RLit " unpaired") +++ RLit " reads: "
       +++ RGroup 1 num);
    ("unpaired_aligned_none",
     RLit "Aligned 0 time" +++ ROpt (RLit "s") +++ RLit ": "
       +++ RGroup 1 num +++ RLit " " +++ percent_in_parens);
    ("unpaired_aligned_one",
     RLit "Aligned 1 time: " +++ RGroup 1 num +++ RLit " "
       +++ percent_in_parens);
    ("unpaired_aligned_multi",
     RLit "Aligned >1 times: " +++ RGroup 1 num +++ RLit " "
       +++ percent_in_parens);
    ("paired_total", RLit "Total pairs: " +++ RGroup 1 num);
    ("paired_aligned_none",
     RLit "Aligned concordantly or discordantly 0 time: " +++ RGroup 1 num
       +++ RLit " " +++ percent_in_parens);
    ("paired_aligned_one",
     RLit "Aligned concordantly 1 time: " +++ RGroup 1 num +++ RLit " "
       +++ percent_in_parens);
    ("paired_aligned_multi",
     RLit "Aligned concordantly >1 times: " +++ RGroup 1 num +++ RLit " "
       +++ percent_in_parens);
    ("paired_aligned_discord_one",
     RLit "Aligned discordantly 1 time: " +++ RGroup 1 num +++ RLit " "
       +++ percent_in_parens) ].

(** [hisat2 .+ -[1U] ([^\s,]+)] *)
Definition hisat2_command : regex :=
  RLit "hisat2 " +++ RPlus CDot +++ RLit " -"
    +++ RChr (CSet false [AChr "1"; AChr "U"]) +++ RLit " "
    +++ RGroup 1 (RPlus (CSet true [ASpace; AChr ","])).

(** [Overall alignment rate: ([\d\.]+)%] *)
Definition hisat2_overall : regex :=
  RLit "Overall alignment rate: " +++ RGroup 1 digits_dots +++ RLit "%".

(** [parsed_data[k] = int(match.group(1))] *)
Definition store_int (k : string) (m : rmatch) (parsed_data : record)
  : result record :=
  bind (int_group 1 m) (fun v => Ok (Dict.set k v parsed_data)).

(** The lines a text-mode file handle yields: each ends with its line feed,
    but for a last line the file does not end. *)
Fixpoint readlines_from (s : string) (cur : list ascii) : list string :=
  match s with
  | EmptyString =>
      match cur with
      | [] => []
      | _ => [string_of_list_ascii (rev cur)]
      end
  | String c s' =>
      if Ascii.eqb c LF
      then string_of_list_ascii (rev (c :: cur)) :: readlines_from s' []
      else readlines_from s' (c :: cur)
  end.

Definition readlines (s : string) : list string := readlines_from s [].

(** The body of the loop over the lines of a HISAT2 log; [st] holds the
    local variables [s_name] and [parsed_data]. *)
Definition hisat2_line (f : logfile) (line : string) (st : string * record)
    (self : module) : run (string * record) :=
  let '(s_name0, parsed_data) := st in
  let s_name1 :=
    match search hisat2_command line with
    | Some hscmd => clean_s_name (group 1 hscmd) f
    | None => s_name0
    end in
  match scan_regexes store_int hisat2_regexes line parsed_data with
  | Raise e => (self, Raise e)
  | Ok parsed_data1 =>
      match search hisat2_overall line with
      | Some overall =>
          match float_group 1 overall with
          | Raise e => (self, Raise e)
          | Ok v =>
              let parsed_data2 :=
                Dict.set "overall_alignment_rate" v parsed_data1 in
              (save f s_name1 parsed_data2 self, Ok (s_name f, Dict.empty))
          end
      | None => (self, Ok (s_name1, parsed_data1))
      end
  end.

Fixpoint hisat2_lines (f : logfile) (lines : list string)
    (st : string * record) (self : module) : run (string * record) :=
  match lines with
  | [] => (self, Ok st)
  | line :: lines' =>
      match hisat2_line f line st self with
      | (self', Ok st') => hisat2_lines f lines' st' self'
      | (self', Raise e) => (self', Raise e)
      end
  end.

Definition parse_hisat2_logs (f : logfile) (self : module) : run unit :=
  match hisat2_lines f (readlines (contents f)) (s_name f, Dict.empty) self
  with
  | (self', Ok _) => (self', Ok tt)
  | (self', Raise e) => (self', Raise e)
  end.

Definition hisat2_headers : headers :=
  [ ("overall_alignment_rate",
     {| title := "% Aligned"; description := "overall alignment rate";
        hmin := Some 0%Z; hmax := Some 100%Z; suffix := "%";
        scale := Some "YlGn" |}) ].

Definition hisat2_general_stats_table (self : module) : run unit :=
  (call (GeneralStatsAddcols (data self) hisat2_headers) self, Ok tt).

Definition m_keys : list string :=
  [ "unpaired_total"; "unpaired_aligned_none"; "unpaired_aligned_one";
    "unpaired_aligned_multi" ].

(** [for k in m_keys: if k in data: data[k] = float(data[k]) / 2.0].
    The record is updated in place: what is returned is the state of that
    one object after the loop, also when [float] raises half way. *)
Fixpoint halve_mates (ks : list string) (d : record) : record * result unit :=
  match ks with
  | [] => (d, Ok tt)
  | k :: ks' =>
      match Dict.get k d with
      | Some v =>
          match float_of_val v with
          | Ok x => halve_mates ks' (Dict.set k (PyFloat (halve x)) d)
          | Raise e => (d, Raise e)
          end
      | None => halve_mates ks' d
      end
  end.

(** The loop of [hisat2_alignment_plot] over [self.hisat2_data.items()].
    [items] is what is left to visit. The [data] of an item is the very
    object stored in [self.hisat2_data] under [s_name], so its update shows
    in [self.hisat2_data] as well as in [pedata]; [Dict.set] on a present
    key keeps the order of the mapping. *)
Fixpoint split_se_pe (items : list (string * record))
    (sedata pedata : samples) (self : module)
  : module * result (samples * samples) :=
  match items with
  | [] => (self, Ok (sedata, pedata))
  | (s_name, d) :: items' =>
      if Dict.mem "paired_total" d then
        match halve_mates m_keys d with
        | (d', Ok _) =>
            split_se_pe items' sedata (Dict.set s_name d' pedata)
              (set_data (Dict.set s_name d' (data self)) self)
        | (d', Raise e) =>
            (set_data (Dict.set s_name d' (data self)) self, Raise e)
        end
      else split_se_pe items' (Dict.set s_name d sedata) pedata self
  end.

Definition sekeys : list (string * category) :=
  [ ("unpaired_aligned_one",
     {| color := "#20568f"; name := "SE mapped uniquely" |});
    ("unpaired_aligned_multi",
     {| color := "#f7a35c"; name := "SE multimapped" |});
    ("unpaired_aligned_none",
     {| color := "#981919"; name := "SE not aligned" |}) ].

Definition pekeys : list (string * category) :=
  [ ("paired_aligned_one",
     {| color := "#20568f"; name := "PE mapped uniquely" |});
    ("paired_aligned_discord_one",
     {| color := "#5c94ca"; name := "PE mapped discordantly uniquely" |});
    ("unpaired_aligned_one",
     {| color := "#95ceff"; name := "PE one mate mapped uniquely" |});
    ("paired_aligned_multi",
     {| color := "#f7a35c"; name := "PE multimapped" |});
    ("unpaired_aligned_multi",
     {| color := "#ffeb75"; name := "PE one mate multimapped" |});
    ("unpaired_aligned_none",
     {| color := "#981919"; name := "PE neither mate aligned" |}) ].

Definition pe_note : string :=
  "<em>Please note that single mate alignment counts are halved to tally with pair counts properly.</em>".

Definition hisat2_alignment_plot (self : module) : run unit :=
  match split_se_pe (data self) Dict.empty Dict.empty self with
  | (self, Raise e) => (self, Raise e)
  | (self, Ok (sedata, pedata)) =>
      let self :=
        if (0 <? Dict.len sedata)%nat
        then call (AddSection ""
                     {| plot_data := sedata; plot_keys := sekeys;
                        plot_id := "hisat2_se_plot";
                        plot_title := "HISAT2: SE Alignment Scores" |}) self
        else self in
      let self :=
        if (0 <? Dict.len pedata)%nat
        then call (AddSection pe_note
                     {| plot_data := pedata; plot_keys := pekeys;
                        plot_id := "hisat2_pe_plot";
                        plot_title := "HISAT2: PE Alignment Scores" |}) self
        else self in
      (self, Ok tt)
  end.

Definition hisat2_init (files : list logfile) : run unit :=
  match for_each parse_hisat2_logs files new_module with
  | (self, Raise e) => (self, Raise e)
  | (self, Ok _) =>
      let self := set_data (ignore_samples (data self)) self in
      if (Dict.len (data self) =? 0)%nat
      then (self, Raise ModuleNoSamplesFound)
      else
        let self := call AddSoftwareVersion self in
        let self := call (WriteDataFile (data self) "multiqc_hisat2") self in
        match hisat2_general_stats_table self with
        | (self, Raise e) => (self, Raise e)
        | (self, Ok _) => hisat2_alignment_plot self
        end
  end.

(* --------------------------------------------------------------- *)
(** ** The four modules side by side *)

Inductive tool : Type := Primerclip | CoverageMetrics | JaxTrimmer | Hisat2.

(** The parse function of a module. *)
Definition parse_logs (t : tool) : logfile -> module -> run unit :=
  match t with
  | Primerclip => parse_primerclip_logs
  | CoverageMetrics => parse_coverage_metrics_logs
  | JaxTrimmer => parse_jax_trimmer_logs
  | Hisat2 => parse_hisat2_logs
  end.

(** The parse pass of [__init__]: the loop over the discovered files. *)
Definition parse_pass (t : tool) (files : list logfile) : run unit :=
  for_each (parse_logs t) files new_module.

(** [MultiqcModule.__init__] of a module. *)
Definition module_init (t : tool) : list logfile -> run unit :=
  match t with
  | Primerclip => primerclip_init
  | CoverageMetrics => coverage_metrics_init
  | JaxTrimmer => jax_trimmer_init
  | Hisat2 => hisat2_init
  end.

(** What a module raises when it has no sample to report. *)
Definition no_samples_signal (t : tool) : exn :=
  match t with
  | Hisat2 => ModuleNoSamplesFound
  | _ => UserWarning
  end.

(** The name of the data file a module writes, and what it tells the host
    right before (hisat2 registers its software version). *)
Definition data_file_name (t : tool) : string :=
  match t with
  | Primerclip => "multiqc_primerclip"
  | CoverageMetrics => "multiqc_coverage_metrics"
  | JaxTrimmer => "multiqc_jax_trimmer"
  | Hisat2 => "multiqc_hisat2"
  end.

Definition before_write (t : tool) (self : module) : module :=
  match t with
  | Hisat2 => call AddSoftwareVersion self
  | _ => self
  end.

(** The rendering stage of a module: what [__init__] runs after it has
    written the data file ([init_stages] below). *)
Definition render (t : tool) : module -> run unit :=
  match t with
  | Primerclip => primerclip_general_stats_table
  | CoverageMetrics => coverage_metrics_general_stats_table
  | JaxTrimmer => jax_trimmer_general_stats_table
  | Hisat2 => fun self =>
      match hisat2_general_stats_table self with
      | (self, Raise e) => (self, Raise e)
      | (self, Ok _) => hisat2_alignment_plot self
      end
  end.

End Modules.

(* ================================================================= *)
(** * Sample inputs *)

Module Samples.

Definition nl : string := String LF EmptyString.

Definition mk_log (fn s_name contents : string) : logfile :=
  {| fn := fn; s_name := s_name; contents := contents |}.

(** Host configurations: no sample ignored, every sample ignored, and a
    [clean_s_name] that keeps the name it is given. *)
Definition ignore_none (s : string) : bool := false.
Definition ignore_all (s : string) : bool := true.
Definition keep_name (o : option string) (f : logfile) : string :=
  match o with
  | Some s => s
  | None => s_name f
  end.

(** A log without any line the patterns know. *)
Definition log_blank : logfile :=
  mk_log "run.log" "run" ("nothing to see here" ++ nl).

Definition log_primerclip : logfile :=
  mk_log "S1_primerclip_runstats.log" "S1_primerclip_runstats"
    ("Total alignments processed:    1000" ++ nl
     ++ "Total mapped alignments:    990" ++ nl).

Definition log_coverage : logfile :=
  mk_log "S1_amplicon_coverage_metrics.txt" "S1_amplicon_coverage_metrics"
    ("on_target_percent 91.5" ++ nl ++ "coverage_uniformity 88" ++ nl
     ++ "on_target_percent 93" ++ nl).

(** Two runs in one log, then metrics that no rate line closes. *)
Definition log_hisat2_two : logfile :=
  mk_log "H2.log" "H2"
    ("hisat2 -x idx -U a.fq" ++ nl ++ "Total reads: 7" ++ nl
     ++ "Overall alignment rate: 97.5%" ++ nl
     ++ "hisat2 -x idx -U b.fq" ++ nl ++ "Total reads: 5" ++ nl
     ++ "Overall alignment rate: 50%" ++ nl
     ++ "Total pairs: 3" ++ nl).

Definition log_jax_pe : logfile :=
  mk_log "P1_stat" "P1_stat"
    ("Statistic Read 1 Read 2" ++ nl
     ++ "Total number of reads 120 110" ++ nl
     ++ "Reads passing filter 100 90" ++ nl
     ++ "Max Trimmed Length 150 140" ++ nl).

Definition log_jax_se : logfile :=
  mk_log "Q1_stat" "Q1_stat"
    ("Total number of reads 120" ++ nl ++ "Min Trimmed Length 36" ++ nl).

End Samples.

(* ================================================================= *)
(** * Notions used in the statements *)

Import Dict.

(** ** Loops as runs of assignments *)

(** The assignments [(key, value)] a loop makes, in order. *)
Definition writes_t : Type := list (string * pyval).

Section LineWrites.
(** [writes k m] are the assignments the body of the scanning loop makes
    for key [k] and match [m]. *)
Variable writes : string -> rmatch -> result writes_t.

(** The assignments one line causes, in the order of the table. *)
Fixpoint line_writes (regexes : regex_table) (l : string) : result writes_t :=
  match regexes with
  | [] => Ok []
  | (k, r) :: rest =>
      match search r l with
      | Some m =>
          bind (writes k m) (fun ws =>
          bind (line_writes rest l) (fun ws' => Ok (ws ++ ws')))
      | None => line_writes rest l
      end
  end.

(** The assignments a list of lines causes, in line order. *)
Fixpoint all_writes (regexes : regex_table) (lines : list string)
  : result writes_t :=
  match lines with
  | [] => Ok []
  | l :: lines' =>
      bind (line_writes regexes l) (fun ws =>
      bind (all_writes regexes lines') (fun ws' => Ok (ws ++ ws')))
  end.
End LineWrites.

(** The assignments of a body [parsed_data[k] = conv(match)], and those of
    the two bodies of the trimmer. *)
Definition writes_conv (conv : rmatch -> result pyval) (k : string)
    (m : rmatch) : result writes_t :=
  bind (conv m) (fun v => Ok [(k, v)]).

Definition writes_se (k : string) (m : rmatch) : result writes_t :=
  bind (float_group 1 m) (fun v => Ok [((k ++ "_1")%string, v)]).

Definition writes_pe (k : string) (m : rmatch) : result writes_t :=
  bind (float_group 1 m) (fun v1 =>
  bind (float_group 2 m) (fun v2 =>
  Ok [((k ++ "_1")%string, v1); ((k ++ "_2")%string, v2)])).

(** The keys these bodies assign for the table key [k]. *)
Definition keys_same (k : string) : list string := [k].
Definition keys_se (k : string) : list string := [(k ++ "_1")%string].
Definition keys_pe (k : string) : list string :=
  [(k ++ "_1")%string; (k ++ "_2")%string].

(** ** Records saved by a file *)

Definition stores_t : Type := list (string * record).

(** The module object after the records [ws] of file [f] were saved, in
    that order. *)
Definition after_store (f : logfile) (ws : stores_t) (self : module) : module :=
  {| data := set_all ws (data self);
     pe_bool := pe_bool self;
     host := host self ++ map (fun kv => AddDataSource f (fst kv)) ws |}.

Definition stored_if_any (s : string) (p : record) : stores_t :=
  if (0 <? len p)%nat then [(s, p)] else [].

(** Some line is matched by the pattern the table has for key [k]. *)
Definition matched_key (regexes : regex_table) (lines : list string)
    (k : string) : Prop :=
  exists l r, In l lines /\ In (k, r) regexes /\ matches r l = true.

(** What [hisat2_alignment_plot] leaves of a record. *)
Definition plotted (d : record) : record :=
  if mem "paired_total" d then fst (halve_mates m_keys d) else d.

(** ** The modes of the trimmer *)

(** A line that switches the trimmer to paired-end mode. *)
Definition is_marker (l : string) : bool :=
  str_in "Read" l && str_in "Read 2" l.

(** The table, the assignments and the keys of a mode. *)
Definition jax_table (pe : bool) : regex_table :=
  if pe then jax_regexes else jax_regexes_se.

Definition jax_line_writes (pe : bool) (l : string) : result writes_t :=
  if pe then line_writes writes_pe jax_regexes l
  else line_writes writes_se jax_regexes_se l.

Definition jax_mode_writes (pe : bool) (k : string) (m : rmatch)
  : result writes_t :=
  if pe then writes_pe k m else writes_se k m.

Definition jax_mode_keys (pe : bool) (k : string) : list string :=
  if pe then keys_pe k else keys_se k.

(** The assignments the lines of a trimmer log cause, read in mode [pe]. *)
Fixpoint jax_writes (lines : list string) (pe : bool) : result writes_t :=
  match lines with
  | [] => Ok []
  | l :: lines' =>
      if str_in "Read" l then jax_writes lines' (pe || is_marker l)
      else
        bind (if pe then line_writes writes_pe jax_regexes l
              else line_writes writes_se jax_regexes_se l) (fun ws =>
        bind (jax_writes lines' pe) (fun ws' => Ok (ws ++ ws')))
  end.

(** A key is assigned when a line outside the [Read] lines is matched by a
    pattern of the table in force at that line: the two-column table once a
    marker line was read, the one-column table before. *)
Definition jax_assigns (lines : list string) (pe : bool) (k' : string) : Prop :=
  exists pre l post k r,
    lines = pre ++ l :: post
    /\ str_in "Read" l = false
    /\ matches r l = true
    /\ if pe || existsb is_marker pre
       then In (k, r) jax_regexes /\ In k' (keys_pe k)
       else In (k, r) jax_regexes_se /\ In k' (keys_se k).

(** ** Numbers and lines of the examples *)

(** Binary64 values by mantissa and exponent: 1000 = 1000 * 2^43 * 2^-43,
    97.5 = 195 * 2^45 * 2^-46, and so on. *)
Definition float_1000 : spec_float := S754_finite false 8796093022208000 (-43).
Definition float_150 : spec_float := S754_finite false 5277655813324800 (-45).
Definition float_97_5 : spec_float := S754_finite false 6860952557322240 (-46).
Definition float_93 : spec_float := S754_finite false 6544293208522752 (-46).
Definition float_91_5 : spec_float := S754_finite false 6438740092256256 (-46).
Definition float_3_5 : spec_float := S754_finite false 7881299347898368 (-51).

(** The value a successful conversion stores. *)
Definition py_val (x : result spec_float) : option pyval :=
  match x with
  | Ok v => Some (PyFloat v)
  | Raise _ => None
  end.

Definition rate_line : string := "Overall alignment rate: 97.5%".
Definition total_line : string := "Total alignments processed:    1000".

(* ================================================================= *)
(** * Notions used in the further properties *)

(** ** What a successful match went through *)

(** [reach line r pos caps p caps']: in the subject [line], the piece [r],
    tried at [pos] with the groups [caps] bound so far, may stop at [p]
    having bound [caps']. *)
Fixpoint reach (line : string) (r : regex) (pos : nat) (caps : rmatch)
    (p : nat) (caps' : rmatch) : Prop :=
  match r with
  | RLit s =>
      prefix s (drop pos line) = true /\ p = (pos + String.length s)%nat
      /\ caps' = caps
  | RChr cc =>
      (exists c, String.get pos line = Some c /\ cclass_match cc c = true)
      /\ p = S pos /\ caps' = caps
  | RPlus cc =>
      (exists i, (1 <= i <= run_length cc (drop pos line))%nat
                 /\ p = (pos + i)%nat)
      /\ caps' = caps
  | ROpt r1 => reach line r1 pos caps p caps' \/ (p = pos /\ caps' = caps)
  | RSeq r1 r2 =>
      exists q c, reach line r1 pos caps q c /\ reach line r2 q c p caps'
  | RGroup n r1 =>
      exists c, reach line r1 pos caps p c
                /\ caps' = (n, substring pos (p - pos) line) :: c
  | RBol => pos = O /\ p = pos /\ caps' = caps
  end.

(** The pattern binds group [n] on every way through it. *)
Fixpoint binds (n : nat) (r : regex) : bool :=
  match r with
  | RGroup i r1 => (i =? n)%nat || binds n r1
  | RSeq r1 r2 => binds n r1 || binds n r2
  | _ => false
  end.

(** The bodies of the groups numbered [n] in a pattern. *)
Fixpoint groups_named (n : nat) (r : regex) : list regex :=
  match r with
  | RGroup i r1 =>
      (if (i =? n)%nat then [r1] else []) ++ groups_named n r1
  | RSeq r1 r2 => groups_named n r1 ++ groups_named n r2
  | ROpt r1 => groups_named n r1
  | _ => []
  end.

(** Every character of [s] is in the class. *)
Fixpoint all_class (cc : cclass) (s : string) : bool :=
  match s with
  | EmptyString => true
  | String c s' => cclass_match cc c && all_class cc s'
  end.

(** ** What the capture groups of the modules hold *)

(** A non-empty run of ASCII digits. *)
Definition digit_run (s : string) : Prop :=
  all_digits s = true /\ s <> "".

(** [\d+(?:\.\d+)?]: digits, then maybe a point and digits. *)
Definition decimal_text (s : string) : Prop :=
  exists d1, digit_run d1
    /\ (s = d1 \/ exists d2, digit_run d2 /\ s = (d1 ++ "." ++ d2)%string).

(** [\d+.\d+]: digits, one character that is no line feed, digits. *)
Definition num_any_num_text (s : string) : Prop :=
  exists d1 x d2, digit_run d1 /\ digit_run d2 /\ x <> LF
    /\ s = (d1 ++ String x d2)%string.

(** What a run of digits may be followed by for [digitpart] to stop. *)
Definition stops (rest : string) : Prop :=
  match rest with
  | EmptyString => True
  | String c _ => is_digit c = false /\ c <> "_"%char
  end.

(** ** The groups the tables convert *)

(** Every pattern of the table binds group [n], with one of [bodies]. *)
Definition table_group (n : nat) (bodies : list regex) (t : regex_table)
  : Prop :=
  forall k r, In (k, r) t ->
    binds n r = true /\ incl (groups_named n r) bodies.

(** ** The sections of the HISAT2 plot *)

Definition is_paired (kv : string * record) : bool :=
  mem "paired_total" (snd kv).

(** The samples of the two bar charts: those without [paired_total] as
    they are, those with it after the halving. *)
Definition se_samples (d : samples) : samples :=
  filter (fun kv => negb (is_paired kv)) d.

Definition pe_samples (d : samples) : samples :=
  map (fun kv => (fst kv, plotted (snd kv))) (filter is_paired d).

Definition se_section (sedata : samples) : event :=
  AddSection ""
    {| plot_data := sedata; plot_keys := sekeys;
       plot_id := "hisat2_se_plot";
       plot_title := "HISAT2: SE Alignment Scores" |}.

Definition pe_section (pedata : samples) : event :=
  AddSection pe_note
    {| plot_data := pedata; plot_keys := pekeys;
       plot_id := "hisat2_pe_plot";
       plot_title := "HISAT2: PE Alignment Scores" |}.

(** The sections [hisat2_alignment_plot] adds for the mapping [d]. *)
Definition hisat2_sections (d : samples) : list event :=
  (if (0 <? len (se_samples d))%nat then [se_section (se_samples d)] else [])
  ++ (if (0 <? len (pe_samples d))%nat then [pe_section (pe_samples d)]
      else []).

(** The plot sections of a module, and the headers of its columns. *)
Definition plot_sections (t : tool) (d : samples) : list event :=
  match t with
  | Hisat2 => hisat2_sections d
  | _ => []
  end.

Definition general_stats_headers (t : tool) (self : module) : headers :=
  match t with
  | Primerclip => primerclip_headers
  | CoverageMetrics => coverage_metrics_headers
  | JaxTrimmer => jax_trimmer_headers self
  | Hisat2 => hisat2_headers
  end.

(** ** The nested groups of the trim-length patterns *)

Definition trim_len_keys : list string :=
  ["max_trim_len"; "min_trim_len"; "mean_trim_len"].

(** The second-read value of metric [k], when the record has one, is its
    first-read value. *)
Definition same_reads (k : string) (p : record) : Prop :=
  forall v, get (k ++ "_2")%string p = Some v
            -> get (k ++ "_1")%string p = Some v.

(** What the loop keeps true of [parsed_data]: no second-read value before
    the marker line, and equal values after it. *)
Definition trim_len_inv (k : string) (pe : bool) (p : record) : Prop :=
  if pe then same_reads k p else get (k ++ "_2")%string p = None.

(** ** Lines within the limits of the conversions *)

(** No line has more than [limit] characters. *)
Definition lines_within (limit : Z) (lines : list string) : Prop :=
  forall l, In l lines -> (Z.of_nat (String.length l) <= limit)%Z.

(** ** Files without metric lines *)

(** No pattern of the table matches the line. *)
Definition unmatched (regexes : regex_table) (l : string) : Prop :=
  forall k r, In (k, r) regexes -> matches r l = false.

(** ** Samples and their data sources *)

(** The host calls are [add_data_source] calls for files of [known], and
    the names they register are the sample names of the mapping. *)
Definition sources_match (known : list logfile) (self : module) : Prop :=
  (forall e, In e (host self) ->
     exists f s, e = AddDataSource f s /\ In f known)
  /\ (forall s, In s (keys (data self)) <->
                exists f, In (AddDataSource f s) (host self)).

(** ** Sample names *)

(** [old] occurs in [a ++ rest] at a position inside [a]. *)
Fixpoint occurs_before (old a rest : string) : bool :=
  match a with
  | EmptyString => false
  | String c a' => prefix old (a ++ rest)%string || occurs_before old a' rest
  end.

(** ** The order of the files *)

(** The sample names a file yields when it is parsed on its own. *)
Definition yielded_names (cln : option string -> logfile -> string)
    (t : tool) (f : logfile) : list string :=
  keys (data (fst (parse_logs cln t f new_module))).

(** Two mappings with the same record under every name. *)
Definition same_content (d1 d2 : samples) : Prop :=
  forall s, get s d1 = get s d2.

(** ** Sample inputs *)

(** The mapping holds the one name [a], if any. *)
Definition only_sample (a : string) (d : samples) : Prop :=
  d = [] \/ exists p, d = [(a, p)].


(** A log of one line. *)
Definition one_line_log (s_name line : string) : logfile :=
  Samples.mk_log s_name s_name (line ++ Samples.nl).

(** A string of [n] zeros. *)
Fixpoint zeros (n : nat) : string :=
  match n with
  | O => EmptyString
  | S n' => String "0" (zeros n')
  end.

(** A paired-end log whose count of unpaired reads is [10 ^ 309]. *)
Definition log_hisat2_huge : logfile :=
  Samples.mk_log "H9.log" "H9"
    ("Total pairs: 1" ++ Samples.nl
     ++ "Total unpaired reads: 1" ++ zeros 309 ++ Samples.nl
     ++ "Overall alignment rate: 1%" ++ Samples.nl).

(* ================================================================= *)
(** * Lemmas on dictionaries *)

Module DictFacts.
Import Dict.

Section Facts.
Variable V : Type.
  Implicit Types (d : dict V) (k : string) (v : V) (ws : list (string * V)).

Lemma get_set_same k v d : get k (set k v d) = Some v.
Proof.
  induction d as [|[k' v'] d IH]; simpl.
  - now rewrite String.eqb_refl.
  - destruct (String.eqb k' k) eqn:E; simpl; rewrite ?E, ?String.eqb_refl;
      auto.
Qed.

Lemma get_set_other k k' v d : k <> k' -> get k' (set k v d) = get k' d.
Proof.
  intros Hne. induction d as [|[k0 v0] d IH]; simpl.
  - destruct (String.eqb k k') eqn:E; auto.
    apply String.eqb_eq in E. contradiction.
  - destruct (String.eqb k0 k) eqn:E; simpl.
    + apply String.eqb_eq in E. subst k0.
      destruct (String.eqb k k') eqn:E'; auto.
      apply String.eqb_eq in E'. contradiction.
    + now rewrite IH.
Qed.

Lemma get_set k k' v d :
  get k' (set k v d) = if String.eqb k k' then Some v else get k' d.
Proof.
  destruct (String.eqb k k') eqn:E.
  - apply String.eqb_eq in E. subst. apply get_set_same.
  - apply String.eqb_neq in E. now apply get_set_other.
Qed.

Lemma mem_set k k' v d :
  mem k' (set k v d) = String.eqb k k' || mem k' d.
Proof.
  unfold mem. rewrite get_set. now destruct (String.eqb k k').
Qed.

Lemma mem_in_keys k d : mem k d = true <-> In k (keys d).
Proof.
  unfold mem. induction d as [|[k' v'] d IH]; simpl.
  - split; [discriminate | tauto].
  - destruct (String.eqb k' k) eqn:E.
    + apply String.eqb_eq in E. subst. tauto.
    + apply String.eqb_neq in E. rewrite IH. tauto.
Qed.

Lemma keys_set_present k v d : In k (keys d) -> keys (set k v d) = keys d.
Proof.
  induction d as [|[k' v'] d IH]; simpl; [tauto|].
  intros H. destruct (String.eqb k' k) eqn:E; simpl.
  - apply String.eqb_eq in E. now subst.
  - f_equal. apply IH. destruct H as [H|H]; auto.
    subst. now rewrite String.eqb_refl in E.
Qed.

Lemma keys_set_absent k v d :
  ~ In k (keys d) -> keys (set k v d) = keys d ++ [k].
Proof.
  induction d as [|[k' v'] d IH]; simpl; [reflexivity|].
  intros H. destruct (String.eqb k' k) eqn:E; simpl.
  - apply String.eqb_eq in E. tauto.
  - f_equal. apply IH. tauto.
Qed.

(** Assignment keeps the keys of a dictionary distinct. *)
Lemma wf_set k v d : wf d -> wf (set k v d).
Proof.
  unfold wf. intros H.
  destruct (in_dec string_dec k (keys d)) as [Hin|Hnin].
  - now rewrite keys_set_present.
  - rewrite keys_set_absent by assumption.
    apply NoDup_app; auto.
    + constructor; [simpl; tauto | constructor].
    + intros x Hx [Hk|[]]. now subst.
Qed.

(** ** A run of assignments *)

Lemma set_all_app ws1 ws2 d :
  set_all (ws1 ++ ws2) d = set_all ws2 (set_all ws1 d).
Proof. apply fold_left_app. Qed.

Lemma get_set_all k ws d :
  get k (set_all ws d) =
  match last_write k ws with
  | Some v => Some v
  | None => get k d
  end.
Proof.
  revert d. induction ws as [|[k' v] ws IH]; intros d; simpl; auto.
  rewrite IH. destruct (last_write k ws); auto.
  rewrite get_set. now destruct (String.eqb k' k).
Qed.

Lemma last_write_none k ws : last_write k ws = None <-> ~ In k (map fst ws).
Proof.
  induction ws as [|[k' v] ws IH]; simpl; [tauto|].
  destruct (last_write k ws).
  - split; [discriminate|]. intros H. exfalso.
    assert (Hn : ~ In k (map fst ws)) by tauto.
    apply IH in Hn. discriminate.
  - destruct (String.eqb k' k) eqn:E.
    + apply String.eqb_eq in E. split; [discriminate | tauto].
    + apply String.eqb_neq in E. split; auto. intros _ [H|H]; [auto|].
      now apply IH in H.
Qed.

Lemma last_write_app k ws1 ws2 :
  last_write k (ws1 ++ ws2) =
  match last_write k ws2 with
  | Some v => Some v
  | None => last_write k ws1
  end.
Proof.
  induction ws1 as [|[k' v] ws1 IH]; simpl.
  - now destruct (last_write k ws2).
  - rewrite IH. now destruct (last_write k ws2).
Qed.

Lemma mem_set_all k ws d :
  mem k (set_all ws d) = true <-> mem k d = true \/ In k (map fst ws).
Proof.
  unfold mem. rewrite get_set_all.
  destruct (last_write k ws) eqn:E.
  - split; auto. intros _. right.
    destruct (in_dec string_dec k (map fst ws)) as [H|H]; auto.
    apply last_write_none in H. congruence.
  - apply last_write_none in E. tauto.
Qed.

Lemma wf_set_all ws d : wf d -> wf (set_all ws d).
Proof.
  revert d. induction ws as [|[k v] ws IH]; intros d H; simpl; auto.
  apply IH. now apply wf_set.
Qed.
End Facts.

End DictFacts.

(* ================================================================= *)
(** * The scanning loop as a run of assignments *)

Module ScanFacts.
Import Dict DictFacts.

Section Writes.
(** [store] is the body of the loop; [writes k m] are the assignments it
    makes for key [k] and match [m], and [wkeys k] the keys it assigns. *)
Variable store : string -> rmatch -> record -> result record.
Variable writes : string -> rmatch -> result writes_t.
Variable wkeys : string -> list string.

Hypothesis store_writes : forall k m p,
  store k m p = bind (writes k m) (fun ws => Ok (set_all ws p)).
Hypothesis writes_keys : forall k m ws,
  writes k m = Ok ws -> map fst ws = wkeys k.

Lemma scan_regexes_writes regexes l p :
  scan_regexes store regexes l p =
  bind (line_writes writes regexes l) (fun ws => Ok (set_all ws p)).
Proof.
  revert p. induction regexes as [|[k r] rest IH]; intros p; simpl; auto.
  destruct (search r l) as [m|]; auto.
  rewrite store_writes. destruct (writes k m) as [ws|e]; simpl; auto.
  rewrite IH. destruct (line_writes writes rest l) as [ws'|e]; simpl; auto.
  now rewrite set_all_app.
Qed.

Lemma scan_lines_writes regexes lines p :
  scan_lines store regexes lines p =
  bind (all_writes writes regexes lines) (fun ws => Ok (set_all ws p)).
Proof.
  revert p. induction lines as [|l lines IH]; intros p; simpl; auto.
  rewrite scan_regexes_writes.
  destruct (line_writes writes regexes l) as [ws|e]; simpl; auto.
  rewrite IH. destruct (all_writes writes regexes lines) as [ws'|e]; simpl; auto.
  now rewrite set_all_app.
Qed.

Lemma all_writes_app regexes l1 l2 :
  all_writes writes regexes (l1 ++ l2) =
  bind (all_writes writes regexes l1) (fun ws1 =>
  bind (all_writes writes regexes l2) (fun ws2 => Ok (ws1 ++ ws2))).
Proof.
  induction l1 as [|l l1 IH]; simpl.
  - destruct (all_writes writes regexes l2); reflexivity.
  - destruct (line_writes writes regexes l) as [ws|e]; simpl; auto.
    rewrite IH. destruct (all_writes writes regexes l1) as [ws1|e]; simpl; auto.
    destruct (all_writes writes regexes l2) as [ws2|e]; simpl; auto.
    now rewrite app_assoc.
Qed.

(** The keys a line assigns are those of the patterns that match it. *)
Lemma line_writes_keys regexes l ws k' :
  line_writes writes regexes l = Ok ws ->
  (In k' (map fst ws) <->
   exists k r, In (k, r) regexes /\ matches r l = true /\ In k' (wkeys k)).
Proof.
  revert ws. induction regexes as [|[k r] rest IH]; intros ws; simpl.
  - intros [= <-]. simpl. split; [tauto | intros (? & ? & [] & _)].
  - unfold matches in *. destruct (search r l) as [m|] eqn:Es.
    + destruct (writes k m) as [ws1|e] eqn:Ew; simpl; [|discriminate].
      destruct (line_writes writes rest l) as [ws2|e] eqn:El; simpl; [|discriminate].
      intros [= <-]. rewrite map_app, in_app_iff, (IH ws2 eq_refl).
      rewrite (writes_keys Ew). split.
      * intros [H|(k0 & r0 & Hin & Hm & Hk)].
        -- exists k, r. rewrite Es. auto.
        -- exists k0, r0. auto.
      * intros (k0 & r0 & [[= <- <-]|Hin] & Hm & Hk); auto.
        right. exists k0, r0. auto.
    + intros H. rewrite (IH ws H). split.
      * intros (k0 & r0 & Hin & Hm & Hk). exists k0, r0. auto.
      * intros (k0 & r0 & [[= <- <-]|Hin] & Hm & Hk).
        -- rewrite Es in Hm. discriminate.
        -- exists k0, r0. auto.
Qed.

Lemma all_writes_keys regexes lines ws k' :
  all_writes writes regexes lines = Ok ws ->
  (In k' (map fst ws) <->
   exists l k r, In l lines /\ In (k, r) regexes /\ matches r l = true
                 /\ In k' (wkeys k)).
Proof.
  revert ws. induction lines as [|l lines IH]; intros ws; simpl.
  - intros [= <-]. simpl. split; [tauto | intros (? & ? & ? & [] & _)].
  - destruct (line_writes writes regexes l) as [ws1|e] eqn:E1; simpl; [|discriminate].
    destruct (all_writes writes regexes lines) as [ws2|e] eqn:E2; simpl;
      [|discriminate].
    intros [= <-]. rewrite map_app, in_app_iff, (IH ws2 eq_refl).
    rewrite (line_writes_keys _ _ k' E1). split.
    + intros [(k & r & H)|(l0 & k & r & Hl & H)].
      * exists l, k, r. tauto.
      * exists l0, k, r. tauto.
    + intros (l0 & k & r & [<-|Hl] & H).
      * left. exists k, r. tauto.
      * right. exists l0, k, r. tauto.
Qed.

(** When [k'] is assigned by one entry of the table only, a line that this
    entry matches gives [k'] the value that entry's assignments give it. *)
Lemma line_writes_last regexes l ws k r m kvs k' :
  (forall k2 r2, In (k2, r2) regexes -> In k' (wkeys k2) ->
                 (k2, r2) = (k, r)) ->
  line_writes writes regexes l = Ok ws ->
  In (k, r) regexes -> search r l = Some m -> writes k m = Ok kvs ->
  In k' (wkeys k) ->
  last_write k' ws = last_write k' kvs.
Proof.
  intros Huniq. revert ws.
  induction regexes as [|[k0 r0] rest IH]; intros ws Hw Hin Hs Hk Hk';
    [destruct Hin|].
  assert (Huniq' : forall k2 r2, In (k2, r2) rest -> In k' (wkeys k2) ->
                                 (k2, r2) = (k, r)).
  { intros; apply Huniq; simpl; auto. }
  assert (Hsome : last_write k' kvs <> None).
  { rewrite last_write_none, (writes_keys Hk). tauto. }
  simpl in Hw. destruct (search r0 l) as [m0|] eqn:Es0.
  - destruct (writes k0 m0) as [ws1|e] eqn:Ew; simpl in Hw; [|discriminate].
    destruct (line_writes writes rest l) as [ws2|e] eqn:El; simpl in Hw;
      [|discriminate].
    injection Hw as <-. rewrite last_write_app.
    destruct (last_write k' ws2) as [v|] eqn:E2.
    + assert (Hin2 : In k' (map fst ws2)).
      { destruct (in_dec string_dec k' (map fst ws2)) as [H|H]; auto.
        apply last_write_none in H. congruence. }
      apply (line_writes_keys _ _ k' El) in Hin2.
      destruct Hin2 as (k2 & r2 & Hin2 & _ & Hk2).
      pose proof (Huniq' _ _ Hin2 Hk2) as Heq. injection Heq as -> ->.
      rewrite <- E2. apply IH; auto.
    + destruct Hin as [[= -> ->]|Hin].
      * congruence.
      * exfalso. apply Hsome. rewrite <- (IH Huniq' ws2); auto.
  - destruct Hin as [[= -> ->]|Hin]; [congruence|].
    apply IH; auto.
Qed.

(** Last match wins: the value of [k'] after the scan is the one assigned
    at the last line that the entry assigning [k'] matches. *)
Lemma all_writes_last regexes pre l post ws k r m k' :
  (forall k2 r2, In (k2, r2) regexes -> In k' (wkeys k2) ->
                 (k2, r2) = (k, r)) ->
  all_writes writes regexes (pre ++ l :: post) = Ok ws ->
  In (k, r) regexes -> search r l = Some m -> In k' (wkeys k) ->
  (forall l', In l' post -> matches r l' = false) ->
  exists kvs, writes k m = Ok kvs /\ last_write k' ws = last_write k' kvs.
Proof.
  intros Huniq Hw Hin Hs Hk' Hpost.
  rewrite all_writes_app in Hw. simpl in Hw.
  destruct (all_writes writes regexes pre) as [ws1|e]; simpl in Hw; [|discriminate].
  destruct (line_writes writes regexes l) as [ws2|e] eqn:E2; simpl in Hw;
    [|discriminate].
  destruct (all_writes writes regexes post) as [ws3|e] eqn:E3; simpl in Hw;
    [|discriminate].
  injection Hw as <-.
  assert (Hk : exists kvs, writes k m = Ok kvs).
  { clear - E2 Hin Hs. revert ws2 E2.
    induction regexes as [|[k0 r0] rest IH]; intros ws2 E2; [destruct Hin|].
    simpl in E2. destruct Hin as [[= -> ->]|Hin].
    - rewrite Hs in E2. destruct (writes k m); [eauto|discriminate].
    - destruct (search r0 l).
      + destruct (writes k0 r1); simpl in E2; [|discriminate].
        destruct (line_writes writes rest l); simpl in E2; [eauto|discriminate].
      + eauto. }
  destruct Hk as [kvs Hk]. exists kvs. split; auto.
  rewrite !last_write_app.
  assert (H3 : last_write k' ws3 = None).
  { apply last_write_none. rewrite (all_writes_keys _ _ k' E3).
    intros (l' & k2 & r2 & Hl' & Hin2 & Hm & Hk2).
    pose proof (Huniq _ _ Hin2 Hk2) as Heq. injection Heq as -> ->.
    rewrite (Hpost _ Hl') in Hm. discriminate. }
  rewrite H3.
  assert (Hsome : last_write k' kvs <> None).
  { rewrite last_write_none, (writes_keys Hk). tauto. }
  rewrite (@line_writes_last regexes l ws2 k r m kvs k' Huniq E2 Hin Hs Hk Hk').
  destruct (last_write k' kvs); congruence.
Qed.
End Writes.

End ScanFacts.

Module ScanTables.
Import Dict DictFacts ScanFacts.

(** ** The two loop bodies of the trimmer *)

Lemma store_se_writes k m p :
  store_se k m p = bind (writes_se k m) (fun ws => Ok (set_all ws p)).
Proof. unfold store_se, writes_se. now destruct (float_group 1 m). Qed.

Lemma store_pe_writes k m p :
  store_pe k m p = bind (writes_pe k m) (fun ws => Ok (set_all ws p)).
Proof.
  unfold store_pe, writes_pe. destruct (float_group 1 m); simpl; auto.
  now destruct (float_group 2 m).
Qed.

Lemma writes_se_keys k m ws : writes_se k m = Ok ws -> map fst ws = keys_se k.
Proof.
  unfold writes_se. destruct (float_group 1 m); simpl; [|discriminate].
  now intros [= <-].
Qed.

Lemma writes_pe_keys k m ws : writes_pe k m = Ok ws -> map fst ws = keys_pe k.
Proof.
  unfold writes_pe. destruct (float_group 1 m); simpl; [|discriminate].
  destruct (float_group 2 m); simpl; [|discriminate].
  now intros [= <-].
Qed.

End ScanTables.

(* ================================================================= *)
(** * What a parse step does to the module object *)

Module ParseFacts.
Import Dict DictFacts ScanFacts ScanTables.

Lemma after_store_nil f self : after_store f [] self = self.
Proof. destruct self. unfold after_store. simpl. now rewrite app_nil_r. Qed.

Lemma after_store_app f ws1 ws2 self :
  after_store f (ws1 ++ ws2) self = after_store f ws2 (after_store f ws1 self).
Proof.
  unfold after_store. simpl. now rewrite set_all_app, map_app, app_assoc.
Qed.

Lemma save_after_store f s p self :
  save f s p self = after_store f [(s, p)] self.
Proof. reflexivity. Qed.

Lemma save_if_any_after_store f s p self :
  save_if_any f s p self = after_store f (stored_if_any s p) self.
Proof.
  unfold save_if_any, stored_if_any. destruct (0 <? len p)%nat.
  - apply save_after_store.
  - now rewrite after_store_nil.
Qed.

Lemma contributions_app h1 h2 :
  contributions (h1 ++ h2) = contributions h1 ++ contributions h2.
Proof. apply filter_app. Qed.

Lemma contributions_sources f (ws : stores_t) :
  contributions (map (fun kv => AddDataSource f (fst kv)) ws) = [].
Proof. induction ws; simpl; auto. Qed.

(** ** The trimmer's loop changes [pe_bool] only *)

Lemma jax_line_frame l p b :
  exists b' r, forall self, pe_bool self = b ->
    jax_line l p self = (set_pe_bool b' self, r).
Proof.
  unfold jax_line. destruct (str_in "Read" l).
  - destruct (str_in "Read 2" l).
    + exists true, (Ok p). reflexivity.
    + exists b, (Ok p). intros [d b0 h] <-. reflexivity.
  - destruct b.
    + exists true, (scan_regexes store_pe jax_regexes l p).
      intros [d b0 h]. simpl. now intros ->.
    + exists false, (scan_regexes store_se jax_regexes_se l p).
      intros [d b0 h]. simpl. now intros ->.
Qed.

Lemma jax_lines_frame lines : forall p b,
  exists b' r, forall self, pe_bool self = b ->
    jax_lines lines p self = (set_pe_bool b' self, r).
Proof.
  induction lines as [|l lines IH]; intros p b; simpl.
  - exists b, (Ok p). intros [d b0 h] <-. reflexivity.
  - destruct (jax_line_frame l p b) as (b1 & r1 & H1).
    destruct r1 as [p1|e].
    + destruct (IH p1 b1) as (b2 & r2 & H2).
      exists b2, r2. intros self Hb. rewrite (H1 self Hb).
      rewrite (H2 (set_pe_bool b1 self) eq_refl). reflexivity.
    + exists b1, (Raise e). intros self Hb. now rewrite (H1 self Hb).
Qed.

Section Host.
Variable sample_ignored : string -> bool.
Variable clean_s_name : option string -> logfile -> string.

(** ** A HISAT2 line saves at most one record, whatever the mapping holds *)

Lemma hisat2_line_frame f line st :
  exists ws r, forall self,
    hisat2_line clean_s_name f line st self = (after_store f ws self, r).
Proof.
  destruct st as [s0 p0]. unfold hisat2_line.
  destruct (scan_regexes store_int hisat2_regexes line p0) as [p1|e].
  - destruct (search hisat2_overall line) as [m|].
    + destruct (float_group 1 m) as [v|e].
      * eexists [_], _. intros self. rewrite save_after_store. reflexivity.
      * exists [], (Raise e). intros. now rewrite after_store_nil.
    + eexists [], _. intros. now rewrite after_store_nil.
  - exists [], (Raise e). intros. now rewrite after_store_nil.
Qed.

Lemma hisat2_lines_frame f lines : forall st,
  exists ws r, forall self,
    hisat2_lines clean_s_name f lines st self = (after_store f ws self, r).
Proof.
  induction lines as [|l lines IH]; intros st; simpl.
  - exists [], (Ok st). intros. now rewrite after_store_nil.
  - destruct (hisat2_line_frame f l st) as (ws1 & r1 & H1).
    destruct r1 as [st1|e].
    + destruct (IH st1) as (ws2 & r2 & H2).
      exists (ws1 ++ ws2), r2. intros self.
      now rewrite H1, H2, after_store_app.
    + exists ws1, (Raise e). intros self. now rewrite H1.
Qed.

(** Every parse function saves a list of records that depends on the file
    alone, and ends the same way whatever the mapping already holds. *)
Lemma parse_logs_frame t f :
  exists ws r upd, forall self,
    parse_logs clean_s_name t f self =
    (set_pe_bool (upd (pe_bool self)) (after_store f ws self), r).
Proof.
  destruct t; simpl.
  - unfold parse_primerclip_logs.
    destruct (scan_lines _ _ _ _) as [p|e].
    + eexists _, _, (fun b => b). intros.
      rewrite save_if_any_after_store. reflexivity.
    + exists [], (Raise e), (fun b => b). intros.
      now rewrite after_store_nil; destruct self.
  - unfold parse_coverage_metrics_logs.
    destruct (scan_lines _ _ _ _) as [p|e].
    + eexists _, _, (fun b => b). intros.
      rewrite save_if_any_after_store. reflexivity.
    + exists [], (Raise e), (fun b => b). intros.
      now rewrite after_store_nil; destruct self.
  - unfold parse_jax_trimmer_logs.
    destruct (jax_lines_frame (splitlines (contents f)) empty false)
      as (b' & r & H).
    destruct r as [p|e].
    + exists (stored_if_any (rsplit1_head "_" (s_name f)) p), (Ok tt),
        (fun _ => b').
      intros self. rewrite (H (set_pe_bool false self) eq_refl).
      rewrite save_if_any_after_store. reflexivity.
    + exists [], (Raise e), (fun _ => b'). intros self.
      rewrite (H (set_pe_bool false self) eq_refl).
      rewrite after_store_nil. reflexivity.
  - unfold parse_hisat2_logs.
    destruct (hisat2_lines_frame f (readlines (contents f)) (s_name f, empty))
      as (ws & r & H).
    exists ws, (match r with Ok _ => Ok tt | Raise e => Raise e end),
      (fun b => b).
    intros self. rewrite H. now destruct r.
Qed.

Lemma parse_logs_contributions t f self :
  contributions (host (fst (parse_logs clean_s_name t f self))) =
  contributions (host self).
Proof.
  destruct (parse_logs_frame t f) as (ws & r & upd & H). rewrite H. simpl.
  now rewrite contributions_app, contributions_sources, app_nil_r.
Qed.

Lemma for_each_parse_contributions t files : forall self,
  contributions (host (fst (for_each (parse_logs clean_s_name t) files self)))
  = contributions (host self).
Proof.
  induction files as [|f files IH]; intros self; simpl; auto.
  pose proof (parse_logs_contributions t f self) as H.
  destruct (parse_logs clean_s_name t f self) as [self' [[]|e]]; simpl in *.
  - now rewrite IH.
  - assumption.
Qed.

(** The parse pass makes no report contribution. *)
Lemma parse_pass_contributions t files :
  contributions (host (fst (parse_pass clean_s_name t files))) = [].
Proof. unfold parse_pass. now rewrite for_each_parse_contributions. Qed.

Lemma ignore_samples_all (d : samples) :
  (forall s, In s (keys d) -> sample_ignored s = true) ->
  ignore_samples sample_ignored d = [].
Proof.
  induction d as [|[s r] d IH]; simpl; auto.
  intros H. rewrite (H s) by auto. simpl. apply IH. auto.
Qed.

(** The stages of [__init__]: the parse pass, the ignore filter, the
    no-samples test, the data file and the rendering stage. *)
Lemma init_stages t files :
  module_init sample_ignored clean_s_name t files =
  match parse_pass clean_s_name t files with
  | (self, Raise e) => (self, Raise e)
  | (self, Ok _) =>
      let self := set_data (ignore_samples sample_ignored (data self)) self in
      if (len (data self) =? 0)%nat then (self, Raise (no_samples_signal t))
      else render t (call (WriteDataFile (data (before_write t self))
                             (data_file_name t))
                       (before_write t self))
  end.
Proof. destruct t; reflexivity. Qed.

(** With nothing left after the ignore filter, [__init__] raises the
    no-samples signal right after the filter. *)
Lemma init_no_samples t files self :
  parse_pass clean_s_name t files = (self, Ok tt) ->
  ignore_samples sample_ignored (data self) = [] ->
  module_init sample_ignored clean_s_name t files =
  (set_data [] self, Raise (no_samples_signal t)).
Proof.
  intros Hp Hi. rewrite init_stages, Hp. cbn zeta. cbn [data set_data].
  rewrite Hi. reflexivity.
Qed.

End Host.
End ParseFacts.


(* ================================================================= *)
(** * Lemmas on the four modules *)

Import Dict DictFacts ScanFacts ScanTables ParseFacts.

(** ** Unique sample names *)

Lemma wf_after_parse cln t f self :
  wf (data self) -> wf (data (fst (parse_logs cln t f self))).
Proof.
  intros H. destruct (parse_logs_frame cln t f) as (ws & r & upd & Hf).
  rewrite Hf. simpl. now apply wf_set_all.
Qed.

Lemma wf_after_for_each cln t files : forall self,
  wf (data self) ->
  wf (data (fst (for_each (parse_logs cln t) files self))).
Proof.
  induction files as [|f files IH]; intros self H; simpl; auto.
  pose proof (@wf_after_parse cln t f self H) as H'.
  destruct (parse_logs cln t f self) as [self' [[]|e]]; simpl in *; auto.
Qed.

(** ** The rendering stage *)

Lemma set_in_place (V : Type) (s : string) (v d : V) done rest :
  ~ In s (keys done) ->
  set s v (done ++ (s, d) :: rest) = done ++ (s, v) :: rest.
Proof.
  induction done as [|[k0 v0] done IH]; simpl; intros H.
  - now rewrite String.eqb_refl.
  - destruct (String.eqb k0 s) eqn:E.
    + apply String.eqb_eq in E. tauto.
    + f_equal. apply IH. tauto.
Qed.


Local Opaque m_keys.

Lemma split_se_pe_data items : forall done sedata pedata self self' out,
  data self = done ++ items ->
  wf (done ++ items) ->
  split_se_pe items sedata pedata self = (self', Ok out) ->
  data self' = done ++ map (fun kv => (fst kv, plotted (snd kv))) items
  /\ host self' = host self
  /\ (forall s d, In (s, d) items -> mem "paired_total" d = true ->
        snd (halve_mates m_keys d) = Ok tt).
Proof.
  induction items as [|[s d] items IH];
    intros done sedata pedata self self' out Hd Hwf H; simpl in H.
  - injection H as <- _. simpl. rewrite Hd. repeat split; auto.
    intros ? ? [].
  - assert (Hnin : ~ In s (keys done)).
    { unfold wf, keys in Hwf. rewrite map_app in Hwf.
      apply NoDup_remove_2 in Hwf. rewrite in_app_iff in Hwf.
      unfold keys. tauto. }
    unfold plotted at 1. simpl. destruct (mem "paired_total" d) eqn:Em.
    + destruct (halve_mates m_keys d) as [d' [[]|e]] eqn:Eh; [|discriminate].
      apply (IH (done ++ [(s, d')])) in H.
      * destruct H as (H1 & H2 & H3).
        rewrite H1, H2, <- app_assoc. simpl. repeat split; auto.
        intros s0 d0 [[= <- <-]|Hin] Hm; [now rewrite Eh | eauto].
      * simpl. rewrite Hd, set_in_place by assumption.
        now rewrite <- app_assoc.
      * unfold wf, keys in *. rewrite <- app_assoc. simpl.
        rewrite map_app in *. exact Hwf.
    + apply (IH (done ++ [(s, d)])) in H.
      * destruct H as (H1 & H2 & H3).
        rewrite H1, H2, <- app_assoc. simpl. repeat split; auto.
        intros s0 d0 [[= <- <-]|Hin] Hm; [congruence | eauto].
      * rewrite Hd, <- app_assoc. reflexivity.
      * now rewrite <- app_assoc.
Qed.

Lemma get_in (V : Type) (s : string) (v : V) (d : dict V) :
  get s d = Some v -> In (s, v) d.
Proof.
  induction d as [|[k0 v0] d IH]; simpl; [discriminate|].
  destruct (String.eqb k0 s) eqn:E.
  - apply String.eqb_eq in E. intros [= <-]. subst. auto.
  - auto.
Qed.



Lemma float_3_5_exact :
  py_float "3.5" = Ok float_3_5 /\ (2 * 7881299347898368 = 7 * 2 ^ 51)%Z.
Proof. split; vm_compute; reflexivity. Qed.

Local Transparent m_keys.

(** ** HISAT2 lines *)

Lemma scan_regexes_no_match store regexes l p :
  forallb (fun kr => negb (matches (snd kr) l)) regexes = true ->
  scan_regexes store regexes l p = Ok p.
Proof.
  induction regexes as [|[k r] rest IH]; simpl; auto.
  unfold matches at 1. destruct (search r l); simpl; [discriminate|auto].
Qed.

Lemma hisat2_line_no_rate cln f line st self :
  matches hisat2_overall line = false ->
  fst (hisat2_line cln f line st self) = self.
Proof.
  unfold matches, hisat2_line. destruct st as [s0 p0].
  destruct (scan_regexes _ _ _ _); [|reflexivity].
  destruct (search hisat2_overall line); [discriminate|reflexivity].
Qed.

Lemma hisat2_lines_no_rate cln f lines : forall st self,
  (forall l, In l lines -> matches hisat2_overall l = false) ->
  fst (hisat2_lines cln f lines st self) = self.
Proof.
  induction lines as [|l lines IH]; intros st self H; simpl; auto.
  pose proof (@hisat2_line_no_rate cln f l st self (H l (or_introl eq_refl)))
    as Hl.
  destruct (hisat2_line cln f l st self) as [self1 [st1|e]]; simpl in Hl;
    subst self1; simpl; auto.
  apply IH. intros; apply H; simpl; auto.
Qed.

Lemma hisat2_lines_app cln f l1 : forall l2 st self,
  hisat2_lines cln f (l1 ++ l2) st self =
  match hisat2_lines cln f l1 st self with
  | (self', Ok st') => hisat2_lines cln f l2 st' self'
  | (self', Raise e) => (self', Raise e)
  end.
Proof.
  induction l1 as [|l l1 IH]; intros l2 st self; simpl; auto.
  destruct (hisat2_line cln f l st self) as [self1 [st1|e]]; auto.
Qed.

(** A completed run over the lines of a log saves one record per line that
    holds an overall alignment rate. *)
Lemma hisat2_lines_count cln f lines : forall st self self' st',
  hisat2_lines cln f lines st self = (self', Ok st') ->
  List.length (host self') =
  (List.length (host self)
   + List.length (filter (matches hisat2_overall) lines))%nat.
Proof.
  induction lines as [|l lines IH]; intros st self self' st' H; simpl in H.
  - injection H as <- _. simpl. lia.
  - destruct (hisat2_line cln f l st self) as [self1 [st1|e]] eqn:El;
      [|discriminate].
    apply IH in H. rewrite H. clear H IH. simpl.
    unfold hisat2_line in El. destruct st as [s0 p0]. unfold matches.
    destruct (scan_regexes _ _ _ _); [|discriminate].
    destruct (search hisat2_overall l) as [m|].
    + destruct (float_group 1 m); [|discriminate].
      injection El as <- _. simpl. rewrite length_app. simpl. lia.
    + injection El as <- _. simpl. lia.
Qed.

Lemma float_97_5_exact :
  py_float "97.5" = Ok float_97_5 /\ (2 * 6860952557322240 = 195 * 2 ^ 46)%Z.
Proof. split; vm_compute; reflexivity. Qed.

(** ** Single-record parsers: the value a key ends with *)

Lemma table_functional (regexes : regex_table) k r r2 :
  NoDup (map fst regexes) -> In (k, r) regexes -> In (k, r2) regexes -> r2 = r.
Proof.
  induction regexes as [|[k0 r0] rest IH]; simpl; [tauto|].
  intros Hnd H1 H2. inversion Hnd as [|? ? Hnin Hnd']; subst.
  assert (Hk : forall r', In (k, r') rest -> In k (map fst rest)).
  { intros r' H. apply in_map_iff. exists (k, r'). auto. }
  destruct H1 as [E1|H1], H2 as [E2|H2]; auto.
  - congruence.
  - injection E1 as -> ->. exfalso. eauto.
  - injection E2 as -> ->. exfalso. eauto.
Qed.

Lemma get_some_len_pos (V : Type) k (v : V) (d : dict V) :
  get k d = Some v -> (0 <? len d)%nat = true.
Proof. destruct d; simpl; [discriminate|reflexivity]. Qed.

Section Conv.
(** A loop body of the form [parsed_data[k] = conv(match)]. *)
Variable conv : rmatch -> result pyval.
Variable store : string -> rmatch -> record -> result record.
Hypothesis store_conv : forall k m p,
  store k m p = bind (conv m) (fun v => Ok (set k v p)).

Lemma store_writes_conv k m p :
  store k m p = bind (writes_conv conv k m) (fun ws => Ok (set_all ws p)).
Proof. rewrite store_conv. unfold writes_conv. now destruct (conv m). Qed.

Lemma writes_conv_keys k m ws :
  writes_conv conv k m = Ok ws -> map fst ws = keys_same k.
Proof.
  unfold writes_conv. destruct (conv m); simpl; [|discriminate].
  now intros [= <-].
Qed.

(** The keys a completed scan adds are those of the patterns that match
    some line. *)
Lemma scan_conv_keys regexes lines p parsed k :
  scan_lines store regexes lines p = Ok parsed ->
  (mem k parsed = true <->
   mem k p = true
   \/ exists l r, In l lines /\ In (k, r) regexes /\ matches r l = true).
Proof.
  rewrite (@scan_lines_writes store (writes_conv conv) store_writes_conv).
  destruct (all_writes (writes_conv conv) regexes lines) as [ws|e] eqn:E;
    [|discriminate].
  simpl. intros [= <-]. rewrite mem_set_all.
  rewrite (@all_writes_keys (writes_conv conv) keys_same writes_conv_keys
             regexes lines ws k E). unfold keys_same.
  split; (intros [H|H]; [left; exact H | right]).
  - destruct H as (l & k0 & r & Hl & Hin & Hm & [->|[]]). eauto.
  - destruct H as (l & r & Hl & Hin & Hm). exists l, k, r. simpl. auto.
Qed.

(** Last match wins: a key ends with the conversion of the capture on the
    last line its pattern matches. *)
Lemma scan_conv_last regexes pre l post p parsed k r m :
  NoDup (map fst regexes) ->
  In (k, r) regexes ->
  search r l = Some m ->
  (forall l', In l' post -> matches r l' = false) ->
  scan_lines store regexes (pre ++ l :: post) p = Ok parsed ->
  exists v, conv m = Ok v /\ get k parsed = Some v.
Proof.
  intros Hnd Hin Hs Hpost.
  rewrite (@scan_lines_writes store (writes_conv conv) store_writes_conv).
  destruct (all_writes (writes_conv conv) regexes (pre ++ l :: post)) as [ws|e]
    eqn:E; [|discriminate].
  simpl. intros [= <-].
  destruct (@all_writes_last (writes_conv conv) keys_same writes_conv_keys
              regexes pre l post ws k r m k) as (kvs & Hk & Hl); auto.
  - intros k2 r2 Hin2 [->|[]]. f_equal.
    eapply table_functional; eauto.
  - simpl; auto.
  - unfold writes_conv in Hk. destruct (conv m) as [v|e]; [|discriminate].
    injection Hk as <-. exists v. split; auto.
    rewrite get_set_all, Hl. simpl. now rewrite String.eqb_refl.
Qed.
End Conv.

(** Case analysis on an entry [Hin : In (k, r) table] of a concrete table
    with a known key: the entries with another key are discarded. *)
Ltac in_table Hin :=
  simpl in Hin;
  repeat (destruct Hin as [Hin|Hin]; [try discriminate Hin|]);
  try contradiction.

Ltac nodup_keys :=
  simpl; repeat (constructor; [simpl; intuition discriminate|]); constructor.

Lemma NoDup_primerclip : NoDup (map fst primerclip_regexes).
Proof. nodup_keys. Qed.

Lemma NoDup_coverage_metrics : NoDup (map fst coverage_metrics_regexes).
Proof. nodup_keys. Qed.

Lemma NoDup_hisat2 : NoDup (map fst hisat2_regexes).
Proof. nodup_keys. Qed.

Lemma float_1000_exact :
  py_float "1000" = Ok float_1000 /\ (8796093022208000 = 1000 * 2 ^ 43)%Z.
Proof. split; vm_compute; reflexivity. Qed.

(** ** A HISAT2 segment: the lines up to and including a rate line *)

Lemma hisat2_segment cln f body t : forall st self self' st',
  (forall l, In l body -> matches hisat2_overall l = false) ->
  matches hisat2_overall t = true ->
  hisat2_lines cln f (body ++ [t]) st self = (self', Ok st') ->
  exists s p v m,
    search hisat2_overall t = Some m
    /\ float_group 1 m = Ok v
    /\ scan_lines store_int hisat2_regexes (body ++ [t]) (snd st) = Ok p
    /\ self' = save f s (set "overall_alignment_rate" v p) self
    /\ st' = (s_name f, empty).
Proof.
  induction body as [|l body IH]; intros [s0 p0] self self' st' Hb Ht H;
    cbn [app hisat2_lines] in H; cbn [app scan_lines snd].
  - unfold hisat2_line in H.
    destruct (scan_regexes store_int hisat2_regexes t p0) as [p1|e];
      [|discriminate].
    unfold matches in Ht.
    destruct (search hisat2_overall t) as [m|]; [|discriminate].
    destruct (float_group 1 m) as [v|e] eqn:Ev; [|discriminate].
    injection H as <- <-. eexists _, p1, v, m. repeat split. exact Ev.
  - assert (Hl : matches hisat2_overall l = false) by (apply Hb; simpl; auto).
    unfold hisat2_line in H.
    destruct (scan_regexes store_int hisat2_regexes l p0) as [p1|e];
      [|discriminate].
    unfold matches in Hl.
    destruct (search hisat2_overall l); [discriminate|].
    cbn [bind]. apply IH in H; auto. intros; apply Hb; simpl; auto.
Qed.

Lemma hisat2_key_not_rate k r :
  In (k, r) hisat2_regexes -> k <> "overall_alignment_rate".
Proof.
  intros Hin ->. simpl in Hin.
  repeat (destruct Hin as [Hin|Hin]; [discriminate Hin|]). destruct Hin.
Qed.

Lemma float_93_exact :
  py_float "93" = Ok float_93 /\ (6544293208522752 = 93 * 2 ^ 46)%Z.
Proof. split; vm_compute; reflexivity. Qed.

Lemma float_91_5_exact :
  py_float "91.5" = Ok float_91_5 /\ (2 * 6438740092256256 = 183 * 2 ^ 46)%Z.
Proof. split; vm_compute; reflexivity. Qed.

(** ** The trimmer's loop as a run of assignments *)

Lemma set_pe_bool_same self : set_pe_bool (pe_bool self) self = self.
Proof. now destruct self. Qed.

Local Opaque jax_regexes jax_regexes_se.

Lemma jax_lines_writes lines : forall p self self' parsed,
  jax_lines lines p self = (self', Ok parsed) ->
  exists ws,
    jax_writes lines (pe_bool self) = Ok ws
    /\ parsed = set_all ws p
    /\ self' = set_pe_bool (pe_bool self || existsb is_marker lines) self.
Proof.
  induction lines as [|l lines IH]; intros p self self' parsed H;
    cbn [jax_lines jax_writes existsb] in *.
  - injection H as <- <-. exists []. rewrite orb_false_r, set_pe_bool_same.
    auto.
  - unfold jax_line, is_marker in *. destruct (str_in "Read" l).
    + destruct (str_in "Read 2" l); simpl in *.
      * apply IH in H. destruct H as (ws & Hw & -> & ->). simpl in *.
        rewrite orb_true_r. exists ws. auto.
      * apply IH in H. destruct H as (ws & Hw & -> & ->).
        rewrite orb_false_r. exists ws. auto.
    + simpl. destruct (pe_bool self) eqn:Eb.
      * rewrite (@scan_regexes_writes store_pe writes_pe store_pe_writes)
          in H.
        destruct (line_writes writes_pe jax_regexes l) as [ws1|e];
          [|discriminate].
        simpl in H. apply IH in H. destruct H as (ws & Hw & -> & ->).
        rewrite Eb in *. rewrite Hw. simpl. exists (ws1 ++ ws).
        now rewrite set_all_app.
      * rewrite (@scan_regexes_writes store_se writes_se store_se_writes)
          in H.
        destruct (line_writes writes_se jax_regexes_se l) as [ws1|e];
          [|discriminate].
        simpl in H. apply IH in H. destruct H as (ws & Hw & -> & ->).
        rewrite Eb in *. rewrite Hw. simpl. exists (ws1 ++ ws).
        now rewrite set_all_app.
Qed.

Lemma jax_assigns_skip l lines pe k' :
  str_in "Read" l = true ->
  (jax_assigns (l :: lines) pe k'
   <-> jax_assigns lines (pe || is_marker l) k').
Proof.
  intros Hr. unfold jax_assigns. split.
  - intros (pre & l0 & post & k & r & Hl & Hn & Hm & H).
    destruct pre as [|l1 pre]; simpl in Hl; injection Hl as <- ->.
    + congruence.
    + exists pre, l0, post, k, r. simpl in H. rewrite orb_assoc in H. auto.
  - intros (pre & l0 & post & k & r & -> & Hn & Hm & H).
    exists (l :: pre), l0, post, k, r. simpl. rewrite orb_assoc. auto.
Qed.

Lemma jax_assigns_scan l lines pe k' :
  str_in "Read" l = false ->
  (jax_assigns (l :: lines) pe k'
   <-> (exists k r, matches r l = true
                    /\ if pe then In (k, r) jax_regexes /\ In k' (keys_pe k)
                       else In (k, r) jax_regexes_se /\ In k' (keys_se k))
       \/ jax_assigns lines pe k').
Proof.
  intros Hr. unfold jax_assigns.
  assert (Hmk : is_marker l = false) by (unfold is_marker; now rewrite Hr).
  split.
  - intros (pre & l0 & post & k & r & Hl & Hn & Hm & H).
    destruct pre as [|l1 pre]; simpl in Hl; injection Hl as <- ->.
    + left. exists k, r. simpl in H. rewrite orb_false_r in H. auto.
    + right. exists pre, l0, post, k, r. simpl in H. rewrite Hmk in H. auto.
  - intros [(k & r & Hm & H)|(pre & l0 & post & k & r & -> & Hn & Hm & H)].
    + exists [], l, lines, k, r. simpl. rewrite orb_false_r. auto.
    + exists (l :: pre), l0, post, k, r. simpl. rewrite Hmk. auto.
Qed.

Lemma jax_writes_keys lines : forall pe ws k',
  jax_writes lines pe = Ok ws ->
  (In k' (map fst ws) <-> jax_assigns lines pe k').
Proof.
  induction lines as [|l lines IH]; intros pe ws k' H; cbn [jax_writes] in H.
  - injection H as <-. simpl. split; [tauto|].
    intros (pre & l0 & post & k & r & Hl & _). now destruct pre.
  - destruct (str_in "Read" l) eqn:Er.
    + rewrite jax_assigns_skip by assumption. now apply IH.
    + rewrite jax_assigns_scan by assumption. destruct pe.
      * destruct (line_writes writes_pe jax_regexes l) as [ws1|e] eqn:E1;
          [|discriminate].
        simpl in H.
        destruct (jax_writes lines true) as [ws2|e] eqn:E2; [|discriminate].
        injection H as <-. rewrite map_app, in_app_iff.
        rewrite (IH true ws2 k' E2).
        rewrite (@line_writes_keys writes_pe keys_pe writes_pe_keys
                   jax_regexes l ws1 k' E1).
        split; (intros [(k & r & H)|H]; [left; exists k, r; tauto | tauto]).
      * destruct (line_writes writes_se jax_regexes_se l) as [ws1|e] eqn:E1;
          [|discriminate].
        simpl in H.
        destruct (jax_writes lines false) as [ws2|e] eqn:E2; [|discriminate].
        injection H as <-. rewrite map_app, in_app_iff.
        rewrite (IH false ws2 k' E2).
        rewrite (@line_writes_keys writes_se keys_se writes_se_keys
                   jax_regexes_se l ws1 k' E1).
        split; (intros [(k & r & H)|H]; [left; exists k, r; tauto | tauto]).
Qed.

(** What a completed parse of a trimmer log leaves: the mapping scanned,
    saved when it is not empty, and [pe_bool] set when the file has a marker
    line. *)
Lemma parse_jax_trimmer_logs_spec f self self' :
  parse_jax_trimmer_logs f self = (self', Ok tt) ->
  exists parsed,
    self' = save_if_any f (rsplit1_head "_" (s_name f)) parsed
              (set_pe_bool (existsb is_marker (splitlines (contents f))) self)
    /\ forall k', mem k' parsed = true
                  <-> jax_assigns (splitlines (contents f)) false k'.
Proof.
  unfold parse_jax_trimmer_logs. intros H.
  destruct (jax_lines _ _ _) as [self1 [parsed|e]] eqn:E; [|discriminate].
  injection H as <-. apply jax_lines_writes in E.
  destruct E as (ws & Hw & -> & ->). simpl in *.
  exists (set_all ws empty). split; [reflexivity|].
  intros k'. rewrite mem_set_all. rewrite (jax_writes_keys _ _ k' Hw).
  unfold mem. simpl. intuition discriminate.
Qed.

Local Transparent jax_regexes jax_regexes_se.

(** ** Lines that contain [Read] *)

Lemma substring_all s : substring 0 (String.length s) s = s.
Proof. induction s as [|c s IH]; simpl; [reflexivity | now rewrite IH]. Qed.

Lemma prefix_trans a : forall b c,
  prefix a b = true -> prefix b c = true -> prefix a c = true.
Proof.
  induction a as [|x a IH]; intros b c Hab Hbc; [now destruct c|].
  destruct b as [|y b]; [discriminate|].
  destruct c as [|z c]; [discriminate|].
  simpl in *.
  destruct (ascii_dec x y) as [->|]; [|discriminate].
  destruct (ascii_dec y z) as [->|]; [|discriminate].
  eauto.
Qed.

Lemma str_in_here sub l : prefix sub l = true -> str_in sub l = true.
Proof. intros H. destruct l; simpl in *; now rewrite H. Qed.

Lemma str_in_later sub c l : str_in sub l = true -> str_in sub (String c l) = true.
Proof.
  intros H. cbn [str_in]. now destruct (prefix sub (String c l)).
Qed.

Lemma str_in_drop sub l : forall pos,
  prefix sub (drop pos l) = true -> str_in sub l = true.
Proof.
  induction l as [|c l IH]; intros pos H.
  - apply str_in_here. unfold drop in H. now destruct pos.
  - destruct pos as [|pos].
    + apply str_in_here. unfold drop in H.
      now rewrite Nat.sub_0_r, substring_all in H.
    + apply str_in_later. apply (IH pos). exact H.
Qed.

Lemma str_in_prefix a b l :
  prefix a b = true -> str_in b l = true -> str_in a l = true.
Proof.
  intros Hab. induction l as [|c l IH]; cbn [str_in].
  - destruct (prefix b "") eqn:E; [|discriminate].
    intros _. now rewrite (prefix_trans _ _ _ Hab E).
  - destruct (prefix b (String c l)) eqn:E.
    + intros _. now rewrite (prefix_trans _ _ _ Hab E).
    + intros H. apply IH in H. destruct (prefix a (String c l)); auto.
Qed.

(** A pattern that starts with literal text matches only lines that hold
    that text. *)
Lemma search_from_lit line s rest : forall fuel pos m,
  search_from line (RLit s +++ rest) pos fuel = Some m ->
  exists pos', prefix s (drop pos' line) = true.
Proof.
  induction fuel as [|fuel IH]; intros pos m H; simpl in H; [discriminate|].
  destruct (prefix s (drop pos line)) eqn:E; [eauto|].
  eapply IH; eauto.
Qed.

Lemma matches_lit s rest line :
  matches (RLit s +++ rest) line = true -> str_in s line = true.
Proof.
  unfold matches, search.
  destruct (search_from _ _ _ _) as [m|] eqn:E; [|discriminate].
  intros _. apply search_from_lit in E. destruct E as [pos E].
  eapply str_in_drop; eauto.
Qed.

(** Every line the [reads_passing] patterns match contains [Read]. *)
Lemma reads_passing_has_Read r line :
  In ("reads_passing", r) jax_regexes
  \/ In ("reads_passing", r) jax_regexes_se ->
  matches r line = true -> str_in "Read" line = true.
Proof.
  intros [Hin|Hin] Hm; in_table Hin; injection Hin as <-;
    apply matches_lit in Hm;
    exact (str_in_prefix "Read" "Reads passing filter" line eq_refl Hm).
Qed.

(** No log makes the trimmer's loop assign [reads_passing_1] or
    [reads_passing_2]: the lines their patterns match are skipped. *)
Lemma jax_never_assigns_reads_passing lines pe k' :
  k' = "reads_passing_1" \/ k' = "reads_passing_2" ->
  ~ jax_assigns lines pe k'.
Proof.
  intros Hk (pre & l & post & k & r & _ & Hn & Hm & H).
  assert (Hr : In ("reads_passing", r) jax_regexes
               \/ In ("reads_passing", r) jax_regexes_se).
  { destruct (pe || existsb is_marker pre); destruct H as [Hin Hk'];
      simpl in Hin;
      repeat (destruct Hin as [Hin|Hin];
              [injection Hin as <- <-; simpl in Hk';
               destruct Hk as [->| ->];
               try (intuition discriminate);
               simpl; tauto|]);
      destruct Hin. }
  rewrite (@reads_passing_has_Read r l Hr Hm) in Hn. discriminate.
Qed.

Lemma jax_record_lacks_reads_passing f self self' :
  parse_jax_trimmer_logs f self = (self', Ok tt) ->
  exists parsed,
    self' = save_if_any f (rsplit1_head "_" (s_name f)) parsed
              (set_pe_bool (existsb is_marker (splitlines (contents f))) self)
    /\ mem "reads_passing_1" parsed = false
    /\ mem "reads_passing_2" parsed = false.
Proof.
  intros H. apply parse_jax_trimmer_logs_spec in H.
  destruct H as (parsed & Hs & Hk). exists parsed. split; [exact Hs|].
  split.
  - destruct (mem "reads_passing_1" parsed) eqn:E; auto.
    apply Hk in E. now apply jax_never_assigns_reads_passing in E; auto.
  - destruct (mem "reads_passing_2" parsed) eqn:E; auto.
    apply Hk in E. now apply jax_never_assigns_reads_passing in E; auto.
Qed.

Lemma float_150_exact :
  py_float "150" = Ok float_150 /\ (5277655813324800 = 150 * 2 ^ 45)%Z.
Proof. split; vm_compute; reflexivity. Qed.

(** ** Suffixed keys and last match in the trimmer *)

Lemma length_append (a b : string) :
  String.length (a ++ b) = (String.length a + String.length b)%nat.
Proof. induction a as [|c a IH]; simpl; auto. Qed.

Lemma append_same_length (a : string) : forall b s1 s2,
  String.length s1 = String.length s2 ->
  (a ++ s1)%string = (b ++ s2)%string -> a = b /\ s1 = s2.
Proof.
  induction a as [|c a IH]; intros [|d b] s1 s2 Hlen H; simpl in H.
  - auto.
  - exfalso. apply (f_equal String.length) in H. simpl in H.
    rewrite length_append in H. lia.
  - exfalso. apply (f_equal String.length) in H. simpl in H.
    rewrite length_append in H. lia.
  - injection H as -> H. destruct (IH b s1 s2 Hlen H) as [-> ->]. auto.
Qed.

Lemma suffix_inj (k k2 s1 s2 : string) :
  In s1 ["_1"; "_2"] -> In s2 ["_1"; "_2"] ->
  (k2 ++ s2)%string = (k ++ s1)%string -> k2 = k /\ s2 = s1.
Proof.
  intros H1 H2. apply append_same_length.
  simpl in H1, H2. intuition (subst; reflexivity).
Qed.

Lemma NoDup_jax : NoDup (map fst jax_regexes).
Proof. nodup_keys. Qed.

Lemma NoDup_jax_se : NoDup (map fst jax_regexes_se).
Proof. nodup_keys. Qed.

Local Opaque jax_regexes jax_regexes_se.

Lemma jax_mode_keys_inj pe pe2 k k2 k' :
  In k' (jax_mode_keys pe k) -> In k' (jax_mode_keys pe2 k2) -> k2 = k.
Proof.
  destruct pe, pe2; simpl; intros H1 H2;
    repeat (destruct H1 as [H1|H1]; [|try contradiction]);
    repeat (destruct H2 as [H2|H2]; [|try contradiction]);
    subst k'; apply suffix_inj in H2; simpl; tauto.
Qed.

Lemma jax_line_writes_last pe l ws k r m k' :
  jax_line_writes pe l = Ok ws ->
  In (k, r) (jax_table pe) -> search r l = Some m ->
  In k' (jax_mode_keys pe k) ->
  exists kvs, jax_mode_writes pe k m = Ok kvs
              /\ last_write k' ws = last_write k' kvs.
Proof.
  intros Hw Hin Hs Hk.
  assert (Huniq : forall k2 r2, In (k2, r2) (jax_table pe) ->
                    In k' (jax_mode_keys pe k2) -> (k2, r2) = (k, r)).
  { intros k2 r2 Hin2 Hk2.
    pose proof (jax_mode_keys_inj pe pe k k2 k' Hk Hk2) as ->. f_equal.
    destruct pe; simpl in *;
      [eapply (table_functional _ _ _ _ NoDup_jax)
      | eapply (table_functional _ _ _ _ NoDup_jax_se)]; eauto. }
  destruct pe; simpl in *.
  - destruct (@all_writes_last writes_pe keys_pe writes_pe_keys jax_regexes
                [] l [] ws k r m k') as (kvs & Hkvs & Hl); auto.
    + simpl. rewrite Hw. simpl. now rewrite app_nil_r.
    + intros l' [].
    + eauto.
  - destruct (@all_writes_last writes_se keys_se writes_se_keys
                jax_regexes_se [] l [] ws k r m k') as (kvs & Hkvs & Hl);
      auto.
    + simpl. rewrite Hw. simpl. now rewrite app_nil_r.
    + intros l' [].
    + eauto.
Qed.

(** Last match wins in the trimmer as well: a key assigned at a scanned
    line keeps that value when no later scanned line is matched by the
    pattern the metric has in the table in force at that later line. *)
Lemma jax_writes_last_in_force pre : forall pe l post ws k r m k',
  jax_writes (pre ++ l :: post) pe = Ok ws ->
  str_in "Read" l = false ->
  In (k, r) (jax_table (pe || existsb is_marker pre)) ->
  search r l = Some m ->
  In k' (jax_mode_keys (pe || existsb is_marker pre) k) ->
  (forall post1 l' post2 r',
     post = post1 ++ l' :: post2 ->
     str_in "Read" l' = false ->
     In (k, r') (jax_table (pe || existsb is_marker (pre ++ l :: post1))) ->
     matches r' l' = false) ->
  exists kvs,
    jax_mode_writes (pe || existsb is_marker pre) k m = Ok kvs
    /\ last_write k' ws = last_write k' kvs.
Proof.
  induction pre as [|l0 pre IH]; intros pe l post ws k r m k' Hw Hn Hin Hs Hk
    Hpost; cbn [app jax_writes existsb] in *.
  - rewrite orb_false_r in *. rewrite Hn in Hw.
    fold (jax_line_writes pe l) in Hw.
    destruct (jax_line_writes pe l) as [ws1|e] eqn:E1; [|discriminate].
    simpl in Hw.
    destruct (jax_writes post pe) as [ws2|e] eqn:E2; [|discriminate].
    injection Hw as <-.
    destruct (@jax_line_writes_last pe l ws1 k r m k' E1 Hin Hs Hk)
      as (kvs & Hkvs & Hl).
    exists kvs. split; auto. rewrite last_write_app.
    assert (Hmk : is_marker l = false)
      by (unfold is_marker; now rewrite Hn).
    assert (H2 : last_write k' ws2 = None).
    { apply last_write_none. rewrite (@jax_writes_keys post pe ws2 k' E2).
      intros (pre2 & l2 & post2 & k2 & r2 & -> & Hn2 & Hm2 & H2).
      assert (Hk2 : k2 = k /\ In (k2, r2)
                                (jax_table (pe || existsb is_marker pre2))).
      { destruct (pe || existsb is_marker pre2) eqn:Eb;
          destruct H2 as [Hin2 Hk2]; split; auto.
        - apply (@jax_mode_keys_inj pe true k k2 k' Hk Hk2).
        - apply (@jax_mode_keys_inj pe false k k2 k' Hk Hk2). }
      destruct Hk2 as [-> Hin2].
      rewrite (Hpost pre2 l2 post2 r2 eq_refl Hn2) in Hm2; [discriminate|].
      cbn [existsb]. rewrite Hmk. exact Hin2. }
    now rewrite H2.
  - assert (Hpost' : forall pe', pe' = pe || is_marker l0 ->
              forall post1 l' post2 r',
                post = post1 ++ l' :: post2 ->
                str_in "Read" l' = false ->
                In (k, r')
                  (jax_table (pe' || existsb is_marker (pre ++ l :: post1))) ->
                matches r' l' = false).
    { intros pe' -> post1 l' post2 r' Hp Hr Hin'.
      apply (Hpost post1 l' post2 r' Hp Hr).
      now rewrite orb_assoc. }
    destruct (str_in "Read" l0) eqn:E0.
    + rewrite orb_assoc in *. eapply IH; eauto.
    + assert (Hmk : is_marker l0 = false)
        by (unfold is_marker; now rewrite E0).
      rewrite Hmk in *. simpl in Hin, Hk |- *.
      destruct (if pe then line_writes writes_pe jax_regexes l0
                else line_writes writes_se jax_regexes_se l0) as [ws1|e];
        [|discriminate].
      simpl in Hw.
      destruct (jax_writes (pre ++ l :: post) pe) as [ws2|e] eqn:E2;
        [|discriminate].
      injection Hw as <-.
      destruct (IH pe l post ws2 k r m k' E2 Hn Hin Hs Hk
                  (Hpost' pe (eq_sym (orb_false_r pe))))
        as (kvs & Hkvs & Hl).
      exists kvs. split; auto. rewrite last_write_app, Hl.
      destruct (last_write k' kvs) eqn:E; auto.
      exfalso. apply last_write_none in E. apply E.
      destruct (pe || existsb is_marker pre); simpl in *.
      * rewrite (@writes_pe_keys k m kvs Hkvs). exact Hk.
      * rewrite (@writes_se_keys k m kvs Hkvs). exact Hk.
Qed.

Local Transparent jax_regexes jax_regexes_se.

(* ================================================================= *)
(** * Lemmas for the further properties *)

(** ** The matcher is sound *)

Section Reach.
Variable line : string.

Lemma try_down_reach k pos caps : forall i m,
  try_down k pos caps i = Some m ->
  exists j, (1 <= j <= i)%nat /\ k (pos + j)%nat caps = Some m.
Proof.
  induction i as [|i IH]; intros m H; simpl in H; [discriminate|].
  destruct (k (pos + S i)%nat caps) as [m'|] eqn:E.
  - injection H as <-. exists (S i). split; [lia | exact E].
  - destruct (IH m H) as (j & Hj & Hk). exists j. split; [lia | exact Hk].
Qed.

(** The matcher is sound: when it answers with a match, the rest of the
    pattern was run at a position the piece can stop at. *)
Lemma match_at_reach r : forall pos caps k m,
  match_at line r pos caps k = Some m ->
  exists p caps', reach line r pos caps p caps' /\ k p caps' = Some m.
Proof.
  induction r as [s|cc|cc|r1 IH1|r1 IH1 r2 IH2|n r1 IH1|];
    intros pos caps k m H; simpl in H.
  - destruct (prefix s (drop pos line)) eqn:E; [|discriminate].
    eexists _, _. simpl. eauto.
  - destruct (String.get pos line) as [c|] eqn:Eg; [|discriminate].
    destruct (cclass_match cc c) eqn:Ec; [|discriminate].
    eexists _, _. simpl. split; [|exact H]. eauto.
  - apply try_down_reach in H. destruct H as (j & Hj & Hk).
    eexists _, _. simpl. split; [|exact Hk]. eauto.
  - destruct (match_at line r1 pos caps k) as [m'|] eqn:E.
    + injection H as <-. apply IH1 in E. destruct E as (p & c & Hr & Hk).
      exists p, c. simpl. auto.
    + exists pos, caps. simpl. auto.
  - apply IH1 in H. destruct H as (q & c & Hr1 & H).
    apply IH2 in H. destruct H as (p & c' & Hr2 & Hk).
    exists p, c'. simpl. eauto.
  - apply IH1 in H. destruct H as (p & c & Hr & Hk).
    eexists p, _. simpl. split; [|exact Hk]. eauto.
  - destruct (pos =? 0)%nat eqn:E; [|discriminate].
    apply Nat.eqb_eq in E. exists pos, caps. simpl. auto.
Qed.

Lemma search_from_reach r : forall fuel pos m,
  search_from line r pos fuel = Some m ->
  exists pos' p, reach line r pos' [] p m.
Proof.
  induction fuel as [|fuel IH]; intros pos m H; simpl in H; [discriminate|].
  destruct (match_at line r pos [] (fun _ c => Some c)) as [m'|] eqn:E.
  - injection H as <-. apply match_at_reach in E.
    destruct E as (p & c & Hr & [= ->]). eauto.
  - eapply IH; eauto.
Qed.

(** A group bound last is the text some body of that number went through;
    a group not bound by the piece is as before. *)
Lemma reach_group n r : forall pos caps p caps',
  reach line r pos caps p caps' ->
  group n caps' = group n caps
  \/ exists g a b c c',
       In g (groups_named n r) /\ reach line g a c b c'
       /\ group n caps' = Some (substring a (b - a) line).
Proof.
  induction r as [s|cc|cc|r1 IH1|r1 IH1 r2 IH2|i r1 IH1|];
    intros pos caps p caps' H; simpl in H.
  - destruct H as (_ & _ & ->). auto.
  - destruct H as (_ & _ & ->). auto.
  - destruct H as (_ & ->). auto.
  - destruct H as [H|[_ ->]]; [|auto]. apply IH1 in H. exact H.
  - destruct H as (q & c & H1 & H2).
    apply IH2 in H2. apply IH1 in H1.
    destruct H2 as [H2|(g & a & b & c0 & c1 & Hin & Hg & H2)].
    + rewrite H2. destruct H1 as [H1|(g & a & b & c0 & c1 & Hin & Hg & H1)];
        [auto|].
      right. exists g, a, b, c0, c1. simpl. rewrite in_app_iff. auto.
    + right. exists g, a, b, c0, c1. simpl. rewrite in_app_iff. auto.
  - destruct H as (c & H & ->). simpl.
    destruct (i =? n)%nat eqn:E.
    + right. exists r1, pos, p, caps, c. simpl. auto.
    + apply IH1 in H. destruct H as [H|(g & a & b & c0 & c1 & Hin & Hg & H)];
        [auto|].
      right. exists g, a, b, c0, c1. auto.
  - destruct H as (_ & _ & ->). auto.
Qed.

Lemma reach_keeps_group n r : forall pos caps p caps',
  reach line r pos caps p caps' -> group n caps <> None -> group n caps' <> None.
Proof.
  intros pos caps p caps' H Hn. apply (reach_group n) in H.
  destruct H as [H|(g & a & b & c & c' & _ & _ & H)]; rewrite H; auto.
  discriminate.
Qed.

Lemma reach_binds n r : forall pos caps p caps',
  binds n r = true -> reach line r pos caps p caps' -> group n caps' <> None.
Proof.
  induction r as [s|cc|cc|r1 IH1|r1 IH1 r2 IH2|i r1 IH1|];
    intros pos caps p caps' Hb H; simpl in Hb; try discriminate; simpl in H.
  - destruct H as (q & c & H1 & H2). apply orb_true_iff in Hb.
    destruct Hb as [Hb|Hb].
    + eapply reach_keeps_group; eauto.
    + eauto.
  - destruct H as (c & H & ->). simpl. destruct (i =? n)%nat; [discriminate|].
    simpl in Hb. eauto.
Qed.
End Reach.

(** A match of a pattern that binds group [n] has the group, and the group
    is the text one of the pattern's bodies for [n] went through. *)
Lemma search_group n r l m :
  binds n r = true -> search r l = Some m ->
  exists g a b c c',
    In g (groups_named n r) /\ reach l g a c b c'
    /\ group n m = Some (substring a (b - a) l).
Proof.
  intros Hb H. unfold search in H. apply search_from_reach in H.
  destruct H as (pos & p & H).
  pose proof (@reach_binds l n r pos [] p m Hb H) as Hn.
  apply (@reach_group l n) in H. destruct H as [H|H]; [|exact H].
  simpl in H. congruence.
Qed.

(** ** Pieces of the subject string *)

Lemma drop_0 s : drop 0 s = s.
Proof. unfold drop. rewrite Nat.sub_0_r. apply substring_all. Qed.

Lemma drop_succ a c s : drop (S a) (String c s) = drop a s.
Proof. reflexivity. Qed.

Lemma substring_drop s : forall a i,
  substring a i s = substring 0 i (drop a s).
Proof.
  induction s as [|c s IH]; intros a i.
  - destruct a, i; reflexivity.
  - destruct a as [|a].
    + now rewrite drop_0.
    + rewrite drop_succ. simpl. apply IH.
Qed.

Lemma substring_split s : forall a i j,
  substring a (i + j) s = (substring a i s ++ substring (a + i) j s)%string.
Proof.
  induction s as [|c s IH]; intros a i j.
  - destruct a, i, j; reflexivity.
  - destruct a as [|a].
    + destruct i as [|i]; [reflexivity|].
      simpl. f_equal. apply (IH 0%nat).
    + simpl. apply IH.
Qed.

Lemma substring_get s : forall a c,
  String.get a s = Some c -> substring a 1 s = String c "".
Proof.
  induction s as [|x s IH]; intros a c H; [now destruct a|].
  destruct a as [|a]; simpl in *.
  - injection H as ->. now destruct s.
  - now apply IH.
Qed.

Lemma run_prefix cc s : forall i,
  (i <= run_length cc s)%nat ->
  String.length (substring 0 i s) = i
  /\ all_class cc (substring 0 i s) = true.
Proof.
  induction s as [|c s IH]; intros i Hi; simpl in Hi.
  - assert (i = 0)%nat as -> by lia. auto.
  - destruct i as [|i]; [auto|].
    destruct (cclass_match cc c) eqn:E; [|lia].
    destruct (IH i) as [Hl Ha]; [lia|]. simpl. rewrite E, Hl, Ha. auto.
Qed.

Lemma all_class_digit s : all_class digit s = all_digits s.
Proof. induction s as [|c s IH]; simpl; [|rewrite IH]; reflexivity. Qed.

(** The text a greedy run went through. *)
Lemma reach_plus line cc a c b c' :
  reach line (RPlus cc) a c b c' ->
  c' = c
  /\ exists i, (1 <= i)%nat /\ b = (a + i)%nat
               /\ String.length (substring a i line) = i
               /\ all_class cc (substring a i line) = true.
Proof.
  simpl. intros [(i & Hi & ->) ->]. split; auto. exists i.
  rewrite substring_drop.
  destruct (@run_prefix cc (drop a line) i) as [Hl Ha]; [lia|].
  repeat split; auto. lia.
Qed.

Lemma length_pos_nonempty s : (1 <= String.length s)%nat -> s <> "".
Proof. destruct s; simpl; [lia | discriminate]. Qed.

Lemma reach_num line a c b c' :
  reach line num a c b c' ->
  c' = c /\ digit_run (substring a (b - a) line).
Proof.
  intros H. apply reach_plus in H. destruct H as (-> & i & Hi & -> & Hl & Ha).
  split; auto. replace (a + i - a)%nat with i by lia.
  split; [now rewrite <- all_class_digit | apply length_pos_nonempty; lia].
Qed.

Lemma reach_decimal line a c b c' :
  reach line decimal a c b c' ->
  c' = c /\ decimal_text (substring a (b - a) line).
Proof.
  unfold decimal. cbn [reach].
  intros (q & c1 & H1 & H2). apply reach_plus in H1.
  destruct H1 as (-> & i & Hi & -> & Hl & Ha).
  assert (Hd1 : digit_run (substring a i line)).
  { split; [now rewrite <- all_class_digit | apply length_pos_nonempty; lia]. }
  destruct H2 as [(q2 & c2 & ((x & Hg & Hx) & -> & ->) & H3)|[-> ->]].
  - apply reach_plus in H3. destruct H3 as (-> & j & Hj & -> & Hl2 & Ha2).
    split; auto. exists (substring a i line). split; auto. right.
    exists (substring (S (a + i)) j line). split.
    + split; [now rewrite <- all_class_digit | apply length_pos_nonempty; lia].
    + replace (S (a + i) + j - a)%nat with (i + (1 + j))%nat by lia.
      rewrite substring_split. f_equal.
      rewrite substring_split, (substring_get _ _ Hg).
      simpl in Hx. apply Ascii.eqb_eq in Hx. subst x.
      now rewrite Nat.add_1_r.
  - split; auto. exists (substring a i line). split; auto. left.
    f_equal. lia.
Qed.

Lemma reach_num_any_num line a c b c' :
  reach line num_any_num a c b c' ->
  c' = c /\ num_any_num_text (substring a (b - a) line).
Proof.
  unfold num_any_num. cbn [reach].
  intros (q & c1 & H1 & q2 & c2 & ((x & Hg & Hx) & -> & ->) & H3).
  apply reach_plus in H1. destruct H1 as (-> & i & Hi & -> & Hl & Ha).
  apply reach_plus in H3. destruct H3 as (-> & j & Hj & -> & Hl2 & Ha2).
  split; auto.
  exists (substring a i line), x, (substring (S (a + i)) j line).
  repeat split.
  - now rewrite <- all_class_digit.
  - apply length_pos_nonempty; lia.
  - now rewrite <- all_class_digit.
  - apply length_pos_nonempty; lia.
  - simpl in Hx. intros ->. now rewrite Ascii.eqb_refl in Hx.
  - replace (S (a + i) + j - a)%nat with (i + (1 + j))%nat by lia.
    rewrite substring_split. f_equal.
    rewrite substring_split, (substring_get _ _ Hg).
    now rewrite Nat.add_1_r.
Qed.

(** ** Conversions within the digit limits *)

Lemma substring_length_le s : forall a n,
  (String.length (substring a n s) <= String.length s)%nat.
Proof.
  induction s as [|c s IH]; intros a n.
  - destruct a, n; simpl; lia.
  - destruct a as [|a]; [destruct n as [|n]|]; simpl.
    + lia.
    + specialize (IH 0%nat n). lia.
    + specialize (IH a n). lia.
Qed.

(** [int] converts a run of digits within its limit. *)
Lemma py_int_digit_run s :
  digit_run s -> (Z.of_nat (String.length s) <= max_int_digits)%Z ->
  exists z, py_int s = Ok z.
Proof.
  intros [Ha Hn] Hl. unfold py_int. destruct s; [congruence|].
  rewrite Ha. apply Z.ltb_ge in Hl. rewrite Hl. eauto.
Qed.

(** [int] of a capture raises nothing but [ValueError]. *)
Lemma py_int_raises s e : py_int s = Raise e -> e = ValueError.
Proof.
  unfold py_int. destruct s; [congruence|].
  destruct (all_digits _); [|congruence].
  destruct (_ <? _)%Z; [congruence | discriminate].
Qed.

(** [int] rejects a run of digits exactly when it is too long. *)
Lemma py_int_digit_run_raises s e :
  digit_run s -> py_int s = Raise e ->
  (max_int_digits < Z.of_nat (String.length s))%Z.
Proof.
  intros [Ha Hn]. unfold py_int. destruct s; [congruence|].
  rewrite Ha. destruct (_ <? _)%Z eqn:E; [|discriminate].
  intros _. now apply Z.ltb_lt.
Qed.

Lemma digitpart_digits d : forall acc cnt rest,
  all_digits d = true -> stops rest ->
  exists n, digitpart (d ++ rest)%string acc cnt
            = (n, (cnt + String.length d)%nat, rest).
Proof.
  induction d as [|x d IH]; intros acc cnt rest Ha Hs;
    cbn [append digitpart all_digits String.length] in *.
  - rewrite Nat.add_0_r. destruct rest as [|c r]; cbn [digitpart]; [eauto|].
    destruct Hs as [Hd Hu]. rewrite Hd.
    apply Ascii.eqb_neq in Hu. rewrite Hu. simpl. eauto.
  - apply andb_true_iff in Ha. destruct Ha as [Hx Ha]. rewrite Hx.
    destruct (IH (10 * acc + digit_val x)%Z (S cnt) rest Ha Hs) as [n Hn].
    exists n. rewrite Hn. f_equal. f_equal. lia.
Qed.

Lemma append_nil (s : string) : (s ++ "")%string = s.
Proof. induction s as [|c s IH]; simpl; [|rewrite IH]; reflexivity. Qed.

Lemma decimal_digits_le fuel : forall n, (decimal_digits fuel n <= fuel)%nat.
Proof.
  induction fuel as [|fuel IH]; intros n; simpl; [lia|].
  destruct (n =? 0)%Z; [lia|]. specialize (IH (n / 10)%Z). lia.
Qed.

Lemma float_digits_within c1 c2 n :
  (Z.of_nat (c1 + c2) <= max_float_digits)%Z ->
  ((max_float_digits <? Z.of_nat (decimal_digits (c1 + c2) n))%Z
   || (max_float_digits <? Z.of_nat c2)%Z) = false.
Proof.
  intros H. pose proof (decimal_digits_le (c1 + c2) n) as Hd.
  apply orb_false_iff. split; apply Z.ltb_ge; lia.
Qed.

(** [float] converts the numerals of [decimal_text] within its limit. *)
Lemma py_float_decimal_text s :
  decimal_text s -> (Z.of_nat (String.length s) <= max_float_digits)%Z ->
  exists x, py_float s = Ok x.
Proof.
  intros (d1 & [Ha1 Hn1] & [->|(d2 & [Ha2 Hn2] & ->)]) Hl; unfold py_float.
  - destruct (@digitpart_digits d1 0%Z 0%nat "" Ha1 I) as [n Hn].
    rewrite append_nil in Hn. rewrite Hn. cbn beta iota.
    rewrite float_digits_within by (rewrite Nat.add_0_r; exact Hl).
    destruct d1; [congruence|]. simpl. eauto.
  - destruct (@digitpart_digits d1 0%Z 0%nat ("." ++ d2)%string Ha1) as [n Hn].
    { simpl. split; [reflexivity | discriminate]. }
    rewrite Hn. cbn [append]. cbn beta iota.
    destruct (@digitpart_digits d2 n 0%nat "" Ha2 I) as [n2 Hn2'].
    rewrite append_nil in Hn2'. rewrite Hn2'. cbn beta iota.
    rewrite float_digits_within.
    + destruct d1; [congruence|]. simpl. eauto.
    + rewrite length_append in Hl. simpl in Hl. simpl. lia.
Qed.

(** [float] of a capture raises nothing but [ValueError]. *)
Lemma py_float_raises s e : py_float s = Raise e -> e = ValueError.
Proof.
  unfold py_float.
  destruct (digitpart s 0 0) as [[n1 c1] r1].
  destruct (match r1 with
            | String "." r => digitpart r n1 0
            | _ => (n1, O, r1)
            end) as [[n2 c2] r2].
  destruct (c1 + c2 =? 0)%nat; [congruence|].
  destruct (_ || _); [congruence|].
  destruct r2 as [|c r3]; [discriminate|].
  destruct (Ascii.eqb c "e" || Ascii.eqb c "E"); [|congruence].
  destruct (exponent_sign r3) as [neg r4].
  destruct (digitpart r4 0 0) as [[x cx] r5].
  destruct cx; [congruence|]. destruct r5; [discriminate | congruence].
Qed.

(** ** Where a scanning loop can raise *)

Lemma scan_regexes_raise store regexes l : forall p e,
  scan_regexes store regexes l p = Raise e ->
  exists k r m p', In (k, r) regexes /\ search r l = Some m
                   /\ store k m p' = Raise e.
Proof.
  induction regexes as [|[k r] rest IH]; intros p e H; simpl in H;
    [discriminate|].
  destruct (search r l) as [m|] eqn:Es.
  - destruct (store k m p) as [p1|e1] eqn:E1; simpl in H.
    + apply IH in H. destruct H as (k' & r' & m' & p' & Hin & H).
      exists k', r', m', p'. simpl. tauto.
    + injection H as <-. exists k, r, m, p. simpl. auto.
  - apply IH in H. destruct H as (k' & r' & m' & p' & Hin & H).
    exists k', r', m', p'. simpl. tauto.
Qed.

Lemma scan_lines_raise store regexes lines : forall p e,
  scan_lines store regexes lines p = Raise e ->
  exists l k r m p', In l lines /\ In (k, r) regexes /\ search r l = Some m
                     /\ store k m p' = Raise e.
Proof.
  induction lines as [|l lines IH]; intros p e H; simpl in H; [discriminate|].
  destruct (scan_regexes store regexes l p) as [p1|e1] eqn:E1; simpl in H.
  - apply IH in H. destruct H as (l' & k & r & m & p' & Hl & H).
    exists l', k, r, m, p'. simpl. tauto.
  - injection H as <-. apply scan_regexes_raise in E1.
    destruct E1 as (k & r & m & p' & H). exists l, k, r, m, p'. simpl. tauto.
Qed.

Lemma scan_regexes_total store regexes l :
  (forall k r m p, In (k, r) regexes -> search r l = Some m ->
                   exists p', store k m p = Ok p') ->
  forall p, exists p', scan_regexes store regexes l p = Ok p'.
Proof.
  intros Hs p. destruct (scan_regexes store regexes l p) as [p'|e] eqn:E;
    [eauto|].
  apply scan_regexes_raise in E. destruct E as (k & r & m & p' & Hin & Hm & E).
  destruct (Hs k r m p' Hin Hm) as [p2 H2]. congruence.
Qed.

Lemma scan_lines_total store regexes lines :
  (forall l k r m p, In l lines -> In (k, r) regexes -> search r l = Some m ->
                     exists p', store k m p = Ok p') ->
  forall p, exists p', scan_lines store regexes lines p = Ok p'.
Proof.
  intros Hs p. destruct (scan_lines store regexes lines p) as [p'|e] eqn:E;
    [eauto|].
  apply scan_lines_raise in E.
  destruct E as (l & k & r & m & p' & Hl & Hin & Hm & E).
  destruct (Hs l k r m p' Hl Hin Hm) as [p2 H2]. congruence.
Qed.

Lemma jax_lines_raise lines : forall p self self' e,
  jax_lines lines p self = (self', Raise e) ->
  exists l k r m p',
    In l lines /\ search r l = Some m
    /\ ((In (k, r) jax_regexes /\ store_pe k m p' = Raise e)
        \/ (In (k, r) jax_regexes_se /\ store_se k m p' = Raise e)).
Proof.
  induction lines as [|l lines IH]; intros p self self' e H;
    cbn [jax_lines] in H; [discriminate|].
  destruct (jax_line l p self) as [self1 [p1|e1]] eqn:E1.
  - apply IH in H. destruct H as (l' & k & r & m & p' & Hl & H).
    exists l', k, r, m, p'. simpl. tauto.
  - injection H as <- <-. unfold jax_line in E1.
    destruct (str_in "Read" l).
    + destruct (str_in "Read 2" l); discriminate.
    + destruct (pe_bool self);
        [assert (E2 : scan_regexes store_pe jax_regexes l p = Raise e1)
           by congruence
        |assert (E2 : scan_regexes store_se jax_regexes_se l p = Raise e1)
           by congruence];
        apply scan_regexes_raise in E2;
        destruct E2 as (k & r & m & p' & Hin & Hm & E2);
        exists l, k, r, m, p'; simpl; tauto.
Qed.

Lemma hisat2_lines_raise cln f lines : forall st self self' e,
  hisat2_lines cln f lines st self = (self', Raise e) ->
  exists l, In l lines
    /\ ((exists k r m p', In (k, r) hisat2_regexes /\ search r l = Some m
                          /\ store_int k m p' = Raise e)
        \/ (exists m, search hisat2_overall l = Some m
                      /\ float_group 1 m = Raise e)).
Proof.
  induction lines as [|l lines IH]; intros st self self' e H;
    cbn [hisat2_lines] in H; [discriminate|].
  destruct (hisat2_line cln f l st self) as [self1 [st1|e1]] eqn:E1.
  - apply IH in H. destruct H as (l' & Hl & H). exists l'. simpl. tauto.
  - injection H as <- <-. exists l. split; [simpl; auto|].
    unfold hisat2_line in E1. destruct st as [s0 p0].
    destruct (scan_regexes store_int hisat2_regexes l p0) as [p1|e2] eqn:E2.
    + destruct (search hisat2_overall l) as [m|] eqn:Es; [|discriminate].
      destruct (float_group 1 m) as [v|e3] eqn:E3; [discriminate|].
      right. exists m. split; [reflexivity|]. rewrite E3. congruence.
    + left. apply scan_regexes_raise in E2.
      assert (e2 = e1) as -> by congruence. exact E2.
Qed.

Ltac table_group_tac :=
  let k := fresh "k" in let r := fresh "r" in let Hin := fresh "Hin" in
  intros k r Hin; simpl in Hin;
  repeat (destruct Hin as [Hin|Hin];
          [injection Hin as <- <-; split;
           [reflexivity | intros g Hg; simpl in Hg |- *; tauto]|]);
  contradiction.

Lemma primerclip_group1 :
  table_group 1 [num; num_any_num] primerclip_regexes.
Proof. table_group_tac. Qed.

Lemma coverage_metrics_group1 :
  table_group 1 [decimal] coverage_metrics_regexes.
Proof. table_group_tac. Qed.

Lemma hisat2_group1 : table_group 1 [num] hisat2_regexes.
Proof. table_group_tac. Qed.

Lemma jax_se_group1 :
  table_group 1 [num; num_any_num; RGroup 2 decimal] jax_regexes_se.
Proof. table_group_tac. Qed.

Lemma jax_group1 :
  table_group 1 [num; num_any_num; RGroup 2 decimal] jax_regexes.
Proof. table_group_tac. Qed.

Lemma jax_group2 :
  table_group 2 [num; num_any_num; decimal] jax_regexes.
Proof. table_group_tac. Qed.

Lemma table_group_capture n bodies t k r l m :
  table_group n bodies t -> In (k, r) t -> search r l = Some m ->
  exists g a b c c',
    In g bodies /\ reach l g a c b c'
    /\ group n m = Some (substring a (b - a) l).
Proof.
  intros Ht Hin Hs. destruct (Ht k r Hin) as [Hb Hincl].
  destruct (@search_group n r l m Hb Hs) as (g & a & b & c & c' & Hg & H).
  exists g, a, b, c, c'. split; [apply Hincl, Hg | exact H].
Qed.

(** [float(match.group(n))] of a group the pattern always binds raises
    nothing but [ValueError]. *)
Lemma float_group_raises n bodies t k r l m e :
  table_group n bodies t -> In (k, r) t -> search r l = Some m ->
  float_group n m = Raise e -> e = ValueError.
Proof.
  intros Ht Hin Hs H.
  destruct (@table_group_capture n bodies t k r l m Ht Hin Hs)
    as (g & a & b & c & c' & _ & _ & Hg).
  unfold float_group in H. rewrite Hg in H.
  destruct (py_float _) as [x|e'] eqn:E; simpl in H; [discriminate|].
  injection H as <-. eapply py_float_raises; eauto.
Qed.

(** What a [(\d+)] group holds: a run of digits of the line. *)
Lemma group_num t k r l m :
  table_group 1 [num] t -> In (k, r) t -> search r l = Some m ->
  exists s, group 1 m = Some s /\ digit_run s
            /\ (String.length s <= String.length l)%nat.
Proof.
  intros Ht Hin Hs.
  destruct (@table_group_capture 1 [num] t k r l m Ht Hin Hs)
    as (g & a & b & c & c' & Hg & Hr & Hm).
  destruct Hg as [<-|[]]. apply reach_num in Hr. destruct Hr as [_ Hd].
  eexists. split; [exact Hm|]. split; [exact Hd|].
  apply substring_length_le.
Qed.

(** [int(match.group(1))] of a [(\d+)] group converts when the line is
    within the limit of [int]. *)
Lemma int_group_num t k r l m :
  table_group 1 [num] t -> In (k, r) t -> search r l = Some m ->
  (Z.of_nat (String.length l) <= max_int_digits)%Z ->
  exists v, int_group 1 m = Ok v.
Proof.
  intros Ht Hin Hs Hl.
  destruct (@group_num t k r l m Ht Hin Hs) as (s & Hm & Hd & Hle).
  destruct (@py_int_digit_run s Hd) as [z Hz]; [lia|].
  unfold int_group. rewrite Hm, Hz. simpl. eauto.
Qed.

(** [int(match.group(1))] of a [(\d+)] group raises when the capture has
    more digits than [int] converts, and [ValueError] then. *)
Lemma int_group_raises t k r l m e :
  table_group 1 [num] t -> In (k, r) t -> search r l = Some m ->
  int_group 1 m = Raise e ->
  e = ValueError
  /\ exists s, group 1 m = Some s /\ digit_run s
               /\ (max_int_digits < Z.of_nat (String.length s))%Z.
Proof.
  intros Ht Hin Hs H.
  destruct (@group_num t k r l m Ht Hin Hs) as (s & Hm & Hd & _).
  unfold int_group in H. rewrite Hm in H.
  destruct (py_int s) as [z|e'] eqn:E; simpl in H; [discriminate|].
  injection H as <-. split; [exact (py_int_raises _ E)|].
  exists s. split; [exact Hm|]. split; [exact Hd|].
  exact (py_int_digit_run_raises Hd E).
Qed.

(** [float(match.group(1))] of a [(\d+(?:\.\d+)?)] group converts when the
    line is within the limit of [float]. *)
Lemma float_group_decimal t k r l m :
  table_group 1 [decimal] t -> In (k, r) t -> search r l = Some m ->
  (Z.of_nat (String.length l) <= max_float_digits)%Z ->
  exists v, float_group 1 m = Ok v.
Proof.
  intros Ht Hin Hs Hl.
  destruct (@table_group_capture 1 [decimal] t k r l m Ht Hin Hs)
    as (g & a & b & c & c' & Hg & Hr & Hm).
  destruct Hg as [<-|[]]. apply reach_decimal in Hr. destruct Hr as [_ Hd].
  pose proof (substring_length_le l a (b - a)) as Hle.
  apply py_float_decimal_text in Hd; [|lia]. destruct Hd as [x Hx].
  unfold float_group. rewrite Hm, Hx. simpl. eauto.
Qed.

Lemma hisat2_scan_total l p :
  (Z.of_nat (String.length l) <= max_int_digits)%Z ->
  exists p', scan_regexes store_int hisat2_regexes l p = Ok p'.
Proof.
  intros Hl. apply scan_regexes_total. intros k r m p0 Hin Hs.
  destruct (@int_group_num hisat2_regexes k r l m hisat2_group1 Hin Hs Hl)
    as [v Hv].
  unfold store_int. rewrite Hv. simpl. eauto.
Qed.

Lemma store_float_raises k m p e :
  store_float k m p = Raise e -> float_group 1 m = Raise e.
Proof.
  unfold store_float. destruct (float_group 1 m); simpl; congruence.
Qed.

Lemma store_se_raises k m p e :
  store_se k m p = Raise e -> float_group 1 m = Raise e.
Proof. unfold store_se. destruct (float_group 1 m); simpl; congruence. Qed.

Lemma store_pe_raises k m p e :
  store_pe k m p = Raise e ->
  float_group 1 m = Raise e \/ float_group 2 m = Raise e.
Proof.
  unfold store_pe. destruct (float_group 1 m); simpl; [|left; congruence].
  destruct (float_group 2 m); simpl; [discriminate | right; congruence].
Qed.

Lemma store_int_raises k m p e :
  store_int k m p = Raise e -> int_group 1 m = Raise e.
Proof. unfold store_int. destruct (int_group 1 m); simpl; congruence. Qed.

Lemma overall_group1 :
  table_group 1 [digits_dots] [("overall_alignment_rate", hisat2_overall)].
Proof. table_group_tac. Qed.

(** ** What a parse function can raise *)

Lemma scan_float_raises bodies regexes lines p e :
  table_group 1 bodies regexes ->
  scan_lines store_float regexes lines p = Raise e -> e = ValueError.
Proof.
  intros Ht E. apply scan_lines_raise in E.
  destruct E as (l & k & r & m & p' & _ & Hin & Hs & E).
  apply store_float_raises in E.
  exact (@float_group_raises 1 bodies regexes k r l m e Ht Hin Hs E).
Qed.

Lemma jax_lines_raises lines p self self' e :
  jax_lines lines p self = (self', Raise e) -> e = ValueError.
Proof.
  intros E. apply jax_lines_raise in E.
  destruct E as (l & k & r & m & p' & _ & Hs & [[Hin E]|[Hin E]]).
  - apply store_pe_raises in E. destruct E as [E|E].
    + exact (@float_group_raises 1 _ _ k r l m e jax_group1 Hin Hs E).
    + exact (@float_group_raises 2 _ _ k r l m e jax_group2 Hin Hs E).
  - apply store_se_raises in E.
    exact (@float_group_raises 1 _ _ k r l m e jax_se_group1 Hin Hs E).
Qed.

Lemma hisat2_lines_raises cln f lines st self self' e :
  hisat2_lines cln f lines st self = (self', Raise e) -> e = ValueError.
Proof.
  intros E. apply hisat2_lines_raise in E.
  destruct E as (l & _ & [(k & r & m & p' & Hin & Hs & E)|(m & Hs & E)]).
  - apply store_int_raises in E.
    exact (proj1 (@int_group_raises _ k r l m e hisat2_group1 Hin Hs E)).
  - exact (@float_group_raises 1 _ _ _ _ l m e overall_group1
             (or_introl eq_refl) Hs E).
Qed.

Lemma parse_logs_raises cln t f self self' e :
  parse_logs cln t f self = (self', Raise e) -> e = ValueError.
Proof.
  intros H. destruct t; cbn [parse_logs] in H.
  - unfold parse_primerclip_logs in H.
    destruct (scan_lines _ _ _ _) as [p|e'] eqn:E; [discriminate|].
    injection H as _ <-. exact (scan_float_raises _ _ primerclip_group1 E).
  - unfold parse_coverage_metrics_logs in H.
    destruct (scan_lines _ _ _ _) as [p|e'] eqn:E; [discriminate|].
    injection H as _ <-.
    exact (scan_float_raises _ _ coverage_metrics_group1 E).
  - unfold parse_jax_trimmer_logs in H.
    destruct (jax_lines _ _ _) as [self1 [p|e']] eqn:E; [discriminate|].
    injection H as _ <-. exact (jax_lines_raises _ _ _ E).
  - unfold parse_hisat2_logs in H.
    destruct (hisat2_lines _ _ _ _ _) as [self1 [st|e']] eqn:E;
      [discriminate|].
    injection H as _ <-. exact (hisat2_lines_raises _ _ _ _ _ E).
Qed.

(** ** The loop over the files *)

Lemma for_each_app (A : Type) (body : A -> module -> run unit) l1 :
  forall l2 self,
    for_each body (l1 ++ l2) self =
    match for_each body l1 self with
    | (self', Ok _) => for_each body l2 self'
    | (self', Raise e) => (self', Raise e)
    end.
Proof.
  induction l1 as [|x l1 IH]; intros l2 self; simpl; auto.
  destruct (body x self) as [self1 [[]|e]]; auto.
Qed.

Lemma set_absent (V : Type) k (v : V) (d : dict V) :
  ~ In k (keys d) -> set k v d = d ++ [(k, v)].
Proof.
  induction d as [|[k0 v0] d IH]; simpl; intros H; [reflexivity|].
  destruct (String.eqb k0 k) eqn:E.
  - apply String.eqb_eq in E. tauto.
  - f_equal. apply IH. tauto.
Qed.

Lemma wf_filter (V : Type) (p : string * V -> bool) (d : dict V) :
  wf d -> wf (filter p d).
Proof.
  unfold wf, keys. induction d as [|[k v] d IH]; simpl; intros H; auto.
  inversion H as [|? ? Hnin Hnd]; subst.
  destruct (p (k, v)); simpl; auto. constructor; auto.
  intros Hin. apply Hnin. apply in_map_iff in Hin.
  destruct Hin as ([k' v'] & <- & Hin). apply filter_In in Hin.
  apply in_map_iff. exists (k', v'). tauto.
Qed.

Local Opaque m_keys.

(** The loop of the plot appends: every sample goes to the end of one of
    the two mappings, in the order of [self.hisat2_data]. *)
Lemma split_se_pe_out items : forall done sedata pedata self self' se pe,
  wf (done ++ items) ->
  incl (keys sedata) (keys done) -> incl (keys pedata) (keys done) ->
  split_se_pe items sedata pedata self = (self', Ok (se, pe)) ->
  se = sedata ++ se_samples items /\ pe = pedata ++ pe_samples items.
Proof.
  induction items as [|[s d] items IH];
    intros done sedata pedata self self' se pe Hwf Hse Hpe H; simpl in H.
  - injection H as _ <- <-. unfold se_samples, pe_samples. simpl.
    now rewrite !app_nil_r.
  - assert (Hnin : ~ In s (keys done)).
    { unfold wf, keys in Hwf. rewrite map_app in Hwf.
      apply NoDup_remove_2 in Hwf. rewrite in_app_iff in Hwf.
      unfold keys. tauto. }
    assert (Hwf' : wf ((done ++ [(s, d)]) ++ items))
      by now rewrite <- app_assoc.
    assert (Hk : keys (done ++ [(s, d)]) = keys done ++ [s])
      by (unfold keys; now rewrite map_app).
    unfold se_samples, pe_samples, is_paired. simpl.
    destruct (mem "paired_total" d) eqn:Em; simpl.
    + destruct (halve_mates m_keys d) as [d' [[]|e]] eqn:Eh; [|discriminate].
      apply (IH (done ++ [(s, d)])) in H; auto.
      * destruct H as [-> ->]. split; [reflexivity|].
        rewrite set_absent by auto. rewrite <- app_assoc. simpl.
        unfold plotted at 1. rewrite Em, Eh. reflexivity.
      * rewrite Hk. apply incl_appl, Hse.
      * rewrite Hk. rewrite set_absent by auto. unfold keys.
        rewrite map_app. simpl. apply incl_app; [apply incl_appl, Hpe|].
        apply incl_appr, incl_refl.
    + apply (IH (done ++ [(s, d)])) in H; auto.
      * destruct H as [-> ->]. split; [|reflexivity].
        rewrite set_absent by auto. now rewrite <- app_assoc.
      * rewrite Hk. rewrite set_absent by auto. unfold keys.
        rewrite map_app. simpl. apply incl_app; [apply incl_appl, Hse|].
        apply incl_appr, incl_refl.
      * rewrite Hk. apply incl_appl, Hpe.
Qed.

Local Transparent m_keys.

Lemma hisat2_alignment_plot_host self self' :
  wf (data self) ->
  hisat2_alignment_plot self = (self', Ok tt) ->
  host self' = host self ++ hisat2_sections (data self).
Proof.
  intros Hwf H. unfold hisat2_alignment_plot in H.
  destruct (split_se_pe (data self) empty empty self)
    as [self1 [[se pe]|e]] eqn:E; [|discriminate].
  destruct (@split_se_pe_out (data self) [] [] [] self self1 se pe Hwf)
    as [-> ->]; auto; try (intros x []).
  destruct (@split_se_pe_data (data self) [] [] [] self self1 _ eq_refl Hwf E)
    as (_ & Hh & _).
  simpl in H. unfold hisat2_sections, se_section, pe_section.
  destruct (0 <? len (se_samples (data self)))%nat;
    destruct (0 <? len (pe_samples (data self)))%nat;
    injection H as <-; simpl; rewrite Hh, <- ?app_assoc, ?app_nil_r;
    reflexivity.
Qed.


Lemma contributions_hisat2_sections d :
  contributions (hisat2_sections d) = hisat2_sections d.
Proof.
  unfold hisat2_sections.
  destruct (0 <? len (se_samples d))%nat;
    destruct (0 <? len (pe_samples d))%nat; reflexivity.
Qed.

Lemma wf_parse_pass cln t files :
  wf (data (fst (parse_pass cln t files))).
Proof. apply wf_after_for_each. constructor. Qed.

(** ** The records of a trimmer run *)

Lemma in_set (V : Type) k (v : V) (d : dict V) k' v' :
  In (k', v') (set k v d) -> (k', v') = (k, v) \/ In (k', v') d.
Proof.
  induction d as [|[k0 v0] d IH]; simpl.
  - intros [H|[]]; auto.
  - destruct (String.eqb k0 k); simpl; intros [H|H]; auto.
    apply IH in H. tauto.
Qed.

Local Opaque jax_regexes jax_regexes_se.

(** A property of what every file's loop leaves holds of every record of the
    mapping after the pass. *)
Lemma jax_pass_records (P : record -> Prop) files :
  (forall f self self1 parsed, In f files ->
     jax_lines (splitlines (contents f)) empty (set_pe_bool false self)
       = (self1, Ok parsed) -> P parsed) ->
  forall self self',
    (forall s rec, In (s, rec) (data self) -> P rec) ->
    for_each parse_jax_trimmer_logs files self = (self', Ok tt) ->
    forall s rec, In (s, rec) (data self') -> P rec.
Proof.
  induction files as [|f files IH]; intros HP self self' Hd H; simpl in H.
  - injection H as <-. exact Hd.
  - destruct (parse_jax_trimmer_logs f self) as [self1 [[]|e]] eqn:E;
      [|discriminate].
    assert (HP' : forall f' s0 s1 p, In f' files ->
              jax_lines (splitlines (contents f')) empty
                (set_pe_bool false s0) = (s1, Ok p) -> P p).
    { intros f' s0 s1 p Hin. apply HP. simpl. auto. }
    apply (IH HP' self1 self'); auto.
    unfold parse_jax_trimmer_logs in E.
    destruct (jax_lines _ _ _) as [self2 [parsed|e]] eqn:El; [|discriminate].
    injection E as <-. intros s rec Hin.
    pose proof (HP f self self2 parsed (or_introl eq_refl) El) as Hp.
    apply jax_lines_writes in El. destruct El as (_ & _ & _ & ->).
    unfold save_if_any in Hin. destruct (0 <? len parsed)%nat.
    + simpl in Hin. apply in_set in Hin.
      destruct Hin as [[= -> ->]|Hin]; eauto.
    + simpl in Hin. eauto.
Qed.

Lemma jax_lines_keys f self self1 parsed k' :
  jax_lines (splitlines (contents f)) empty (set_pe_bool false self)
    = (self1, Ok parsed) ->
  (mem k' parsed = true <-> jax_assigns (splitlines (contents f)) false k').
Proof.
  intros H. apply jax_lines_writes in H. destruct H as (ws & Hw & -> & _).
  simpl in Hw. rewrite mem_set_all, (jax_writes_keys _ _ k' Hw).
  unfold mem. simpl. intuition discriminate.
Qed.

Lemma parse_jax_pe_bool f self self' :
  parse_jax_trimmer_logs f self = (self', Ok tt) ->
  pe_bool self' = existsb is_marker (splitlines (contents f)).
Proof.
  intros H. apply parse_jax_trimmer_logs_spec in H.
  destruct H as (parsed & -> & _). unfold save_if_any.
  destruct (0 <? len parsed)%nat; reflexivity.
Qed.

Lemma existsb_false_prefix (A : Type) (p : A -> bool) pre x post :
  existsb p (pre ++ x :: post) = false -> existsb p pre = false.
Proof.
  rewrite existsb_app. intros H. apply orb_false_iff in H. tauto.
Qed.

Local Transparent jax_regexes jax_regexes_se.

(** In the two-column trim-length patterns group 2 lies inside group 1 and
    spans all of it. *)
Lemma trim_len_groups k r l m :
  In k trim_len_keys -> In (k, r) jax_regexes -> search r l = Some m ->
  exists s, group 1 m = Some s /\ group 2 m = Some s.
Proof.
  intros Hk Hin Hs. unfold search in Hs. apply search_from_reach in Hs.
  destruct Hs as (pos & p & Hr).
  assert (Hshape : exists s,
            r = RLit s +++ spaces +++ RGroup 1 (RGroup 2 decimal)
                  +++ spaces +++ RGroup 3 (RGroup 4 decimal)).
  { simpl in Hk. destruct Hk as [<-|[<-|[<-|[]]]]; in_table Hin;
      injection Hin as <-; eexists; reflexivity. }
  destruct Hshape as [s ->]. cbn [reach] in Hr.
  destruct Hr as (q1 & c1 & (_ & _ & ->) & q2 & c2 & Hsp1 & q3 & c3
                  & (c4 & (c5 & Hd1 & ->) & ->) & q4 & c6 & Hsp2
                  & c7 & (c8 & Hd2 & ->) & ->).
  apply reach_plus in Hsp1, Hsp2. destruct Hsp1 as [-> _], Hsp2 as [-> _].
  apply reach_decimal in Hd1, Hd2. destruct Hd1 as [-> _], Hd2 as [-> _].
  eexists. split; reflexivity.
Qed.

Lemma suffix_neq (k k0 s1 s2 : string) :
  In s1 ["_1"; "_2"] -> In s2 ["_1"; "_2"] ->
  k0 <> k \/ s2 <> s1 -> (k0 ++ s2)%string <> (k ++ s1)%string.
Proof.
  intros H1 H2 Hne E. apply suffix_inj in E; auto. tauto.
Qed.

Local Opaque jax_regexes jax_regexes_se.

Lemma store_pe_same_reads k k0 r l m p p1 :
  In k trim_len_keys -> In (k0, r) jax_regexes -> search r l = Some m ->
  same_reads k p -> store_pe k0 m p = Ok p1 -> same_reads k p1.
Proof.
  intros Hk Hin Hs Hp H. unfold store_pe in H.
  destruct (float_group 1 m) as [v1|e] eqn:E1; [|discriminate].
  destruct (float_group 2 m) as [v2|e] eqn:E2; [|discriminate].
  simpl in H. injection H as <-. intros v.
  destruct (string_dec k0 k) as [->|Hne].
  - destruct (@trim_len_groups k r l m Hk Hin Hs) as (s & H1 & H2).
    unfold float_group in E1, E2. rewrite H1 in E1. rewrite H2 in E2.
    rewrite E1 in E2. injection E2 as ->.
    rewrite get_set_same. intros [= <-].
    rewrite get_set_other by (apply suffix_neq; simpl; auto;
                              right; discriminate).
    apply get_set_same.
  - rewrite !get_set_other by (apply suffix_neq; simpl; auto).
    apply Hp.
Qed.

Lemma scan_pe_same_reads k l regexes : forall p p1,
  In k trim_len_keys -> incl regexes jax_regexes ->
  same_reads k p -> scan_regexes store_pe regexes l p = Ok p1 ->
  same_reads k p1.
Proof.
  induction regexes as [|[k0 r] rest IH]; intros p p1 Hk Hincl Hp H;
    simpl in H.
  - now injection H as <-.
  - assert (Hrest : incl rest jax_regexes)
      by (intros x Hx; apply Hincl; simpl; auto).
    destruct (search r l) as [m|] eqn:Es; [|eauto].
    destruct (store_pe k0 m p) as [p0|e] eqn:E; [|discriminate].
    simpl in H. apply (IH p0 p1); auto.
    apply (@store_pe_same_reads k k0 r l m p p0); auto.
    apply Hincl. simpl. auto.
Qed.

Lemma scan_se_no_second k l regexes : forall p p1,
  get (k ++ "_2")%string p = None ->
  scan_regexes store_se regexes l p = Ok p1 ->
  get (k ++ "_2")%string p1 = None.
Proof.
  induction regexes as [|[k0 r] rest IH]; intros p p1 Hp H; simpl in H.
  - now injection H as <-.
  - destruct (search r l) as [m|]; [|eauto].
    unfold store_se in H at 1.
    destruct (float_group 1 m) as [v|e]; [|discriminate].
    simpl in H. apply (IH _ p1) in H; auto.
    rewrite get_set_other; auto.
    apply suffix_neq; simpl; auto. right. discriminate.
Qed.

Lemma jax_lines_trim_len k lines : forall p self self' parsed,
  In k trim_len_keys ->
  trim_len_inv k (pe_bool self) p ->
  jax_lines lines p self = (self', Ok parsed) ->
  trim_len_inv k (pe_bool self') parsed.
Proof.
  induction lines as [|l lines IH]; intros p self self' parsed Hk Hp H;
    cbn [jax_lines] in H.
  - now injection H as <- <-.
  - destruct (jax_line l p self) as [self1 [p1|e]] eqn:E; [|discriminate].
    apply (IH p1 self1 self' parsed Hk); auto.
    unfold jax_line in E. destruct (str_in "Read" l).
    + assert (Hweak : trim_len_inv k true p).
      { unfold trim_len_inv in *. destruct (pe_bool self); auto.
        intros v. rewrite Hp. discriminate. }
      destruct (str_in "Read 2" l); injection E as <- <-; auto.
    + unfold trim_len_inv in *. destruct (pe_bool self) eqn:Eb.
      * assert (E2 : scan_regexes store_pe jax_regexes l p = Ok p1)
          by congruence.
        assert (self1 = self) as -> by congruence. rewrite Eb.
        apply (@scan_pe_same_reads k l jax_regexes p p1); auto.
        apply incl_refl.
      * assert (E2 : scan_regexes store_se jax_regexes_se l p = Ok p1)
          by congruence.
        assert (self1 = self) as -> by congruence. rewrite Eb.
        apply (@scan_se_no_second k l jax_regexes_se p p1); auto.
Qed.

Local Transparent jax_regexes jax_regexes_se.

Lemma scan_regexes_unmatched store regexes l p :
  unmatched regexes l -> scan_regexes store regexes l p = Ok p.
Proof.
  intros H. apply scan_regexes_no_match. apply forallb_forall.
  intros [k r] Hin. simpl. now rewrite (H k r Hin).
Qed.

Lemma scan_lines_unmatched store regexes lines : forall p,
  (forall l, In l lines -> unmatched regexes l) ->
  scan_lines store regexes lines p = Ok p.
Proof.
  induction lines as [|l lines IH]; intros p H; simpl; auto.
  rewrite scan_regexes_unmatched by (apply H; simpl; auto). simpl.
  apply IH. intros; apply H; simpl; auto.
Qed.

Local Opaque jax_regexes jax_regexes_se hisat2_regexes.

Lemma jax_lines_unmatched lines : forall p self,
  (forall l, In l lines -> str_in "Read" l = false ->
     unmatched jax_regexes l /\ unmatched jax_regexes_se l) ->
  jax_lines lines p self
  = (set_pe_bool (pe_bool self || existsb is_marker lines) self, Ok p).
Proof.
  induction lines as [|l lines IH]; intros p self H; cbn [jax_lines existsb].
  - now rewrite orb_false_r, set_pe_bool_same.
  - assert (H' : forall l', In l' lines -> str_in "Read" l' = false ->
              unmatched jax_regexes l' /\ unmatched jax_regexes_se l')
      by (intros; apply H; simpl; auto).
    unfold jax_line, is_marker. destruct (str_in "Read" l) eqn:Er.
    + destruct (str_in "Read 2" l); rewrite (IH _ _ H'); simpl.
      * now rewrite orb_true_r.
      * reflexivity.
    + destruct (H l (or_introl eq_refl) Er) as [Hpe Hse].
      rewrite !scan_regexes_unmatched by assumption.
      destruct (pe_bool self) eqn:Eb; rewrite (IH _ _ H'), Eb; reflexivity.
Qed.

Lemma hisat2_lines_no_rate_ok cln f lines : forall st self,
  (forall l, In l lines -> matches hisat2_overall l = false) ->
  (forall l, In l lines ->
     (Z.of_nat (String.length l) <= max_int_digits)%Z) ->
  exists st', hisat2_lines cln f lines st self = (self, Ok st').
Proof.
  induction lines as [|l lines IH]; intros [s0 p0] self H Hlen;
    cbn [hisat2_lines].
  - eauto.
  - unfold hisat2_line.
    destruct (hisat2_scan_total l p0 (Hlen l (or_introl eq_refl)))
      as [p1 ->].
    pose proof (H l (or_introl eq_refl)) as Hl. unfold matches in Hl.
    destruct (search hisat2_overall l); [discriminate|].
    apply IH; intros; [apply H | apply Hlen]; simpl; auto.
Qed.

Local Transparent jax_regexes jax_regexes_se hisat2_regexes.

Lemma sources_match_after_store known f ws self :
  In f known -> sources_match known self ->
  sources_match known (after_store f ws self).
Proof.
  intros Hf [Hh Hk]. split; simpl.
  - intros e He. apply in_app_iff in He. destruct He as [He|He]; auto.
    apply in_map_iff in He. destruct He as ([s p] & <- & _). eauto.
  - intros s. rewrite <- mem_in_keys, mem_set_all, mem_in_keys, Hk. split.
    + intros [(f0 & H)|H].
      * exists f0. apply in_app_iff. auto.
      * exists f. apply in_app_iff. right.
        apply in_map_iff in H. destruct H as (kv & <- & H).
        apply in_map_iff. exists kv. auto.
    + intros (f0 & H). apply in_app_iff in H. destruct H as [H|H]; eauto.
      right. apply in_map_iff in H. destruct H as (kv & [= _ <-] & H).
      apply in_map_iff. exists kv. auto.
Qed.

Lemma sources_match_for_each cln t known files : forall self,
  incl files known -> sources_match known self ->
  sources_match known (fst (for_each (parse_logs cln t) files self)).
Proof.
  induction files as [|f files IH]; intros self Hincl H; simpl; auto.
  destruct (parse_logs_frame cln t f) as (ws & r & upd & Hf).
  assert (H1 : sources_match known (fst (parse_logs cln t f self))).
  { rewrite Hf. simpl.
    apply (@sources_match_after_store known f ws self); auto.
    apply Hincl. simpl. auto. }
  destruct (parse_logs cln t f self) as [self1 [[]|e]]; simpl in *; auto.
  apply IH; auto. intros x Hx. apply Hincl. simpl. auto.
Qed.

Lemma str_remove_skip old s : forall n,
  (String.length s <= n)%nat -> str_remove_from old s n = "".
Proof.
  induction s as [|c s IH]; intros n H; simpl in *; auto.
  destruct n as [|n]; [lia|]. apply IH. lia.
Qed.

Lemma prefix_refl s : prefix s s = true.
Proof.
  induction s as [|c s IH]; simpl; auto.
  destruct (ascii_dec c c); [exact IH | congruence].
Qed.

Lemma str_remove_absent old s :
  str_in old s = false -> str_remove old s = s.
Proof.
  unfold str_remove. induction s as [|c s IH]; intros H; auto.
  cbn [str_in] in H. cbn [str_remove_from].
  destruct (prefix old (String c s)); [discriminate|].
  now rewrite IH.
Qed.

Lemma str_remove_suffix old a :
  old <> "" -> occurs_before old a old = false ->
  str_remove old (a ++ old)%string = a.
Proof.
  intros Hne. unfold str_remove. induction a as [|c a IH]; intros H.
  - cbn [append]. destruct old as [|c o]; [congruence|].
    cbn [str_remove_from]. rewrite prefix_refl.
    apply str_remove_skip. simpl. lia.
  - cbn [occurs_before] in H. apply orb_false_iff in H. destruct H as [H1 H2].
    cbn [append str_remove_from] in *. rewrite H1. now rewrite IH.
Qed.

Lemma before_last_none sep s :
  str_in (String sep "") s = false -> before_last sep s = None.
Proof.
  induction s as [|c s IH]; intros H; auto.
  cbn [str_in] in H. cbn [before_last].
  destruct (prefix (String sep "") (String c s)) eqn:Ep; [discriminate|].
  rewrite (IH H). simpl in Ep.
  destruct (Ascii.eqb c sep) eqn:E; auto.
  apply Ascii.eqb_eq in E. subst c.
  destruct (ascii_dec sep sep); [|congruence]. now destruct s.
Qed.

Lemma before_last_app sep a : forall b,
  before_last sep b = None ->
  before_last sep (a ++ String sep b)%string = Some a.
Proof.
  induction a as [|c a IH]; intros b H; cbn [append before_last].
  - now rewrite H, Ascii.eqb_refl.
  - now rewrite IH.
Qed.

Lemma rsplit1_head_last_field sep a b :
  str_in (String sep "") b = false ->
  rsplit1_head sep (a ++ String sep b) = a.
Proof.
  intros Hb. unfold rsplit1_head.
  now rewrite before_last_app by now apply before_last_none.
Qed.

Lemma rsplit1_head_no_sep sep s :
  str_in (String sep "") s = false -> rsplit1_head sep s = s.
Proof. intros H. unfold rsplit1_head. now rewrite before_last_none. Qed.

Local Opaque hisat2_regexes.

(** ** The name of a HISAT2 record *)

Lemma hisat2_lines_no_command cln f lines : forall s0 p0 self self' s1 p1,
  (forall l, In l lines -> matches hisat2_overall l = false) ->
  (forall l, In l lines -> matches hisat2_command l = false) ->
  hisat2_lines cln f lines (s0, p0) self = (self', Ok (s1, p1)) ->
  s1 = s0.
Proof.
  induction lines as [|l lines IH]; intros s0 p0 self self' s1 p1 Hr Hc H;
    cbn [hisat2_lines] in H.
  - now injection H as _ <- _.
  - unfold hisat2_line in H.
    pose proof (Hr l (or_introl eq_refl)) as Hrl.
    pose proof (Hc l (or_introl eq_refl)) as Hcl.
    unfold matches in Hrl, Hcl.
    destruct (search hisat2_command l); [discriminate|].
    destruct (scan_regexes store_int hisat2_regexes l p0) as [p|e];
      [|discriminate].
    destruct (search hisat2_overall l); [discriminate|].
    apply IH in H; auto; intros; [apply Hr | apply Hc]; simpl; auto.
Qed.

(** The name the closing rate line [t] saves under, from the name [s] the
    loop holds when it reaches the line. *)
Lemma hisat2_rate_line_name cln f t s p self self' st' :
  matches hisat2_overall t = true ->
  hisat2_line cln f t (s, p) self = (self', Ok st') ->
  exists rec,
    self' = save f (match search hisat2_command t with
                    | Some m => cln (group 1 m) f
                    | None => s
                    end) rec self
    /\ st' = (s_name f, empty).
Proof.
  intros Ht H. unfold hisat2_line in H. unfold matches in Ht.
  destruct (scan_regexes store_int hisat2_regexes t p) as [p1|e];
    [|discriminate].
  destruct (search hisat2_overall t) as [m|]; [|discriminate].
  destruct (float_group 1 m) as [v|e]; [|discriminate].
  injection H as <- <-. eauto.
Qed.

Local Transparent hisat2_regexes.

Local Opaque hisat2_regexes.

(** ** HISAT2 logs without command lines *)


Local Transparent hisat2_regexes.

(** ** One sample for several files or runs *)

(** What a completed parse of a trimmer log does to the mapping: the
    mapping scanned, which depends on the file alone, is stored under the
    file's sample name when it is not empty. *)
Lemma parse_jax_data f self self1 :
  parse_jax_trimmer_logs f self = (self1, Ok tt) ->
  exists p,
    snd (jax_lines (splitlines (contents f)) empty new_module) = Ok p
    /\ data self1
       = if (0 <? len p)%nat
         then set (rsplit1_head "_" (s_name f)) p (data self)
         else data self.
Proof.
  unfold parse_jax_trimmer_logs. intros H.
  destruct (jax_lines_frame (splitlines (contents f)) empty false)
    as (b' & r & Hf).
  rewrite (Hf (set_pe_bool false self) eq_refl) in H.
  rewrite (Hf new_module eq_refl).
  destruct r as [p|e]; [|discriminate]. injection H as <-.
  exists p. split; [reflexivity|]. unfold save_if_any.
  destruct (0 <? len p)%nat; reflexivity.
Qed.

Lemma only_sample_set a p d : only_sample a d -> set a p d = [(a, p)].
Proof.
  intros [->|[p0 ->]]; simpl; [reflexivity|]. now rewrite String.eqb_refl.
Qed.

Lemma jax_pass_only_sample a files : forall self self',
  (forall f, In f files -> rsplit1_head "_" (s_name f) = a) ->
  only_sample a (data self) ->
  for_each parse_jax_trimmer_logs files self = (self', Ok tt) ->
  only_sample a (data self').
Proof.
  induction files as [|f files IH]; intros self self' Hn Hd H; simpl in H.
  - now injection H as <-.
  - destruct (parse_jax_trimmer_logs f self) as [self1 [[]|e]] eqn:E;
      [|discriminate].
    apply (IH self1 self'); auto.
    + intros; apply Hn; simpl; auto.
    + apply parse_jax_data in E. destruct E as (p & _ & ->).
      rewrite (Hn f (or_introl eq_refl)).
      destruct (0 <? len p)%nat; auto.
      right. exists p. now apply only_sample_set.
Qed.

(** Files that store nothing leave the mapping as it is. *)
Lemma jax_pass_nothing_stored files : forall self self',
  (forall f, In f files ->
     snd (jax_lines (splitlines (contents f)) empty new_module) = Ok []) ->
  for_each parse_jax_trimmer_logs files self = (self', Ok tt) ->
  data self' = data self.
Proof.
  induction files as [|f files IH]; intros self self' Hn H; simpl in H.
  - now injection H as <-.
  - destruct (parse_jax_trimmer_logs f self) as [self1 [[]|e]] eqn:E;
      [|discriminate].
    rewrite (IH self1 self') by (auto; intros; apply Hn; simpl; auto).
    apply parse_jax_data in E. destruct E as (p & Hp & ->).
    rewrite (Hn f (or_introl eq_refl)) in Hp. now injection Hp as <-.
Qed.

Local Opaque hisat2_regexes.



Local Transparent hisat2_regexes.

Section Order.
Variable cln : option string -> logfile -> string.
Variable t : tool.

Lemma parse_step_same f s1 s2 :
  same_content (data s1) (data s2) ->
  snd (parse_logs cln t f s1) = snd (parse_logs cln t f s2)
  /\ same_content (data (fst (parse_logs cln t f s1)))
       (data (fst (parse_logs cln t f s2))).
Proof.
  intros H. destruct (parse_logs_frame cln t f) as (ws & r & upd & Hf).
  rewrite !Hf. simpl. split; auto.
  intros s. rewrite !get_set_all, (H s). reflexivity.
Qed.

Lemma parse_pass_same files : forall s1 s2,
  same_content (data s1) (data s2) ->
  snd (for_each (parse_logs cln t) files s1)
  = snd (for_each (parse_logs cln t) files s2)
  /\ (snd (for_each (parse_logs cln t) files s1) = Ok tt ->
      same_content (data (fst (for_each (parse_logs cln t) files s1)))
        (data (fst (for_each (parse_logs cln t) files s2)))).
Proof.
  induction files as [|f files IH]; intros s1 s2 H; simpl; auto.
  destruct (@parse_step_same f s1 s2 H) as [Hr Hc].
  destruct (parse_logs cln t f s1) as [s1' [[]|e1]];
    destruct (parse_logs cln t f s2) as [s2' [[]|e2]]; simpl in *;
    try discriminate; auto.
Qed.

Lemma yielded_names_frame f ws r upd s :
  (forall self, parse_logs cln t f self
     = (set_pe_bool (upd (pe_bool self)) (after_store f ws self), r)) ->
  (In s (yielded_names cln t f) <-> last_write s ws <> None).
Proof.
  intros Hf. unfold yielded_names. rewrite Hf. simpl.
  rewrite <- mem_in_keys, mem_set_all, last_write_none.
  unfold mem. simpl.
  destruct (in_dec string_dec s (map fst ws)); intuition discriminate.
Qed.

Lemma parse_swap x y s1 s2 :
  (forall s, In s (yielded_names cln t x) ->
             ~ In s (yielded_names cln t y)) ->
  same_content (data s1) (data s2) ->
  snd (for_each (parse_logs cln t) [x; y] s1) = Ok tt ->
  snd (for_each (parse_logs cln t) [y; x] s2) = Ok tt
  /\ same_content (data (fst (for_each (parse_logs cln t) [x; y] s1)))
       (data (fst (for_each (parse_logs cln t) [y; x] s2))).
Proof.
  intros Hdis H. destruct (parse_logs_frame cln t x) as (wx & rx & ux & Hx).
  destruct (parse_logs_frame cln t y) as (wy & ry & uy & Hy).
  cbn [for_each]. rewrite (Hx s1), (Hy s2).
  destruct rx as [[]|ex]; [|discriminate]. rewrite Hy.
  destruct ry as [[]|ey]; [|discriminate]. rewrite Hx.
  intros _. split; [reflexivity|]. simpl.
  intros s. rewrite !get_set_all, (H s).
  pose proof (@yielded_names_frame x wx (Ok tt) ux s Hx) as Nx.
  pose proof (@yielded_names_frame y wy (Ok tt) uy s Hy) as Ny.
  specialize (Hdis s).
  destruct (last_write s wx) as [vx|], (last_write s wy) as [vy|]; auto.
  exfalso. apply Hdis; [apply Nx | apply Ny]; discriminate.
Qed.
End Order.

Lemma NoDup_app_disjoint (A : Type) (a b c : list A) :
  NoDup (a ++ b ++ c) -> forall s, In s a -> ~ In s b.
Proof.
  induction a as [|x a IH]; intros H s; simpl; [tauto|].
  inversion H as [|? ? Hnin Hnd]; subst. intros [<-|Hs].
  - intros Hb. apply Hnin. apply in_or_app. right. apply in_or_app. auto.
  - now apply IH.
Qed.

Lemma parse_pass_permutation cln t l l' :
  Permutation l l' ->
  forall s1 s2,
    same_content (data s1) (data s2) ->
    NoDup (flat_map (yielded_names cln t) l) ->
    snd (for_each (parse_logs cln t) l s1) = Ok tt ->
    snd (for_each (parse_logs cln t) l' s2) = Ok tt
    /\ same_content (data (fst (for_each (parse_logs cln t) l s1)))
         (data (fst (for_each (parse_logs cln t) l' s2))).
Proof.
  induction 1 as [|x l l' Hperm IH|x y l|l l' l'' H1 IH1 H2 IH2];
    intros s1 s2 Hc Hnd Hok.
  - simpl. auto.
  - destruct (@parse_step_same cln t x s1 s2 Hc) as [Hr Hc'].
    simpl in Hnd. apply NoDup_app_remove_l in Hnd.
    cbn [for_each] in *.
    destruct (parse_logs cln t x s1) as [s1' [[]|e1]];
      destruct (parse_logs cln t x s2) as [s2' [[]|e2]]; simpl in *;
      try discriminate.
    now apply IH.
  - change (y :: x :: l) with ([y; x] ++ l) in *.
    change (x :: y :: l) with ([x; y] ++ l).
    rewrite (@for_each_app logfile (parse_logs cln t) [y; x] l s1) in Hok |- *.
    rewrite (@for_each_app logfile (parse_logs cln t) [x; y] l s2).
    assert (Hdis : forall s, In s (yielded_names cln t y) ->
                             ~ In s (yielded_names cln t x)).
    { simpl in Hnd. exact (NoDup_app_disjoint _ _ _ Hnd). }
    assert (Hyx : snd (for_each (parse_logs cln t) [y; x] s1) = Ok tt).
    { destruct (for_each (parse_logs cln t) [y; x] s1) as [s [[]|e]];
        [reflexivity | discriminate]. }
    destruct (@parse_swap cln t y x s1 s2 Hdis Hc Hyx) as [Hxy Hc'].
    destruct (for_each (parse_logs cln t) [y; x] s1) as [sa [[]|ea]];
      [|discriminate].
    destruct (for_each (parse_logs cln t) [x; y] s2) as [sb [[]|eb]];
      [|discriminate].
    simpl in Hc'. destruct (@parse_pass_same cln t l sa sb Hc') as [Hr Hs].
    rewrite <- Hr. auto.
  - destruct (IH1 s1 s2 Hc Hnd Hok) as [Hok' Hc'].
    assert (Hnd' : NoDup (flat_map (yielded_names cln t) l')).
    { eapply Permutation_NoDup; [|exact Hnd].
      now apply Permutation_flat_map. }
    destruct (IH2 s2 s2 (fun s => eq_refl) Hnd' Hok') as [Hok'' Hc''].
    split; [exact Hok''|]. intros s. now rewrite (Hc' s), (Hc'' s).
Qed.

(** ** What [__init__] can raise *)

Lemma float_of_val_raises v e : float_of_val v = Raise e -> e = OverflowError.
Proof.
  destruct v as [z|x]; simpl; [|discriminate]. unfold float_of_int.
  destruct (binary_normalize prec emax z 0 false); congruence.
Qed.

Lemma halve_mates_raises ks : forall d d' e,
  halve_mates ks d = (d', Raise e) -> e = OverflowError.
Proof.
  induction ks as [|k ks IH]; intros d d' e H; simpl in H; [discriminate|].
  destruct (get k d) as [v|]; [|eauto].
  destruct (float_of_val v) as [x|e'] eqn:E; [eauto|].
  injection H as _ <-. eapply float_of_val_raises; eauto.
Qed.

Local Opaque m_keys.

Lemma split_se_pe_raises items : forall sedata pedata self self' e,
  split_se_pe items sedata pedata self = (self', Raise e) ->
  e = OverflowError /\ host self' = host self.
Proof.
  induction items as [|[s d] items IH]; intros sedata pedata self self' e H;
    simpl in H; [discriminate|].
  destruct (mem "paired_total" d).
  - destruct (halve_mates m_keys d) as [d' [[]|e']] eqn:Eh.
    + apply IH in H. exact H.
    + injection H as <- <-. split; [|reflexivity].
      eapply halve_mates_raises; eauto.
  - apply IH in H. exact H.
Qed.

Local Transparent m_keys.

Lemma for_each_raises (A : Type) (body : A -> module -> run unit) l :
  forall self self' e,
    for_each body l self = (self', Raise e) ->
    exists x s, In x l /\ body x s = (self', Raise e).
Proof.
  induction l as [|x l IH]; intros self self' e H; simpl in H;
    [discriminate|].
  destruct (body x self) as [s1 [[]|e1]] eqn:E.
  - apply IH in H. destruct H as (x' & s & Hin & H). exists x', s.
    simpl. auto.
  - injection H as <- <-. exists x, self. simpl. auto.
Qed.

(* ================================================================= *)
(** * The claims *)

(** C1 as stated fails: in the sample HISAT2 log the [paired_total] pattern
    matches a line, the one after the last rate line, and no record the log
    yields has the key. *)
Lemma C1_counterexample :
  let f := Samples.log_hisat2_two in
  let out := parse_hisat2_logs Samples.keep_name f new_module in
  snd out = Ok tt
  /\ matched_key hisat2_regexes (readlines (contents f)) "paired_total"
  /\ keys (data (fst out)) = ["a.fq"; "b.fq"]
  /\ forallb (fun kv => negb (mem "paired_total" (snd kv))) (data (fst out))
     = true.
Proof.
  split; [vm_compute; reflexivity|]. split; [|split; vm_compute; reflexivity].
  exists ("Total pairs: 3" ++ Samples.nl)%string,
         (RLit "Total pairs: " +++ RGroup 1 num).
  split; [|split].
  - vm_compute. tauto.
  - simpl. tauto.
  - vm_compute. reflexivity.
Qed.

(** C1 (as amended): a completed parse leaves a record whose keys are
    exactly these. In primerclip and coverage_metrics: the keys whose
    pattern matches some line of the file. In hisat2, where every rate line
    closes a record: [overall_alignment_rate] and the keys whose pattern
    matches some line of the segment the record closes. In jax_trimmer,
    where lines that contain [Read] are not scanned: the [_1] key of every
    one-column pattern that matches a scanned line before a marker line, and
    the [_1] and [_2] keys of every two-column pattern that matches a scanned
    line after one (nothing is said here of [reads_passing_1] and
    [reads_passing_2]). *)
Theorem C1_parsed_keys_are_matched_keys :
  forall (clean_s_name : option string -> logfile -> string)
         (f : logfile) (self self' : module),
    (parse_primerclip_logs f self = (self', Ok tt) ->
     exists parsed,
       self' = save_if_any f (str_remove "_primerclip_runstats" (s_name f))
                 parsed self
       /\ forall k, mem k parsed = true
                    <-> matched_key primerclip_regexes
                          (splitlines (contents f)) k)
    /\ (parse_coverage_metrics_logs f self = (self', Ok tt) ->
        exists parsed,
          self' = save_if_any f
                    (str_remove "_amplicon_coverage_metrics" (s_name f))
                    parsed self
          /\ forall k, mem k parsed = true
                       <-> matched_key coverage_metrics_regexes
                             (splitlines (contents f)) k)
    /\ (parse_jax_trimmer_logs f self = (self', Ok tt) ->
        exists parsed,
          self' = save_if_any f (rsplit1_head "_" (s_name f)) parsed
                    (set_pe_bool
                       (existsb is_marker (splitlines (contents f))) self)
          /\ forall k, k <> "reads_passing_1" -> k <> "reads_passing_2" ->
               (mem k parsed = true
                <-> jax_assigns (splitlines (contents f)) false k))
    /\ (forall body t st st',
          (forall l, In l body -> matches hisat2_overall l = false) ->
          matches hisat2_overall t = true ->
          hisat2_lines clean_s_name f (body ++ [t]) (st, empty) self
            = (self', Ok st') ->
          exists s rec,
            self' = save f s rec self
            /\ forall k, mem k rec = true
                         <-> k = "overall_alignment_rate"
                             \/ matched_key hisat2_regexes (body ++ [t]) k).
Proof.
  intros cln f self self'.
  assert (Hscan : forall regexes lines parsed k,
    scan_lines store_float regexes lines empty = Ok parsed ->
    (mem k parsed = true <-> matched_key regexes lines k)).
  { intros regexes lines parsed k Hs.
    rewrite (@scan_conv_keys (float_group 1) store_float
               (fun _ _ _ => eq_refl) regexes lines empty parsed k Hs).
    unfold matched_key, mem. simpl. intuition discriminate. }
  split; [|split; [|split]].
  - unfold parse_primerclip_logs. intros H.
    destruct (scan_lines _ _ _ _) as [parsed|e] eqn:Es; [|discriminate].
    injection H as <-. exists parsed. split; auto.
  - unfold parse_coverage_metrics_logs. intros H.
    destruct (scan_lines _ _ _ _) as [parsed|e] eqn:Es; [|discriminate].
    injection H as <-. exists parsed. split; auto.
  - intros H. apply parse_jax_trimmer_logs_spec in H.
    destruct H as (parsed & Hs & Hk). exists parsed. split; auto.
  - intros body t st st' Hb Ht H.
    destruct (@hisat2_segment cln f body t _ self self' st' Hb Ht H)
      as (s & p & v & m & _ & _ & Hs & -> & _).
    exists s, (set "overall_alignment_rate" v p). split; [reflexivity|].
    intros k. rewrite mem_set, orb_true_iff, String.eqb_eq.
    simpl in Hs.
    rewrite (@scan_conv_keys (int_group 1) store_int
               (fun _ _ _ => eq_refl) _ _ empty p k Hs).
    unfold matched_key, mem. simpl. intuition (discriminate || auto).
Qed.

Lemma C1_witness :
  let f := Samples.log_jax_pe in
  let reads n := ("Total reads: " ++ n ++ Samples.nl)%string in
  let seg := [reads "3"; reads "7"; (rate_line ++ Samples.nl)%string] in
  (* jax_trimmer: a paired-end log *)
  snd (parse_jax_trimmer_logs f new_module) = Ok tt
  /\ splitlines (contents f)
     = ["Statistic Read 1 Read 2"] ++ "Total number of reads 120 110"
         :: ["Reads passing filter 100 90"; "Max Trimmed Length 150 140"]
  /\ (exists parsed,
        fst (parse_jax_trimmer_logs f new_module)
        = save_if_any f "P1" parsed (set_pe_bool true new_module)
        /\ mem "total_reads_1" parsed = true
        /\ mem "total_reads_2" parsed = true
        /\ mem "perc_hq_1" parsed = false)
  (* primerclip *)
  /\ (exists parsed,
        fst (parse_primerclip_logs Samples.log_primerclip new_module)
        = save_if_any Samples.log_primerclip "S1" parsed new_module
        /\ mem "total_alignments" parsed = true
        /\ mem "trimmed_to_zero" parsed = false)
  (* hisat2: one segment *)
  /\ (exists s rec,
        fst (hisat2_lines Samples.keep_name Samples.log_blank seg
               ("run", empty) new_module)
        = save Samples.log_blank s rec new_module
        /\ mem "overall_alignment_rate" rec = true
        /\ mem "unpaired_total" rec = true
        /\ mem "paired_total" rec = false).
Proof.
  intros f reads seg. split; [vm_compute; reflexivity|].
  assert (Hl : splitlines (contents f)
     = ["Statistic Read 1 Read 2"] ++ "Total number of reads 120 110"
         :: ["Reads passing filter 100 90"; "Max Trimmed Length 150 140"]).
  { vm_compute. reflexivity. }
  split; [exact Hl|]. split; [|split].
  - destruct (@C1_parsed_keys_are_matched_keys Samples.keep_name f new_module
                (fst (parse_jax_trimmer_logs f new_module)))
      as (_ & _ & H & _).
    destruct H as (parsed & Hs0 & Hk); [vm_compute; reflexivity|].
    assert (Hs : fst (parse_jax_trimmer_logs f new_module)
                 = save_if_any f "P1" parsed (set_pe_bool true new_module))
      by exact Hs0.
    assert (Ha : forall k, In k (keys_pe "total_reads") ->
                           jax_assigns (splitlines (contents f)) false k).
    { intros k Hin. rewrite Hl.
      exists ["Statistic Read 1 Read 2"], "Total number of reads 120 110",
        ["Reads passing filter 100 90"; "Max Trimmed Length 150 140"],
        "total_reads",
        (RLit "Total number of reads" +++ spaces +++ RGroup 1 num
           +++ spaces +++ RGroup 2 num).
      split; [reflexivity|]. split; [vm_compute; reflexivity|].
      split; [vm_compute; reflexivity|].
      change (false || existsb is_marker ["Statistic Read 1 Read 2"])
        with true.
      cbv iota. split; [simpl; tauto | exact Hin]. }
    exists parsed. split; [exact Hs|]. split; [|split].
    + apply Hk; [discriminate | discriminate | apply Ha; simpl; auto].
    + apply Hk; [discriminate | discriminate | apply Ha; simpl; auto].
    + assert (Hd : data (fst (parse_jax_trimmer_logs f new_module))
                   = data (save_if_any f "P1" parsed
                             (set_pe_bool true new_module)))
        by now rewrite <- Hs.
      unfold save_if_any in Hd. destruct parsed as [|kv parsed].
      * vm_compute in Hd. discriminate.
      * vm_compute in Hd. injection Hd as <- <-. reflexivity.
  - destruct (@C1_parsed_keys_are_matched_keys Samples.keep_name
                Samples.log_primerclip new_module
                (fst (parse_primerclip_logs Samples.log_primerclip
                        new_module))) as (H & _).
    destruct H as (parsed & Hs & Hk); [vm_compute; reflexivity|].
    exists parsed. split; [exact Hs|]. split.
    + apply Hk. exists total_line,
        (RLit "Total alignments processed:" +++ spaces +++ RGroup 1 num).
      split; [vm_compute; tauto|].
      split; [simpl; tauto | vm_compute; reflexivity].
    + destruct (mem "trimmed_to_zero" parsed) eqn:E; [|reflexivity].
      apply Hk in E. destruct E as (l & r & Hl' & Hin & Hm).
      in_table Hin. injection Hin as <-.
      vm_compute in Hl'. destruct Hl' as [<-|[<-|[]]];
        vm_compute in Hm; discriminate.
  - destruct (@C1_parsed_keys_are_matched_keys Samples.keep_name
                Samples.log_blank new_module
                (fst (hisat2_lines Samples.keep_name Samples.log_blank seg
                        ("run", empty) new_module))) as (_ & _ & _ & H).
    destruct (H [reads "3"; reads "7"] (rate_line ++ Samples.nl)%string "run"
                match snd (hisat2_lines Samples.keep_name Samples.log_blank
                             seg ("run", empty) new_module) with
                | Ok st' => st'
                | Raise _ => ("", empty)
                end) as (s & rec & Hs & Hk).
    + intros l' [<-|[<-|[]]]; vm_compute; reflexivity.
    + vm_compute. reflexivity.
    + vm_compute. reflexivity.
    + exists s, rec. split; [exact Hs|]. split; [|split].
      * apply Hk. left. reflexivity.
      * apply Hk. right. exists (reads "7"),
          (RLit "Total" +++ ROpt (RLit " unpaired") +++ RLit " reads: "
             +++ RGroup 1 num).
        split; [simpl; tauto|].
        split; [simpl; tauto | vm_compute; reflexivity].
      * destruct (mem "paired_total" rec) eqn:E; [|reflexivity].
        apply Hk in E. destruct E as [E|(l & r & Hl' & Hin & Hm)];
          [discriminate|].
        in_table Hin. injection Hin as <-.
        simpl in Hl'. destruct Hl' as [<-|[<-|[<-|[]]]];
          vm_compute in Hm; discriminate.
Defined.

(** C2 as stated fails: the first line of the sample coverage log that the
    [on_target_percent] pattern matches captures 91.5, a later one captures
    93, and the record holds 93.0. *)
Lemma C2_counterexample :
  let r := RLit "on_target_percent" +++ spaces +++ RGroup 1 decimal in
  let out := fst (parse_coverage_metrics_logs Samples.log_coverage
                    new_module) in
  In ("on_target_percent", r) coverage_metrics_regexes
  /\ splitlines (contents Samples.log_coverage)
     = ["on_target_percent 91.5"; "coverage_uniformity 88";
        "on_target_percent 93"]
  /\ search r "on_target_percent 91.5" = Some [(1%nat, "91.5")]
  /\ float_group 1 [(1%nat, "91.5")] = Ok (PyFloat float_91_5)
  /\ (exists rec, get "S1" (data out) = Some rec
                  /\ get "on_target_percent" rec = Some (PyFloat float_93))
  /\ float_93 <> float_91_5.
Proof.
  repeat split; try (vm_compute; reflexivity).
  - simpl. auto.
  - eexists. vm_compute. split; reflexivity.
  - discriminate.
Qed.

(** C2 (as amended): the value a completed parse stores under a metric key
    is the conversion of the capture on the LAST line that the key's pattern
    matches: an earlier matching line is overwritten. In primerclip and
    coverage_metrics the lines are those of the file; in hisat2 they are
    those of the segment the record closes, the rate line included; in
    jax_trimmer they are the scanned lines (those without [Read]), each
    matched by the pattern the metric has in the table in force at that
    line: the one-column table before a line with [Read 2], the two-column
    table after it. *)
Theorem C2_last_matching_line_wins :
  forall (clean_s_name : option string -> logfile -> string)
         (f : logfile) (self self' : module)
         (pre : list string) (l : string) (post : list string)
         (k : string) (r : regex) (m : rmatch),
    search r l = Some m ->
    (In (k, r) primerclip_regexes ->
     splitlines (contents f) = pre ++ l :: post ->
     (forall l', In l' post -> matches r l' = false) ->
     parse_primerclip_logs f self = (self', Ok tt) ->
     exists rec v,
       get (str_remove "_primerclip_runstats" (s_name f)) (data self')
         = Some rec
       /\ float_group 1 m = Ok v /\ get k rec = Some v)
    /\ (In (k, r) coverage_metrics_regexes ->
        splitlines (contents f) = pre ++ l :: post ->
        (forall l', In l' post -> matches r l' = false) ->
        parse_coverage_metrics_logs f self = (self', Ok tt) ->
        exists rec v,
          get (str_remove "_amplicon_coverage_metrics" (s_name f))
            (data self') = Some rec
          /\ float_group 1 m = Ok v /\ get k rec = Some v)
    /\ (In (k, r) hisat2_regexes ->
        (forall l', In l' post -> matches r l' = false) ->
        forall body t st st',
          pre ++ l :: post = body ++ [t] ->
          (forall l', In l' body -> matches hisat2_overall l' = false) ->
          matches hisat2_overall t = true ->
          hisat2_lines clean_s_name f (body ++ [t]) (st, empty) self
            = (self', Ok st') ->
          exists s rec v,
            self' = save f s rec self
            /\ get s (data self') = Some rec
            /\ int_group 1 m = Ok v /\ get k rec = Some v)
    /\ (In (k, r) (jax_table (existsb is_marker pre)) ->
        splitlines (contents f) = pre ++ l :: post ->
        str_in "Read" l = false ->
        (forall post1 l' post2 r',
           post = post1 ++ l' :: post2 ->
           str_in "Read" l' = false ->
           In (k, r') (jax_table (existsb is_marker (pre ++ l :: post1))) ->
           matches r' l' = false) ->
        parse_jax_trimmer_logs f self = (self', Ok tt) ->
        exists rec v,
          get (rsplit1_head "_" (s_name f)) (data self') = Some rec
          /\ float_group 1 m = Ok v
          /\ get (k ++ "_1")%string rec = Some v
          /\ (existsb is_marker pre = true ->
              exists v2, float_group 2 m = Ok v2
                         /\ get (k ++ "_2")%string rec = Some v2)).
Proof.
  intros cln f self self' pre l post k r m Hm.
  split; [|split; [|split]].
  - intros Hin Hlines Hpost H. unfold parse_primerclip_logs in H.
    rewrite Hlines in H.
    destruct (scan_lines _ _ _ _) as [parsed|e] eqn:Es; [|discriminate].
    destruct (@scan_conv_last (float_group 1) store_float
                (fun _ _ _ => eq_refl) _ pre l post empty parsed k r m
                NoDup_primerclip Hin Hm Hpost Es) as (v & Hv & Hg).
    injection H as <-. exists parsed, v. repeat split; auto.
    unfold save_if_any. rewrite (get_some_len_pos _ _ Hg).
    apply get_set_same.
  - intros Hin Hlines Hpost H. unfold parse_coverage_metrics_logs in H.
    rewrite Hlines in H.
    destruct (scan_lines _ _ _ _) as [parsed|e] eqn:Es; [|discriminate].
    destruct (@scan_conv_last (float_group 1) store_float
                (fun _ _ _ => eq_refl) _ pre l post empty parsed k r m
                NoDup_coverage_metrics Hin Hm Hpost Es) as (v & Hv & Hg).
    injection H as <-. exists parsed, v. repeat split; auto.
    unfold save_if_any. rewrite (get_some_len_pos _ _ Hg).
    apply get_set_same.
  - intros Hin Hpost body t st st' Hseg Hbody Ht H.
    destruct (@hisat2_segment cln f body t _ self self' st' Hbody Ht H)
      as (s & p & v0 & m0 & _ & _ & Hs & -> & _).
    simpl in Hs. rewrite <- Hseg in Hs.
    destruct (@scan_conv_last (int_group 1) store_int
                (fun _ _ _ => eq_refl) _ pre l post empty p k r m
                NoDup_hisat2 Hin Hm Hpost Hs) as (v & Hv & Hg).
    exists s, (set "overall_alignment_rate" v0 p), v.
    split; [reflexivity|]. split; [apply get_set_same|]. split; auto.
    rewrite get_set_other; auto.
    intros E. symmetry in E. revert E. eapply hisat2_key_not_rate; eauto.
  - intros Hin Hlines Hn Hlater H. unfold parse_jax_trimmer_logs in H.
    destruct (jax_lines _ _ _) as [self1 [parsed|e]] eqn:E; [|discriminate].
    injection H as <-. apply jax_lines_writes in E.
    destruct E as (ws & Hw & -> & ->). cbn [pe_bool set_pe_bool] in Hw.
    rewrite Hlines in Hw.
    assert (Hlast : forall k', In k' (jax_mode_keys (existsb is_marker pre) k) ->
              exists kvs,
                jax_mode_writes (existsb is_marker pre) k m = Ok kvs
                /\ last_write k' ws = last_write k' kvs).
    { intros k' Hk'.
      apply (@jax_writes_last_in_force pre false l post ws k r m k'); auto. }
    assert (Hget : forall k' v, last_write k' ws = Some v ->
              get (rsplit1_head "_" (s_name f))
                (data (save_if_any f (rsplit1_head "_" (s_name f))
                         (set_all ws empty)
                         (set_pe_bool (false || existsb is_marker (splitlines (contents f)))
                            (set_pe_bool false self))))
              = Some (set_all ws empty)
              /\ get k' (set_all ws empty) = Some v).
    { intros k' v Hv.
      assert (Hg : get k' (set_all ws empty) = Some v)
        by now rewrite get_set_all, Hv.
      split; auto. unfold save_if_any.
      rewrite (get_some_len_pos _ _ Hg). apply get_set_same. }
    exists (set_all ws empty).
    destruct (existsb is_marker pre) eqn:Eb; cbn [jax_mode_keys jax_mode_writes] in Hlast.
    + destruct (Hlast (k ++ "_1")%string) as (kvs & Hkvs & Hl);
        [simpl; auto|].
      unfold writes_pe in Hkvs.
      destruct (float_group 1 m) as [v1|e] eqn:E1; [|discriminate].
      destruct (float_group 2 m) as [v2|e] eqn:E2; [|discriminate].
      injection Hkvs as <-.
      assert (Hne : ((k ++ "_2") =? (k ++ "_1"))%string = false).
      { apply String.eqb_neq. intros E.
        apply append_same_length in E; [|reflexivity].
        destruct E as [_ E]. discriminate. }
      cbn [last_write] in Hl. rewrite Hne, String.eqb_refl in Hl.
      destruct (Hget _ _ Hl) as [Hg1 Hg2].
      exists v1. repeat split; auto.
      intros _. exists v2. split; auto.
      destruct (Hlast (k ++ "_2")%string) as (kvs & Hkvs & Hl2);
        [simpl; auto|].
      unfold writes_pe in Hkvs. rewrite E1, E2 in Hkvs.
      injection Hkvs as <-.
      cbn [last_write] in Hl2. rewrite String.eqb_refl in Hl2.
      now destruct (Hget _ _ Hl2).
    + destruct (Hlast (k ++ "_1")%string) as (kvs & Hkvs & Hl);
        [simpl; auto|].
      unfold writes_se in Hkvs.
      destruct (float_group 1 m) as [v1|e]; [|discriminate].
      injection Hkvs as <-.
      cbn [last_write] in Hl. rewrite String.eqb_refl in Hl.
      destruct (Hget _ _ Hl) as [Hg1 Hg2].
      exists v1. repeat split; auto. discriminate.
Qed.

Lemma C2_witness :
  let r := RLit "on_target_percent" +++ spaces +++ RGroup 1 decimal in
  let reads n := ("Total reads: " ++ n ++ Samples.nl)%string in
  let seg := [reads "3"; reads "7"; (rate_line ++ Samples.nl)%string] in
  let jax := Samples.mk_log "P2_stat" "P2_stat"
               ("x Read 2" ++ Samples.nl
                ++ "Total number of reads 120 110" ++ Samples.nl
                ++ "Total number of reads 5" ++ Samples.nl) in
  (* coverage_metrics: 91.5 on the first line, 93 on the last *)
  search r "on_target_percent 93" = Some [(1%nat, "93")]
  /\ splitlines (contents Samples.log_coverage)
     = ["on_target_percent 91.5"; "coverage_uniformity 88"]
         ++ "on_target_percent 93" :: []
  /\ (exists rec,
        get "S1" (data (fst (parse_coverage_metrics_logs Samples.log_coverage
                               new_module))) = Some rec
        /\ get "on_target_percent" rec = Some (PyFloat float_93))
  (* hisat2: two counts in one segment, the second one is kept *)
  /\ (exists s rec,
        fst (hisat2_lines Samples.keep_name Samples.log_blank seg
               ("run", empty) new_module)
        = save Samples.log_blank s rec new_module
        /\ get "unpaired_total" rec = Some (PyInt 7))
  (* jax_trimmer: a two-column line after the marker, then a line that only
     the one-column pattern matches *)
  /\ matches (RLit "Total number of reads" +++ spaces +++ RGroup 1 num)
       "Total number of reads 5" = true
  /\ (exists rec,
        get "P2" (data (fst (parse_jax_trimmer_logs jax new_module)))
          = Some rec
        /\ get "total_reads_1" rec = py_val (py_float "120")
        /\ get "total_reads_2" rec = py_val (py_float "110")).
Proof.
  intros r reads seg jax.
  split; [vm_compute; reflexivity|]. split; [vm_compute; reflexivity|].
  split; [|split; [|split; [vm_compute; reflexivity|]]].
  - destruct (@C2_last_matching_line_wins Samples.keep_name
                Samples.log_coverage new_module
                (fst (parse_coverage_metrics_logs Samples.log_coverage
                        new_module))
                ["on_target_percent 91.5"; "coverage_uniformity 88"]
                "on_target_percent 93" [] "on_target_percent" r
                [(1%nat, "93")]) as (_ & H & _).
    + vm_compute. reflexivity.
    + destruct H as (rec & v & Hg & Hv & Hk).
      * simpl. auto.
      * vm_compute. reflexivity.
      * intros l' [].
      * vm_compute. reflexivity.
      * exists rec. split; [exact Hg|]. rewrite Hk.
        vm_compute in Hv. injection Hv as <-. reflexivity.
  - destruct (@C2_last_matching_line_wins Samples.keep_name
                Samples.log_blank new_module
                (fst (hisat2_lines Samples.keep_name Samples.log_blank seg
                        ("run", empty) new_module))
                [reads "3"] (reads "7") [(rate_line ++ Samples.nl)%string]
                "unpaired_total"
                (RLit "Total" +++ ROpt (RLit " unpaired") +++ RLit " reads: "
                   +++ RGroup 1 num)
                [(1%nat, "7")]) as (_ & _ & H & _).
    + vm_compute. reflexivity.
    + destruct (H (or_introl eq_refl)) with
        (body := [reads "3"; reads "7"])
        (t := (rate_line ++ Samples.nl)%string) (st := "run")
        (st' := match snd (hisat2_lines Samples.keep_name Samples.log_blank
                             seg ("run", empty) new_module) with
                | Ok st' => st'
                | Raise _ => ("", empty)
                end) as (s & rec & v & Hs & _ & Hv & Hk).
      * intros l' [<-|[]]. vm_compute. reflexivity.
      * reflexivity.
      * intros l' [<-|[<-|[]]]; vm_compute; reflexivity.
      * vm_compute. reflexivity.
      * vm_compute. reflexivity.
      * exists s, rec. split; [exact Hs|]. rewrite Hk.
        vm_compute in Hv. injection Hv as <-. reflexivity.
  - destruct (@C2_last_matching_line_wins Samples.keep_name
                jax new_module
                (fst (parse_jax_trimmer_logs jax new_module))
                ["x Read 2"] "Total number of reads 120 110"
                ["Total number of reads 5"]
                "total_reads"
                (RLit "Total number of reads" +++ spaces +++ RGroup 1 num
                   +++ spaces +++ RGroup 2 num)
                [(2%nat, "110"); (1%nat, "120")]) as (_ & _ & _ & H).
    + vm_compute. reflexivity.
    + destruct H as (rec & v & Hg & Hv & Hk1 & Hk2).
      * simpl. tauto.
      * vm_compute. reflexivity.
      * vm_compute. reflexivity.
      * intros post1 l' post2 r' Hp Hr Hin.
        destruct post1 as [|x post1]; simpl in Hp.
        -- injection Hp as <- _. in_table Hin. injection Hin as <-.
           vm_compute. reflexivity.
        -- injection Hp as _ Hp. destruct post1; discriminate.
      * vm_compute. reflexivity.
      * exists rec. split; [exact Hg|]. split.
        -- simpl in Hk1. rewrite Hk1. vm_compute in Hv.
           injection Hv as <-. reflexivity.
        -- destruct Hk2 as (v2 & Hv2 & Hk2); [vm_compute; reflexivity|].
           simpl in Hk2. rewrite Hk2. vm_compute in Hv2.
           injection Hv2 as <-. reflexivity.
Defined.

(** C3: when the parse pass ends with an empty per-sample mapping,
    [__init__] raises the no-samples signal of the module ([UserWarning],
    [ModuleNoSamplesFound] for hisat2) and the host has received no data
    file, no general-statistics columns and no plot section. *)
Theorem C3_empty_mapping_raises_no_samples :
  forall (sample_ignored : string -> bool)
         (clean_s_name : option string -> logfile -> string)
         (t : tool) (files : list logfile) (self : module),
    parse_pass clean_s_name t files = (self, Ok tt) ->
    data self = [] ->
    snd (module_init sample_ignored clean_s_name t files)
      = Raise (no_samples_signal t)
    /\ contributions
         (host (fst (module_init sample_ignored clean_s_name t files))) = [].
Proof.
  intros ign cln t files self Hp Hd.
  assert (Hi : ignore_samples ign (data self) = []) by now rewrite Hd.
  rewrite (init_no_samples ign cln t files Hp Hi). simpl. split; auto.
  pose proof (parse_pass_contributions cln t files) as Hc.
  now rewrite Hp in Hc.
Qed.

Lemma C3_witness :
  parse_pass Samples.keep_name Hisat2 [Samples.log_blank]
    = (new_module, Ok tt)
  /\ data new_module = []
  /\ snd (module_init Samples.ignore_none Samples.keep_name Hisat2
            [Samples.log_blank]) = Raise ModuleNoSamplesFound
  /\ contributions
       (host (fst (module_init Samples.ignore_none Samples.keep_name Hisat2
                     [Samples.log_blank]))) = [].
Proof.
  split; [vm_compute; reflexivity|]. split; [reflexivity|].
  apply (@C3_empty_mapping_raises_no_samples Samples.ignore_none
           Samples.keep_name Hisat2 [Samples.log_blank] new_module).
  - vm_compute; reflexivity.
  - reflexivity.
Defined.

(** C4: what a file stores and how its parse ends do not depend on what the
    mapping already holds: parsing [f] into any mapping ends as parsing it
    into an empty one does (a name that is already present raises nothing),
    every sample name the file yields then maps to the record the file
    yields for it, whatever record it had, and every other name keeps its
    record; the sample names stay pairwise distinct after each parse step
    and after the whole pass. *)
Theorem C4_duplicate_sample_overwrites :
  forall (clean_s_name : option string -> logfile -> string)
         (t : tool) (f : logfile) (files : list logfile) (self : module),
    wf (data self) ->
    snd (parse_logs clean_s_name t f self)
      = snd (parse_logs clean_s_name t f new_module)
    /\ (forall s rec,
          get s (data (fst (parse_logs clean_s_name t f new_module)))
            = Some rec ->
          get s (data (fst (parse_logs clean_s_name t f self))) = Some rec)
    /\ (forall s,
          get s (data (fst (parse_logs clean_s_name t f new_module))) = None ->
          get s (data (fst (parse_logs clean_s_name t f self)))
            = get s (data self))
    /\ wf (data (fst (parse_logs clean_s_name t f self)))
    /\ wf (data (fst (parse_pass clean_s_name t files))).
Proof.
  intros cln t f files self Hwf.
  destruct (parse_logs_frame cln t f) as (ws & r & upd & Hf).
  rewrite !Hf. simpl.
  split; [reflexivity|]. split; [|split; [|split]].
  - intros s rec. rewrite !get_set_all. simpl.
    destruct (last_write s ws); [auto|discriminate].
  - intros s. rewrite !get_set_all. simpl.
    destruct (last_write s ws); [discriminate|auto].
  - now apply wf_set_all.
  - apply wf_after_for_each. constructor.
Qed.

Lemma C4_witness :
  let old := [("S1", [("total_alignments", PyInt 1)])] in
  let self := set_data old new_module in
  wf (data self)
  /\ get "S1" (data self) = Some [("total_alignments", PyInt 1)]
  /\ snd (parse_logs Samples.keep_name Primerclip Samples.log_primerclip self)
     = Ok tt
  /\ exists rec,
       get "S1" (data (fst (parse_logs Samples.keep_name Primerclip
                              Samples.log_primerclip new_module))) = Some rec
       /\ get "S1" (data (fst (parse_logs Samples.keep_name Primerclip
                                 Samples.log_primerclip self))) = Some rec
       /\ rec <> [("total_alignments", PyInt 1)].
Proof.
  intros old self.
  assert (Hwf : wf (data self)).
  { repeat constructor. simpl. tauto. }
  destruct (@C4_duplicate_sample_overwrites Samples.keep_name Primerclip
              Samples.log_primerclip [] self Hwf) as (H1 & H2 & _).
  split; [exact Hwf|]. split; [reflexivity|]. split.
  - rewrite H1. vm_compute. reflexivity.
  - eexists. split; [vm_compute; reflexivity|]. split.
    + apply H2. vm_compute. reflexivity.
    + discriminate.
Defined.

(** C5 as stated fails: the rate pattern matches the line
    [Overall alignment rate: 1.2.3%], capturing [1.2.3], and [float] rejects
    the capture: the line raises [ValueError], and neither is a record stored
    nor the accumulator reset. *)
Lemma C5_counterexample :
  let line := "Overall alignment rate: 1.2.3%" in
  let acc := [("unpaired_total", PyInt 7)] in
  search hisat2_overall line = Some [(1%nat, "1.2.3")]
  /\ py_float "1.2.3" = Raise ValueError
  /\ hisat2_line Samples.keep_name Samples.log_blank line ("run", acc)
       new_module = (new_module, Raise ValueError)
  /\ data new_module = [].
Proof. repeat split; vm_compute; reflexivity. Qed.

(** C5 (as amended): in hisat2 a line that holds an overall alignment rate
    closes the current record when its conversions succeed. The line
    [Overall alignment rate: 97.5%] (with or without its line feed), read in
    any state, stores the accumulated record with
    [overall_alignment_rate = 97.5] under the current sample name and resets
    the sample name to the file's and the accumulator to the empty mapping.
    Any line the rate pattern matches has a capture; when [int] converts the
    counts of the line and [float] the capture, the line stores the
    accumulator, with those counts and with [overall_alignment_rate] set to
    that float, under the current name (the one a [hisat2] command on the
    same line gives, else the one held) and resets name and accumulator;
    otherwise it raises [ValueError] and leaves the module object as it
    was. A log read to its end has saved one record per such line. *)
Theorem C5_hisat2_rate_line_closes_record :
  forall (clean_s_name : option string -> logfile -> string)
         (f : logfile) (sample : string) (parsed_data : record)
         (self : module),
    (forall line, line = rate_line \/ line = (rate_line ++ Samples.nl)%string ->
       hisat2_line clean_s_name f line (sample, parsed_data) self
       = (save f sample
            (set "overall_alignment_rate" (PyFloat float_97_5) parsed_data)
            self,
          Ok (s_name f, empty)))
    /\ (forall line m,
          search hisat2_overall line = Some m ->
          exists s,
            group 1 m = Some s
            /\ match scan_regexes store_int hisat2_regexes line parsed_data,
                     py_float s with
               | Ok counted, Ok x =>
                   hisat2_line clean_s_name f line (sample, parsed_data) self
                   = (save f
                        match search hisat2_command line with
                        | Some hscmd => clean_s_name (group 1 hscmd) f
                        | None => sample
                        end
                        (set "overall_alignment_rate" (PyFloat x) counted)
                        self,
                      Ok (s_name f, empty))
               | _, _ =>
                   hisat2_line clean_s_name f line (sample, parsed_data) self
                   = (self, Raise ValueError)
               end)
    /\ (forall lines self' st',
          hisat2_lines clean_s_name f lines (sample, parsed_data) self
            = (self', Ok st') ->
          List.length (host self') =
          (List.length (host self)
           + List.length (filter (matches hisat2_overall) lines))%nat).
Proof.
  intros cln f s0 p0 self. split; [|split].
  - assert (Hgo : forall line,
      search hisat2_command line = None ->
      forallb (fun kr => negb (matches (snd kr) line)) hisat2_regexes = true ->
      search hisat2_overall line = Some [(1, "97.5")] ->
      hisat2_line cln f line (s0, p0) self
      = (save f s0 (set "overall_alignment_rate" (PyFloat float_97_5) p0) self,
         Ok (s_name f, empty))).
    { intros line Hc Hs Ho. unfold hisat2_line.
      rewrite Hc, (scan_regexes_no_match store_int _ _ p0 Hs), Ho.
      reflexivity. }
    intros line [->| ->]; apply Hgo; vm_compute; reflexivity.
  - intros line m Hm.
    destruct (@table_group_capture 1 _ _ _ _ line m overall_group1
                (or_introl eq_refl) Hm)
      as (g & a & b & c & c' & _ & _ & Hg).
    eexists. split; [exact Hg|]. unfold hisat2_line.
    destruct (scan_regexes store_int hisat2_regexes line p0) as [p1|e]
      eqn:Es.
    + rewrite Hm. unfold float_group. rewrite Hg.
      destruct (py_float _) as [x|e] eqn:Ef; simpl; [reflexivity|].
      now rewrite (py_float_raises _ Ef).
    + apply scan_regexes_raise in Es.
      destruct Es as (k & r & m0 & p' & Hin & Hs & E).
      apply store_int_raises in E.
      now rewrite (proj1 (@int_group_raises _ k r line m0 e hisat2_group1
                            Hin Hs E)).
  - intros lines self' st'. apply hisat2_lines_count.
Qed.

Lemma C5_witness :
  let out := parse_hisat2_logs Samples.keep_name Samples.log_hisat2_two
               new_module in
  snd out = Ok tt
  /\ keys (data (fst out)) = ["a.fq"; "b.fq"]
  /\ List.length (host (fst out)) = 2%nat
  /\ (exists rec,
        get "a.fq" (data (fst out)) = Some rec
        /\ get "overall_alignment_rate" rec = Some (PyFloat float_97_5)
        /\ get "unpaired_total" rec = Some (PyInt 7)).
Proof.
  intros out.
  destruct (@C5_hisat2_rate_line_closes_record Samples.keep_name
              Samples.log_hisat2_two "H2" empty new_module) as (_ & _ & H).
  split; [vm_compute; reflexivity|]. split; [vm_compute; reflexivity|]. split.
  - unfold out, parse_hisat2_logs.
    destruct (hisat2_lines _ _ _ _ _) as [self' [st'|e]] eqn:E.
    + cbn [fst]. rewrite (H _ _ _ E). vm_compute. reflexivity.
    + vm_compute in E. discriminate.
  - eexists. vm_compute. repeat split.
Defined.

(** C6 (where the code departs from it): a paired-end log followed by a
    single-end log. The paired-end log has a marker line and, after it, a
    line that the two-column [reads_passing] pattern matches; yet its record
    has neither [reads_passing_1] nor [reads_passing_2], because the line
    contains [Read] and is skipped. The record does hold [_2] keys, but
    [pe_bool] is reset by the single-end log parsed last, so the
    general-statistics call gets the six [_1] headers only; with the two
    logs in the other order it gets the [_2] headers too. The [_2] value of
    [max_trim_len] is the first column again (150, not 140): group 2 of
    that pattern is nested in group 1. *)
Theorem C6_paired_headers_follow_last_file :
  let pe := Samples.log_jax_pe in
  let se := Samples.log_jax_se in
  let init := module_init Samples.ignore_none Samples.keep_name JaxTrimmer in
  existsb is_marker (splitlines (contents pe)) = true
  /\ existsb is_marker (splitlines (contents se)) = false
  /\ splitlines (contents pe)
     = ["Statistic Read 1 Read 2"; "Total number of reads 120 110";
        "Reads passing filter 100 90"; "Max Trimmed Length 150 140"]
  /\ matched_key jax_regexes ["Reads passing filter 100 90"] "reads_passing"
  /\ snd (init [pe; se]) = Ok tt
  /\ (exists rec,
        get "P1" (data (fst (init [pe; se]))) = Some rec
        /\ mem "reads_passing_1" rec = false
        /\ mem "reads_passing_2" rec = false
        /\ mem "total_reads_2" rec = true
        /\ get "max_trim_len_1" rec = Some (PyFloat float_150)
        /\ get "max_trim_len_2" rec = Some (PyFloat float_150))
  /\ pe_bool (fst (init [pe; se])) = false
  /\ last (host (fst (init [pe; se]))) AddSoftwareVersion
     = GeneralStatsAddcols (data (fst (init [pe; se]))) jax_headers_1
  /\ last (host (fst (init [se; pe]))) AddSoftwareVersion
     = GeneralStatsAddcols (data (fst (init [se; pe])))
         (jax_headers_1 ++ jax_headers_2).
Proof.
  repeat split; try (vm_compute; reflexivity).
  - exists "Reads passing filter 100 90",
      (RLit "Reads passing filter" +++ spaces +++ RGroup 1 num
         +++ spaces +++ RGroup 2 num).
    split; [simpl; auto|]. split; [simpl; tauto | vm_compute; reflexivity].
  - eexists. vm_compute. repeat split.
Qed.




(** C8 as stated fails: a log with the line, followed by a line that gives
    another total, is stored with the later total; and a log with the line,
    followed by a percentage that is no number, raises and stores nothing. *)
Lemma C8_counterexample :
  let later := Samples.mk_log "S1.log" "S1"
                 (total_line ++ Samples.nl
                  ++ "Total alignments processed: 5" ++ Samples.nl) in
  let broken := Samples.mk_log "S2.log" "S2"
                  (total_line ++ Samples.nl
                   ++ "% Alignments mapped after trimming: 9x9"
                   ++ Samples.nl) in
  In total_line (splitlines (contents later))
  /\ snd (parse_primerclip_logs later new_module) = Ok tt
  /\ (exists rec,
        get "S1" (data (fst (parse_primerclip_logs later new_module)))
          = Some rec
        /\ get "total_alignments" rec = py_val (py_float "5"))
  /\ py_val (py_float "5") <> Some (PyFloat float_1000)
  /\ In total_line (splitlines (contents broken))
  /\ parse_primerclip_logs broken new_module
     = (new_module, Raise ValueError).
Proof.
  intros later broken.
  split; [vm_compute; tauto|]. split; [vm_compute; reflexivity|].
  split; [eexists; vm_compute; split; reflexivity|].
  split; [vm_compute; discriminate|].
  split; [vm_compute; tauto | vm_compute; reflexivity].
Qed.

(** C8 (as amended): in primerclip, a log with the line
    [Total alignments processed:    1000] and no later line that the
    [total_alignments] pattern matches, when its parse completes, is stored
    with [total_alignments] equal to the float 1000.0 in the record of its
    sample. *)
Theorem C8_primerclip_total_alignments :
  forall (f : logfile) (self self' : module) (pre post : list string)
         (r : regex),
    In ("total_alignments", r) primerclip_regexes ->
    splitlines (contents f) = pre ++ total_line :: post ->
    (forall l, In l post -> matches r l = false) ->
    parse_primerclip_logs f self = (self', Ok tt) ->
    exists rec,
      get (str_remove "_primerclip_runstats" (s_name f)) (data self')
        = Some rec
      /\ get "total_alignments" rec = Some (PyFloat float_1000).
Proof.
  intros f self self' pre post r Hin Hlines Hpost H.
  unfold parse_primerclip_logs in H. rewrite Hlines in H.
  destruct (scan_lines _ _ _ _) as [parsed|e] eqn:Es; [|discriminate].
  assert (Hm : search r total_line = Some [(1%nat, "1000")]).
  { in_table Hin. injection Hin as <-. vm_compute. reflexivity. }
  destruct (@scan_conv_last (float_group 1) store_float
              (fun _ _ _ => eq_refl) _ pre total_line post empty parsed
              "total_alignments" r _ NoDup_primerclip Hin Hm Hpost Es)
    as (v & Hv & Hg).
  vm_compute in Hv. injection Hv as <-.
  injection H as <-. exists parsed. split; [|exact Hg].
  unfold save_if_any. rewrite (get_some_len_pos _ _ Hg).
  apply get_set_same.
Qed.

Lemma C8_witness :
  splitlines (contents Samples.log_primerclip)
    = [] ++ total_line :: ["Total mapped alignments:    990"]
  /\ snd (parse_primerclip_logs Samples.log_primerclip new_module) = Ok tt
  /\ exists rec,
       get "S1" (data (fst (parse_primerclip_logs Samples.log_primerclip
                              new_module))) = Some rec
       /\ get "total_alignments" rec = Some (PyFloat float_1000).
Proof.
  split; [vm_compute; reflexivity|]. split; [vm_compute; reflexivity|].
  apply (@C8_primerclip_total_alignments Samples.log_primerclip new_module
           _ [] ["Total mapped alignments:    990"]
           (RLit "Total alignments processed:" +++ spaces +++ RGroup 1 num)).
  - simpl. auto.
  - vm_compute. reflexivity.
  - intros l [<-|[]]. vm_compute. reflexivity.
  - vm_compute. reflexivity.
Defined.

(** C9: the no-samples signal is decided on the mapping left by the
    sample-ignore filter: when the parse pass completes and every sample name
    it stored is ignored, [__init__] raises the no-samples signal and makes
    no report contribution, just as a run that found no file at all. *)
Theorem C9_all_ignored_raises_no_samples :
  forall (sample_ignored : string -> bool)
         (clean_s_name : option string -> logfile -> string)
         (t : tool) (files : list logfile) (self : module),
    parse_pass clean_s_name t files = (self, Ok tt) ->
    data self <> [] ->
    (forall s, In s (keys (data self)) -> sample_ignored s = true) ->
    snd (module_init sample_ignored clean_s_name t files)
      = Raise (no_samples_signal t)
    /\ contributions
         (host (fst (module_init sample_ignored clean_s_name t files))) = []
    /\ snd (module_init sample_ignored clean_s_name t files)
       = snd (module_init sample_ignored clean_s_name t [])
    /\ contributions
         (host (fst (module_init sample_ignored clean_s_name t files)))
       = contributions
           (host (fst (module_init sample_ignored clean_s_name t []))).
Proof.
  intros ign cln t files self Hp _ Hall.
  pose proof (ignore_samples_all ign (data self) Hall) as Hi.
  rewrite (init_no_samples ign cln t files Hp Hi). simpl.
  pose proof (parse_pass_contributions cln t files) as Hc.
  rewrite Hp in Hc. simpl in Hc. rewrite Hc.
  repeat split; destruct t; reflexivity.
Qed.

Lemma C9_witness :
  (exists self,
      parse_pass Samples.keep_name Primerclip [Samples.log_primerclip]
        = (self, Ok tt)
      /\ keys (data self) = ["S1"])
  /\ snd (module_init Samples.ignore_all Samples.keep_name Primerclip
            [Samples.log_primerclip]) = Raise UserWarning
  /\ contributions
       (host (fst (module_init Samples.ignore_all Samples.keep_name
                     Primerclip [Samples.log_primerclip]))) = [].
Proof.
  split; [eexists; split; vm_compute; reflexivity|].
  pose proof (@C9_all_ignored_raises_no_samples Samples.ignore_all
                Samples.keep_name Primerclip [Samples.log_primerclip]
                (fst (parse_pass Samples.keep_name Primerclip
                        [Samples.log_primerclip]))) as H.
  destruct H as (H1 & H2 & _).
  - vm_compute; reflexivity.
  - vm_compute; discriminate.
  - reflexivity.
  - split; assumption.
Defined.

(** C10: hisat2 saves a record only at a line that holds an overall
    alignment rate. Lines that follow the last such line change nothing in
    the module object, whatever metrics they hold, and a log without such a
    line leaves the module object as it was. The three other parsers save
    whatever non-empty mapping the scan of the file ends with. *)
Theorem C10_hisat2_discards_unterminated_metrics :
  forall (clean_s_name : option string -> logfile -> string)
         (f : logfile) (self : module) (parsed_data : record),
    parsed_data <> [] ->
    (forall pre tail st,
        (forall l, In l tail -> matches hisat2_overall l = false) ->
        fst (hisat2_lines clean_s_name f (pre ++ tail) st self)
        = fst (hisat2_lines clean_s_name f pre st self))
    /\ ((forall l, In l (readlines (contents f)) ->
                   matches hisat2_overall l = false) ->
        fst (parse_hisat2_logs clean_s_name f self) = self)
    /\ (scan_lines store_float primerclip_regexes (splitlines (contents f))
          empty = Ok parsed_data ->
        parse_primerclip_logs f self
        = (save f (str_remove "_primerclip_runstats" (s_name f)) parsed_data
             self, Ok tt))
    /\ (scan_lines store_float coverage_metrics_regexes
          (splitlines (contents f)) empty = Ok parsed_data ->
        parse_coverage_metrics_logs f self
        = (save f (str_remove "_amplicon_coverage_metrics" (s_name f))
             parsed_data self, Ok tt))
    /\ (forall self1,
          jax_lines (splitlines (contents f)) empty (set_pe_bool false self)
            = (self1, Ok parsed_data) ->
          parse_jax_trimmer_logs f self
          = (save f (rsplit1_head "_" (s_name f)) parsed_data self1, Ok tt)).
Proof.
  intros cln f self parsed Hne.
  assert (Hlen : (0 <? len parsed)%nat = true).
  { destruct parsed; [congruence|reflexivity]. }
  split; [|split; [|split; [|split]]].
  - intros pre tail st Htail. rewrite hisat2_lines_app.
    destruct (hisat2_lines cln f pre st self) as [self1 [st1|e]]; auto.
    now apply hisat2_lines_no_rate.
  - intros H. unfold parse_hisat2_logs.
    pose proof (@hisat2_lines_no_rate cln f (readlines (contents f))
                  (s_name f, empty) self H) as Hs.
    now destruct (hisat2_lines _ _ _ _ _) as [self1 [st1|e]].
  - intros H. unfold parse_primerclip_logs, save_if_any.
    now rewrite H, Hlen.
  - intros H. unfold parse_coverage_metrics_logs, save_if_any.
    now rewrite H, Hlen.
  - intros self1 H. unfold parse_jax_trimmer_logs, save_if_any.
    now rewrite H, Hlen.
Qed.

Lemma C10_witness :
  (* hisat2: the pairs counted after the last rate line are lost *)
  (exists rec, In "Total pairs: 3" (map (fun l => substring 0 14 l)
                                    (readlines (contents Samples.log_hisat2_two)))
               /\ get "b.fq" (data (fst (parse_hisat2_logs Samples.keep_name
                                           Samples.log_hisat2_two new_module)))
                  = Some rec
               /\ mem "paired_total" rec = false)
  /\ fst (hisat2_lines Samples.keep_name Samples.log_hisat2_two
            (["Overall alignment rate: 50%"] ++ ["Total pairs: 3"])
            ("H2", empty) new_module)
     = fst (hisat2_lines Samples.keep_name Samples.log_hisat2_two
              ["Overall alignment rate: 50%"] ("H2", empty) new_module)
  (* coverage_metrics: the mapping scanned is saved at the end of the file *)
  /\ exists parsed,
       parsed <> []
       /\ parse_coverage_metrics_logs Samples.log_coverage new_module
          = (save Samples.log_coverage "S1" parsed new_module, Ok tt).
Proof.
  split; [|split].
  - eexists. vm_compute. repeat split. tauto.
  - destruct (@C10_hisat2_discards_unterminated_metrics Samples.keep_name
                Samples.log_hisat2_two new_module
                [("paired_total", PyInt 3)]) as (H & _); [discriminate|].
    apply H. intros l [<-|[]]. vm_compute. reflexivity.
  - destruct (scan_lines store_float coverage_metrics_regexes
                (splitlines (contents Samples.log_coverage)) empty)
      as [parsed|e] eqn:E; [|vm_compute in E; discriminate].
    exists parsed. split.
    + vm_compute in E. injection E as <-. discriminate.
    + destruct (@C10_hisat2_discards_unterminated_metrics Samples.keep_name
                  Samples.log_coverage new_module parsed)
        as (_ & _ & _ & H & _).
      * vm_compute in E. injection E as <-. discriminate.
      * rewrite (H E). reflexivity.
Defined.

(* ================================================================= *)
(** * Further properties *)

(** X1: whatever a log holds, a parse function that raises raises
    [ValueError]: the groups it converts always took part in the match, so
    [float] and [int] are never given [None]. When primerclip,
    coverage_metrics or jax_trimmer raises, the file has stored no record and
    registered no data source. *)
Theorem parse_raises_only_ValueError :
  forall (clean_s_name : option string -> logfile -> string) (t : tool)
         (f : logfile) (self self' : module) (e : exn),
    parse_logs clean_s_name t f self = (self', Raise e) ->
    e = ValueError
    /\ (t <> Hisat2 -> data self' = data self /\ host self' = host self).
Proof.
  intros cln t f self self' e H. split.
  - exact (parse_logs_raises _ _ _ _ H).
  - intros Ht. destruct t; cbn [parse_logs] in H; [| | |congruence].
    + unfold parse_primerclip_logs in H.
      destruct (scan_lines _ _ _ _); [discriminate|].
      injection H as <- _. auto.
    + unfold parse_coverage_metrics_logs in H.
      destruct (scan_lines _ _ _ _); [discriminate|].
      injection H as <- _. auto.
    + unfold parse_jax_trimmer_logs in H.
      destruct (jax_lines_frame (splitlines (contents f)) empty false)
        as (b' & r0 & Hf).
      rewrite (Hf (set_pe_bool false self) eq_refl) in H.
      destruct r0; [discriminate|]. injection H as <- _. auto.
Qed.

Lemma parse_raises_only_ValueError_witness :
  let f := one_line_log "S1"
             "Alignments trimmed to zero aligned length: 1x2" in
  exists e,
    parse_logs Samples.keep_name Primerclip f new_module
      = (new_module, Raise e)
    /\ e = ValueError.
Proof.
  intros f.
  destruct (parse_logs Samples.keep_name Primerclip f new_module)
    as [self' [[]|e]] eqn:E; [vm_compute in E; discriminate|].
  exists e.
  destruct (@parse_raises_only_ValueError Samples.keep_name Primerclip f
              new_module self' e E) as [He [Hd Hh]]; [discriminate|].
  split; [|exact He]. f_equal. destruct self' as [d b h]. simpl in *.
  subst d h. vm_compute in E. now injection E as <-.
Defined.

(** X2: parsing a coverage_metrics log whose lines have no more than
    [max_float_digits] characters never raises: what [(\d+(?:\.\d+)?)]
    captures is a numeral, which [float] rejects only for having more digits
    than that. On such logs the module's [__init__] ends normally or with
    the no-samples signal. *)
Theorem coverage_metrics_parse_completes :
  forall (sample_ignored : string -> bool)
         (clean_s_name : option string -> logfile -> string)
         (f : logfile) (files : list logfile) (self : module),
    (lines_within max_float_digits (splitlines (contents f)) ->
     snd (parse_coverage_metrics_logs f self) = Ok tt)
    /\ ((forall f', In f' files ->
           lines_within max_float_digits (splitlines (contents f'))) ->
        snd (module_init sample_ignored clean_s_name CoverageMetrics files)
          = Ok tt
        \/ snd (module_init sample_ignored clean_s_name CoverageMetrics files)
          = Raise UserWarning).
Proof.
  intros ign cln f files self.
  assert (Hp : forall f self,
            lines_within max_float_digits (splitlines (contents f)) ->
            snd (parse_coverage_metrics_logs f self) = Ok tt).
  { clear. intros f self Hlen. unfold parse_coverage_metrics_logs.
    destruct (@scan_lines_total store_float coverage_metrics_regexes
                (splitlines (contents f))) with (p := @empty pyval)
      as [p' Hp'].
    - intros l k r m p Hl Hin Hs.
      destruct (@float_group_decimal _ k r l m coverage_metrics_group1 Hin Hs
                  (Hlen l Hl)) as [v Hv].
      unfold store_float. rewrite Hv. simpl. eauto.
    - rewrite Hp'. reflexivity. }
  split; [apply Hp|]. intros Hfiles.
  rewrite init_stages. unfold parse_pass.
  assert (Hfe : forall files self,
            (forall f', In f' files ->
               lines_within max_float_digits (splitlines (contents f'))) ->
            snd (for_each (parse_logs cln CoverageMetrics) files self)
            = Ok tt).
  { clear - Hp. induction files as [|f files IH]; intros self Hlen; simpl;
      auto.
    specialize (Hp f self (Hlen f (or_introl eq_refl))).
    destruct (parse_coverage_metrics_logs f self) as [self1 [[]|e]];
      simpl in Hp; [|discriminate].
    apply IH. intros; apply Hlen; simpl; auto. }
  specialize (Hfe files new_module Hfiles).
  destruct (for_each _ _ _) as [self1 [[]|e]]; simpl in Hfe; [|discriminate].
  cbn zeta. destruct (len _ =? 0)%nat; simpl; auto.
Qed.

Lemma coverage_metrics_parse_completes_witness :
  lines_within max_float_digits (splitlines (contents Samples.log_coverage))
  /\ snd (parse_coverage_metrics_logs Samples.log_coverage new_module)
     = Ok tt.
Proof.
  assert (H : lines_within max_float_digits
                (splitlines (contents Samples.log_coverage))).
  { intros l Hl. vm_compute in Hl.
    repeat (destruct Hl as [<-|Hl]; [vm_compute; discriminate|]).
    destruct Hl. }
  split; [exact H|].
  exact (proj1 (@coverage_metrics_parse_completes Samples.ignore_none
                  Samples.keep_name Samples.log_coverage [] new_module) H).
Defined.

(** X3: where a HISAT2 log can make the parser raise, and what: only
    [ValueError], and only at a line where a count pattern captures more
    digits than [int] converts, or at a line that holds an overall alignment
    rate whose capture [float] rejects; [[\d\.]+] captures texts of digits and
    points such as [1.2.3]. *)
Theorem hisat2_raises_at_long_count_or_rate :
  forall (clean_s_name : option string -> logfile -> string)
         (f : logfile) (self self' : module) (e : exn),
    parse_hisat2_logs clean_s_name f self = (self', Raise e) ->
    e = ValueError
    /\ exists l,
         In l (readlines (contents f))
         /\ ((exists k r m s,
                In (k, r) hisat2_regexes
                /\ search r l = Some m
                /\ group 1 m = Some s
                /\ digit_run s
                /\ (max_int_digits < Z.of_nat (String.length s))%Z)
             \/ (exists m s,
                   search hisat2_overall l = Some m
                   /\ group 1 m = Some s
                   /\ all_class (CSet false [ADigit; AChr "."]) s = true
                   /\ py_float s = Raise ValueError)).
Proof.
  intros cln f self self' e H. unfold parse_hisat2_logs in H.
  destruct (hisat2_lines _ _ _ _ _) as [self1 [st|e']] eqn:E; [discriminate|].
  injection H as _ <-. apply hisat2_lines_raise in E.
  destruct E as (l & Hl & [(k & r & m & p' & Hin & Hs & E)|(m & Hs & E)]).
  - apply store_int_raises in E.
    destruct (@int_group_raises _ k r l m e' hisat2_group1 Hin Hs E)
      as (-> & s & Hg & Hd & Hlen).
    split; [reflexivity|]. exists l. split; [exact Hl|]. left.
    exists k, r, m, s. auto.
  - destruct (@table_group_capture 1 _ _ _ _ l m overall_group1
                (or_introl eq_refl) Hs)
      as (g & a & b & c & c' & Hg & Hr & Hm).
    destruct Hg as [<-|[]]. apply reach_plus in Hr.
    destruct Hr as (_ & i & Hi & -> & _ & Ha).
    replace (a + i - a)%nat with i in Hm by lia.
    unfold float_group in E. rewrite Hm in E.
    destruct (py_float (substring a i l)) as [x|e2] eqn:Ef; [discriminate|].
    simpl in E. injection E as <-.
    pose proof (py_float_raises _ Ef) as ->.
    split; [reflexivity|]. exists l. split; [exact Hl|]. right.
    exists m, (substring a i l). auto.
Qed.

Lemma hisat2_raises_at_long_count_or_rate_witness :
  let f := one_line_log "H1" "Overall alignment rate: 1.2.3%" in
  let g := one_line_log "H2" ("Total reads: 1" ++ zeros 4300) in
  parse_hisat2_logs Samples.keep_name g new_module
    = (new_module, Raise ValueError)
  /\ parse_hisat2_logs Samples.keep_name f new_module
     = (new_module, Raise ValueError)
  /\ exists l, In l (readlines (contents f))
               /\ exists m, search hisat2_overall l = Some m
                            /\ group 1 m = Some "1.2.3".
Proof.
  intros f g. split; [vm_compute; reflexivity|].
  assert (H : parse_hisat2_logs Samples.keep_name f new_module
              = (new_module, Raise ValueError))
    by (vm_compute; reflexivity).
  split; [exact H|].
  destruct (@hisat2_raises_at_long_count_or_rate Samples.keep_name f
              new_module new_module ValueError H) as (_ & l & Hl & _).
  exists l. split; [exact Hl|].
  destruct Hl as [<-|[]]. eexists. vm_compute. split; reflexivity.
Defined.

(** X4: the three primerclip patterns written [(\d+.\d+)] capture digits,
    one character of any kind and digits again: the capture has at least
    three characters, so a value of one or two digits is never stored, and the
    character in the middle need not be a point. *)
Theorem primerclip_dot_patterns_need_three_characters :
  forall (k : string) (r : regex) (l : string) (m : rmatch),
    In (k, r) primerclip_regexes ->
    In k ["trimmed_to_zero"; "perc_trimmed_by_ge_one_base";
          "perc_mapped_after_trimming"] ->
    search r l = Some m ->
    exists s, group 1 m = Some s /\ num_any_num_text s
              /\ (3 <= String.length s)%nat.
Proof.
  intros k r l m Hin Hk Hs.
  assert (Hg : binds 1 r = true /\ groups_named 1 r = [num_any_num]).
  { simpl in Hk.
    destruct Hk as [<-|[<-|[<-|[]]]]; in_table Hin; injection Hin as <-;
      split; reflexivity. }
  destruct Hg as [Hb Hg].
  destruct (@search_group 1 r l m Hb Hs) as (g & a & b & c & c' & Hing & Hr & Hm).
  rewrite Hg in Hing. destruct Hing as [<-|[]].
  apply reach_num_any_num in Hr. destruct Hr as [_ Ht].
  eexists. split; [exact Hm|]. split; [exact Ht|].
  destruct Ht as (d1 & x & d2 & [_ H1] & [_ H2] & _ & ->).
  rewrite length_append. destruct d1, d2; simpl; try congruence; lia.
Qed.

Lemma primerclip_dot_patterns_need_three_characters_witness :
  let r := RLit "Alignments trimmed to zero aligned length:" +++ spaces
             +++ RGroup 1 num_any_num in
  (exists m s, search r "Alignments trimmed to zero aligned length: 1x2"
               = Some m
               /\ group 1 m = Some s /\ (3 <= String.length s)%nat)
  /\ search r "Alignments trimmed to zero aligned length: 42" = None
  /\ parse_primerclip_logs
       (one_line_log "S1" "Alignments trimmed to zero aligned length: 42")
       new_module = (new_module, Ok tt).
Proof.
  intros r. split; [|split; vm_compute; reflexivity].
  destruct (search r "Alignments trimmed to zero aligned length: 1x2")
    as [m|] eqn:E; [|vm_compute in E; discriminate].
  destruct (@primerclip_dot_patterns_need_three_characters
              "trimmed_to_zero" r
              "Alignments trimmed to zero aligned length: 1x2" m)
    as (s & Hg & _ & Hl).
  - simpl. tauto.
  - simpl. tauto.
  - exact E.
  - exists m, s. auto.
Defined.

(** X5: an exception in one file ends [__init__] with that exception. The
    files after it are not read, and no data file, general-statistics column
    or plot section is contributed, whatever the files before it stored. *)
Theorem init_aborts_at_first_exception :
  forall (sample_ignored : string -> bool)
         (clean_s_name : option string -> logfile -> string) (t : tool)
         (pre post : list logfile) (f : logfile) (self0 self1 : module)
         (e : exn),
    parse_pass clean_s_name t pre = (self0, Ok tt) ->
    parse_logs clean_s_name t f self0 = (self1, Raise e) ->
    module_init sample_ignored clean_s_name t (pre ++ f :: post)
      = (self1, Raise e)
    /\ contributions (host self1) = [].
Proof.
  intros ign cln t pre post f self0 self1 e Hp Hf.
  assert (Hpass : parse_pass cln t (pre ++ f :: post) = (self1, Raise e)).
  { unfold parse_pass in *. rewrite for_each_app, Hp. simpl. now rewrite Hf. }
  split.
  - rewrite init_stages, Hpass. reflexivity.
  - pose proof (parse_pass_contributions cln t (pre ++ f :: post)) as Hc.
    rewrite Hpass in Hc. exact Hc.
Qed.

Lemma init_aborts_at_first_exception_witness :
  let bad := one_line_log "S2"
               "Alignments trimmed to zero aligned length: 1x2" in
  let files := [Samples.log_primerclip; bad; Samples.log_primerclip] in
  (exists self0,
      parse_pass Samples.keep_name Primerclip [Samples.log_primerclip]
        = (self0, Ok tt)
      /\ keys (data self0) = ["S1"])
  /\ snd (module_init Samples.ignore_none Samples.keep_name Primerclip files)
     = Raise ValueError
  /\ contributions
       (host (fst (module_init Samples.ignore_none Samples.keep_name
                     Primerclip files))) = [].
Proof.
  intros bad files.
  split; [eexists; split; vm_compute; reflexivity|].
  destruct (@init_aborts_at_first_exception Samples.ignore_none
              Samples.keep_name Primerclip [Samples.log_primerclip]
              [Samples.log_primerclip] bad
              (fst (parse_pass Samples.keep_name Primerclip
                      [Samples.log_primerclip]))
              (fst (parse_pass Samples.keep_name Primerclip
                      [Samples.log_primerclip]))
              ValueError) as [H1 H2].
  - vm_compute; reflexivity.
  - vm_compute; reflexivity.
  - unfold files. simpl app in H1. rewrite H1. split; [reflexivity|exact H2].
Defined.

(** X6: the exceptions of [__init__]. It raises [ValueError] when a capture
    is no number, the no-samples signal when nothing is left to report, and,
    in hisat2 alone, [OverflowError] when a count of a paired-end sample is
    too large for a float to halve. In the first two cases nothing has been
    contributed to the report; in the last the data file and the
    general-statistics column have been, and no plot section. *)
Theorem init_exceptions :
  forall (sample_ignored : string -> bool)
         (clean_s_name : option string -> logfile -> string) (t : tool)
         (files : list logfile) (self' : module) (e : exn),
    module_init sample_ignored clean_s_name t files = (self', Raise e) ->
    (e = ValueError /\ contributions (host self') = [])
    \/ (e = no_samples_signal t /\ contributions (host self') = [])
    \/ (t = Hisat2 /\ e = OverflowError
        /\ exists d,
             contributions (host self')
             = [WriteDataFile d "multiqc_hisat2";
                GeneralStatsAddcols d hisat2_headers]).
Proof.
  intros ign cln t files self' e H. rewrite init_stages in H.
  pose proof (parse_pass_contributions cln t files) as Hc.
  destruct (parse_pass cln t files) as [self0 [[]|e0]] eqn:Ep.
  - cbn zeta in H. cbn [data set_data] in H. simpl in Hc.
    destruct (len (ignore_samples ign (data self0)) =? 0)%nat.
    + injection H as <- <-. right. left. split; [reflexivity | exact Hc].
    + right. right.
      destruct t; cbn [render before_write data_file_name] in H;
        try discriminate.
      unfold hisat2_general_stats_table, hisat2_alignment_plot in H.
      destruct (split_se_pe _ _ _ _) as [self1 [[se pe]|e1]] eqn:Es;
        [discriminate|].
      injection H as <- <-. apply split_se_pe_raises in Es.
      destruct Es as [-> Hh]. split; [reflexivity|]. split; [reflexivity|].
      eexists. rewrite Hh. cbn [host call set_data].
      rewrite !contributions_app, Hc. reflexivity.
  - injection H as <- <-. left. simpl in Hc. split; [|exact Hc].
    unfold parse_pass in Ep. apply for_each_raises in Ep.
    destruct Ep as (f & s & _ & Ep).
    exact (@parse_logs_raises cln t f s self0 e0 Ep).
Qed.

Lemma init_exceptions_witness :
  exists self' d,
    module_init Samples.ignore_none Samples.keep_name Hisat2
      [log_hisat2_huge] = (self', Raise OverflowError)
    /\ keys d = ["H9"]
    /\ contributions (host self')
       = [WriteDataFile d "multiqc_hisat2";
          GeneralStatsAddcols d hisat2_headers].
Proof.
  destruct (module_init Samples.ignore_none Samples.keep_name Hisat2
              [log_hisat2_huge]) as [self' [[]|e]] eqn:E;
    [vm_compute in E; discriminate|].
  destruct (@init_exceptions Samples.ignore_none Samples.keep_name Hisat2
              [log_hisat2_huge] self' e E)
    as [[-> _]|[[-> _]|(_ & -> & d & Hd)]].
  - vm_compute in E. discriminate.
  - vm_compute in E. discriminate.
  - exists self', d. split; [reflexivity|]. split; [|exact Hd].
    vm_compute in E. injection E as <-. vm_compute in Hd.
    injection Hd as <-. reflexivity.
Defined.

(** X7: what a successful [__init__] contributes to the report, in this
    order: the data file with the mapping the ignore filter left, which is
    not empty; the general-statistics columns over that same mapping; and, for
    hisat2 alone, the sections of its bar charts. Nothing else is
    contributed. *)
Theorem init_success_contributions :
  forall (sample_ignored : string -> bool)
         (clean_s_name : option string -> logfile -> string) (t : tool)
         (files : list logfile) (self' : module),
    module_init sample_ignored clean_s_name t files = (self', Ok tt) ->
    exists self0,
      parse_pass clean_s_name t files = (self0, Ok tt)
      /\ ignore_samples sample_ignored (data self0) <> []
      /\ contributions (host self')
         = WriteDataFile (ignore_samples sample_ignored (data self0))
             (data_file_name t)
           :: GeneralStatsAddcols (ignore_samples sample_ignored (data self0))
                (general_stats_headers t self0)
           :: plot_sections t (ignore_samples sample_ignored (data self0)).
Proof.
  intros ign cln t files self' H. rewrite init_stages in H.
  pose proof (parse_pass_contributions cln t files) as Hc.
  pose proof (wf_parse_pass cln t files) as Hwf.
  destruct (parse_pass cln t files) as [self0 [[]|e]]; [|discriminate].
  simpl in Hc, Hwf. exists self0. split; [reflexivity|].
  cbn zeta in H. cbn [data set_data] in H.
  destruct (len (ignore_samples ign (data self0)) =? 0)%nat eqn:El;
    [discriminate|].
  split.
  { intros Hd. rewrite Hd in El. discriminate. }
  destruct t; cbn [render before_write data_file_name plot_sections
                   general_stats_headers] in *.
  - injection H as <-. simpl.
    rewrite !contributions_app, Hc. reflexivity.
  - injection H as <-. simpl.
    rewrite !contributions_app, Hc. reflexivity.
  - injection H as <-. simpl.
    rewrite !contributions_app, Hc. reflexivity.
  - unfold hisat2_general_stats_table in H.
    apply hisat2_alignment_plot_host in H.
    + rewrite H. simpl. rewrite !contributions_app, Hc.
      now rewrite contributions_hisat2_sections.
    + simpl. now apply wf_filter.
Qed.

Lemma init_success_contributions_witness :
  exists self' d,
    module_init Samples.ignore_none Samples.keep_name Hisat2
      [Samples.log_hisat2_two] = (self', Ok tt)
    /\ keys d = ["a.fq"; "b.fq"]
    /\ contributions (host self')
       = [WriteDataFile d "multiqc_hisat2";
          GeneralStatsAddcols d hisat2_headers;
          se_section d].
Proof.
  destruct (module_init Samples.ignore_none Samples.keep_name Hisat2
              [Samples.log_hisat2_two]) as [self' [[]|e]] eqn:E;
    [|vm_compute in E; discriminate].
  destruct (@init_success_contributions Samples.ignore_none Samples.keep_name
              Hisat2 [Samples.log_hisat2_two] self' E)
    as (self0 & Hp & _ & Hc).
  exists self', (ignore_samples Samples.ignore_none (data self0)).
  split; [reflexivity|]. rewrite Hc.
  vm_compute in Hp. injection Hp as <-. split; vm_compute; reflexivity.
Defined.



(** X9: a log without metric lines is parsed to the end and stores
    nothing: no record, no data source. For primerclip and coverage_metrics
    these are the logs none of whose lines a pattern matches; for the trimmer
    only the lines without [Read] count, as the others are never scanned; for
    hisat2 every log without a line holding an overall alignment rate,
    whatever counts it holds, provided no line has more characters than
    [int] converts digits (a longer count makes [int] raise). An empty file
    is such a log for all four. *)
Theorem file_without_metric_lines_stores_nothing :
  forall (clean_s_name : option string -> logfile -> string)
         (f : logfile) (self : module),
    ((forall l, In l (splitlines (contents f)) ->
        unmatched primerclip_regexes l) ->
     parse_primerclip_logs f self = (self, Ok tt))
    /\ ((forall l, In l (splitlines (contents f)) ->
           unmatched coverage_metrics_regexes l) ->
        parse_coverage_metrics_logs f self = (self, Ok tt))
    /\ ((forall l, In l (splitlines (contents f)) ->
           str_in "Read" l = false ->
           unmatched jax_regexes l /\ unmatched jax_regexes_se l) ->
        parse_jax_trimmer_logs f self
        = (set_pe_bool (existsb is_marker (splitlines (contents f))) self,
           Ok tt))
    /\ ((forall l, In l (readlines (contents f)) ->
           matches hisat2_overall l = false) ->
        lines_within max_int_digits (readlines (contents f)) ->
        parse_hisat2_logs clean_s_name f self = (self, Ok tt)).
Proof.
  intros cln f self. split; [|split; [|split]]; intros H.
  - unfold parse_primerclip_logs. now rewrite scan_lines_unmatched.
  - unfold parse_coverage_metrics_logs. now rewrite scan_lines_unmatched.
  - unfold parse_jax_trimmer_logs. now rewrite jax_lines_unmatched.
  - intros Hlen. unfold parse_hisat2_logs.
    destruct (@hisat2_lines_no_rate_ok cln f (readlines (contents f))
                (s_name f, empty) self H Hlen) as [st' ->].
    reflexivity.
Qed.

Lemma file_without_metric_lines_stores_nothing_witness :
  let passing := one_line_log "S1_stat" "Reads passing filter 100" in
  let counts := one_line_log "H1" "Total pairs: 3" in
  let blank := Samples.mk_log "empty.log" "empty" "" in
  matched_key jax_regexes_se (splitlines (contents passing)) "reads_passing"
  /\ parse_jax_trimmer_logs passing new_module = (new_module, Ok tt)
  /\ matched_key hisat2_regexes (readlines (contents counts)) "paired_total"
  /\ parse_hisat2_logs Samples.keep_name counts new_module
     = (new_module, Ok tt)
  /\ parse_primerclip_logs blank new_module = (new_module, Ok tt)
  /\ parse_coverage_metrics_logs blank new_module = (new_module, Ok tt).
Proof.
  intros passing counts blank.
  destruct (@file_without_metric_lines_stores_nothing Samples.keep_name
              passing new_module) as (_ & _ & Hj & _).
  destruct (@file_without_metric_lines_stores_nothing Samples.keep_name
              counts new_module) as (_ & _ & _ & Hh).
  destruct (@file_without_metric_lines_stores_nothing Samples.keep_name
              blank new_module) as (Hp & Hc & _ & _).
  split; [|split; [|split; [|split; [|split]]]].
  - exists "Reads passing filter 100",
      (RLit "Reads passing filter" +++ spaces +++ RGroup 1 num).
    split; [vm_compute; tauto|]. split; [simpl; tauto|].
    vm_compute. reflexivity.
  - rewrite Hj; [reflexivity|].
    intros l [<-|[]] Hr. vm_compute in Hr. discriminate.
  - exists ("Total pairs: 3" ++ Samples.nl)%string,
      (RLit "Total pairs: " +++ RGroup 1 num).
    split; [vm_compute; tauto|]. split; [simpl; tauto|].
    vm_compute. reflexivity.
  - apply Hh; intros l [<-|[]]; vm_compute; [reflexivity | discriminate].
  - apply Hp. intros l [].
  - apply Hc. intros l [].
Defined.

(** X10: after the parse pass, complete or not, the host calls recorded are
    [add_data_source] calls for files of the run, and the names they
    register are exactly the sample names of the mapping: every stored
    sample has a data source, and no data source lacks its sample. *)
Theorem samples_have_data_sources :
  forall (clean_s_name : option string -> logfile -> string) (t : tool)
         (files : list logfile),
    (forall e, In e (host (fst (parse_pass clean_s_name t files))) ->
       exists f s, e = AddDataSource f s /\ In f files)
    /\ (forall s,
          In s (keys (data (fst (parse_pass clean_s_name t files)))) <->
          exists f, In (AddDataSource f s)
                      (host (fst (parse_pass clean_s_name t files)))).
Proof.
  intros cln t files. unfold parse_pass.
  apply (@sources_match_for_each cln t files files new_module).
  - apply incl_refl.
  - split; simpl; [intros e [] | intros s; split; [intros [] | intros [f []]]].
Qed.

Lemma samples_have_data_sources_witness :
  keys (data (fst (parse_pass Samples.keep_name Hisat2
                     [Samples.log_hisat2_two]))) = ["a.fq"; "b.fq"]
  /\ exists f, In (AddDataSource f "b.fq")
                 (host (fst (parse_pass Samples.keep_name Hisat2
                               [Samples.log_hisat2_two]))).
Proof.
  assert (Hk : keys (data (fst (parse_pass Samples.keep_name Hisat2
                                  [Samples.log_hisat2_two])))
               = ["a.fq"; "b.fq"]) by (vm_compute; reflexivity).
  split; [exact Hk|].
  destruct (@samples_have_data_sources Samples.keep_name Hisat2
              [Samples.log_hisat2_two]) as [_ H].
  assert (Hin : In "b.fq"
                  (keys (data (fst (parse_pass Samples.keep_name Hisat2
                                      [Samples.log_hisat2_two])))))
    by (rewrite Hk; simpl; tauto).
  exact (proj1 (H "b.fq") Hin).
Defined.

(** X11: the order in which the files are found does not matter to the
    mapping, as long as no two files yield the same sample name: a parse pass
    that completes on the files completes on every rearrangement of them, and
    leaves the same record under every name. (The columns of the trimmer are
    another matter: they follow the file parsed last.) *)
Theorem parse_pass_order_independent :
  forall (clean_s_name : option string -> logfile -> string) (t : tool)
         (files files' : list logfile),
    Permutation files files' ->
    NoDup (flat_map (yielded_names clean_s_name t) files) ->
    snd (parse_pass clean_s_name t files) = Ok tt ->
    snd (parse_pass clean_s_name t files') = Ok tt
    /\ forall s, get s (data (fst (parse_pass clean_s_name t files')))
                 = get s (data (fst (parse_pass clean_s_name t files))).
Proof.
  intros cln t files files' Hp Hnd Hok. unfold parse_pass in *.
  destruct (@parse_pass_permutation cln t files files' Hp new_module
              new_module (fun s => eq_refl) Hnd Hok) as [H1 H2].
  split; [exact H1|]. intros s. now rewrite (H2 s).
Qed.

Lemma parse_pass_order_independent_witness :
  let pe := Samples.log_jax_pe in
  let se := Samples.log_jax_se in
  let pass := parse_pass Samples.keep_name JaxTrimmer in
  flat_map (yielded_names Samples.keep_name JaxTrimmer) [pe; se]
    = ["P1"; "Q1"]
  /\ snd (pass [se; pe]) = Ok tt
  /\ (forall s, get s (data (fst (pass [se; pe])))
                = get s (data (fst (pass [pe; se]))))
  /\ keys (data (fst (pass [se; pe]))) = ["Q1"; "P1"]
  /\ pe_bool (fst (pass [se; pe])) = true
  /\ pe_bool (fst (pass [pe; se])) = false.
Proof.
  intros pe se pass.
  split; [vm_compute; reflexivity|].
  destruct (@parse_pass_order_independent Samples.keep_name JaxTrimmer
              [pe; se] [se; pe]) as [H1 H2].
  - apply perm_swap.
  - vm_compute. repeat (constructor; [simpl; intuition discriminate|]).
    constructor.
  - vm_compute. reflexivity.
  - split; [exact H1|]. split; [exact H2|].
    repeat split; vm_compute; reflexivity.
Defined.

(** X12: the sample name of a primerclip or coverage_metrics log is the file's
    name with the module's suffix taken out: a name without the suffix is
    kept as it is, and a name that ends with the suffix, which does not occur
    in it earlier, loses exactly the suffix. *)
Theorem suffix_is_stripped_from_sample_name :
  forall (f : logfile) (self : module) (a : string) (parsed_data : record),
    parsed_data <> [] ->
    (scan_lines store_float primerclip_regexes (splitlines (contents f))
       empty = Ok parsed_data ->
     (str_in "_primerclip_runstats" (s_name f) = false ->
      parse_primerclip_logs f self
      = (save f (s_name f) parsed_data self, Ok tt))
     /\ (s_name f = (a ++ "_primerclip_runstats")%string ->
         occurs_before "_primerclip_runstats" a "_primerclip_runstats"
           = false ->
         parse_primerclip_logs f self = (save f a parsed_data self, Ok tt)))
    /\ (scan_lines store_float coverage_metrics_regexes
          (splitlines (contents f)) empty = Ok parsed_data ->
        (str_in "_amplicon_coverage_metrics" (s_name f) = false ->
         parse_coverage_metrics_logs f self
         = (save f (s_name f) parsed_data self, Ok tt))
        /\ (s_name f = (a ++ "_amplicon_coverage_metrics")%string ->
            occurs_before "_amplicon_coverage_metrics" a
              "_amplicon_coverage_metrics" = false ->
            parse_coverage_metrics_logs f self
            = (save f a parsed_data self, Ok tt))).
Proof.
  intros f self a parsed Hne.
  assert (Hlen : (0 <? len parsed)%nat = true).
  { destruct parsed; [congruence | reflexivity]. }
  split; intros Hs; split.
  - intros Hno. unfold parse_primerclip_logs, save_if_any.
    now rewrite Hs, Hlen, str_remove_absent.
  - intros Hn Hocc. unfold parse_primerclip_logs, save_if_any.
    rewrite Hs, Hlen, Hn, str_remove_suffix; auto. discriminate.
  - intros Hno. unfold parse_coverage_metrics_logs, save_if_any.
    now rewrite Hs, Hlen, str_remove_absent.
  - intros Hn Hocc. unfold parse_coverage_metrics_logs, save_if_any.
    rewrite Hs, Hlen, Hn, str_remove_suffix; auto. discriminate.
Qed.

Lemma suffix_is_stripped_from_sample_name_witness :
  exists parsed_data,
    parsed_data <> []
    /\ s_name Samples.log_primerclip = ("S1" ++ "_primerclip_runstats")%string
    /\ parse_primerclip_logs Samples.log_primerclip new_module
       = (save Samples.log_primerclip "S1" parsed_data new_module, Ok tt).
Proof.
  destruct (scan_lines store_float primerclip_regexes
              (splitlines (contents Samples.log_primerclip)) empty)
    as [parsed|e] eqn:E; [|vm_compute in E; discriminate].
  exists parsed.
  assert (Hne : parsed <> []).
  { vm_compute in E. injection E as <-. discriminate. }
  split; [exact Hne|]. split; [reflexivity|].
  destruct (@suffix_is_stripped_from_sample_name Samples.log_primerclip
              new_module "S1" parsed Hne) as [Hp _].
  destruct (Hp E) as [_ H]. apply H; reflexivity.
Defined.

(** X13: the sample name of a trimmer log is the file's name up to its last
    underscore, or the whole name when it has none. So logs whose names
    differ only after the last underscore share one sample: however many
    of them are parsed, the mapping ends with that one name at most, and the
    record under it is that of the last file that stored one, which replaces
    those of the files before it. *)
Theorem jax_trimmer_sample_name_drops_last_field :
  forall (clean_s_name : option string -> logfile -> string)
         (files : list logfile) (a : string) (self' : module),
    (forall f, In f files ->
       (exists b, s_name f = (a ++ String "_" b)%string
                  /\ str_in "_" b = false)
       \/ (s_name f = a /\ str_in "_" a = false)) ->
    parse_pass clean_s_name JaxTrimmer files = (self', Ok tt) ->
    (keys (data self') = [] \/ keys (data self') = [a])
    /\ (forall pre f post p,
          files = pre ++ f :: post ->
          snd (jax_lines (splitlines (contents f)) empty new_module) = Ok p ->
          p <> [] ->
          (forall f', In f' post ->
             snd (jax_lines (splitlines (contents f')) empty new_module)
             = Ok []) ->
          data self' = [(a, p)]).
Proof.
  intros cln files a self' Hn H. unfold parse_pass in H.
  cbn [parse_logs] in H.
  assert (Hname : forall f, In f files -> rsplit1_head "_" (s_name f) = a).
  { intros f Hf. destruct (Hn f Hf) as [(b & -> & Hb)|[-> Ha]].
    - now apply rsplit1_head_last_field.
    - now apply rsplit1_head_no_sep. }
  split.
  - destruct (@jax_pass_only_sample a files new_module self' Hname
                (or_introl eq_refl) H) as [->|[p ->]]; auto.
  - intros pre f post p -> Hp Hne Hpost.
    rewrite for_each_app in H.
    destruct (for_each parse_jax_trimmer_logs pre new_module)
      as [self1 [[]|e]] eqn:Epre; [|discriminate].
    cbn [for_each] in H.
    destruct (parse_jax_trimmer_logs f self1) as [self2 [[]|e]] eqn:Ef;
      [|discriminate].
    rewrite (jax_pass_nothing_stored _ _ Hpost H).
    apply parse_jax_data in Ef. destruct Ef as (p' & Hp' & ->).
    rewrite Hp in Hp'. injection Hp' as <-.
    destruct p as [|kv p]; [congruence|]. cbn [len List.length Nat.ltb Nat.leb].
    rewrite Hname by (apply in_or_app; simpl; auto).
    apply only_sample_set.
    apply (@jax_pass_only_sample a pre new_module self1); auto.
    + intros f' Hf'. apply Hname. apply in_or_app. auto.
    + left. reflexivity.
Qed.

Lemma jax_trimmer_sample_name_drops_last_field_witness :
  let f1 := Samples.log_jax_pe in
  let f2 := Samples.mk_log "P1_R2" "P1_R2" (contents Samples.log_jax_se) in
  exists self' rec,
    parse_pass Samples.keep_name JaxTrimmer [f1; f2] = (self', Ok tt)
    /\ snd (jax_lines (splitlines (contents f2)) empty new_module) = Ok rec
    /\ keys rec = ["total_reads_1"; "min_trim_len_1"]
    /\ data self' = [("P1", rec)].
Proof.
  intros f1 f2.
  destruct (parse_pass Samples.keep_name JaxTrimmer [f1; f2])
    as [self' [[]|e]] eqn:E; [|vm_compute in E; discriminate].
  destruct (snd (jax_lines (splitlines (contents f2)) empty new_module))
    as [rec|e] eqn:Er; [|vm_compute in Er; discriminate].
  assert (Hk : keys rec = ["total_reads_1"; "min_trim_len_1"]).
  { vm_compute in Er. injection Er as <-. reflexivity. }
  destruct (@jax_trimmer_sample_name_drops_last_field Samples.keep_name
              [f1; f2] "P1" self') as [_ Hlast].
  - intros f [<-|[<-|[]]]; left.
    + exists "stat". split; reflexivity.
    + exists "R2". split; reflexivity.
  - exact E.
  - exists self', rec. split; [reflexivity|]. split; [reflexivity|].
    split; [exact Hk|].
    apply (Hlast [f1] f2 [] rec eq_refl Er).
    + intros ->. discriminate.
    + intros f' [].
Defined.

(** X14: the name of a HISAT2 record. A record closed by a rate line is saved
    under the name the last [hisat2] command line of its segment gives, the
    rate line included; without such a line it is saved under the name held
    at the start of the segment, which is the file's own name for every
    segment, as the name is reset after each record. *)
Theorem hisat2_record_name :
  forall (clean_s_name : option string -> logfile -> string) (f : logfile)
         (body : list string) (t : string) (st st' : string * record)
         (self self' : module),
    (forall l, In l body -> matches hisat2_overall l = false) ->
    matches hisat2_overall t = true ->
    hisat2_lines clean_s_name f (body ++ [t]) st self = (self', Ok st') ->
    exists s rec,
      self' = save f s rec self
      /\ st' = (s_name f, empty)
      /\ ((forall l, In l (body ++ [t]) -> matches hisat2_command l = false)
          -> s = fst st)
      /\ (forall pre l post m,
            body ++ [t] = pre ++ l :: post ->
            search hisat2_command l = Some m ->
            (forall l', In l' post -> matches hisat2_command l' = false) ->
            s = clean_s_name (group 1 m) f).
Proof.
  intros cln f body t st st' self self' Hbody Ht H.
  rewrite hisat2_lines_app in H.
  pose proof (@hisat2_lines_no_rate cln f body st self Hbody) as Hself.
  destruct (hisat2_lines cln f body st self) as [self1 [[s1 p1]|e]] eqn:Eb;
    [|discriminate].
  simpl in Hself. subst self1. cbn [hisat2_lines] in H.
  destruct (hisat2_line cln f t (s1, p1) self) as [self2 [st2|e]] eqn:Et;
    [|discriminate].
  injection H as <- <-.
  destruct (@hisat2_rate_line_name cln f t s1 p1 self self2 st2 Ht Et)
    as (rec & -> & ->).
  eexists _, rec. split; [reflexivity|]. split; [reflexivity|]. split.
  - intros Hno.
    assert (Hct : matches hisat2_command t = false)
      by (apply Hno, in_or_app; simpl; auto).
    unfold matches in Hct. destruct (search hisat2_command t);
      [discriminate|].
    destruct st as [s0 p0].
    apply (@hisat2_lines_no_command cln f body s0 p0 self self s1 p1); auto.
    intros l Hl. apply Hno. apply in_or_app. auto.
  - intros pre l post m Hsplit Hs Hpost.
    destruct (list_eq_dec string_dec post []) as [->|Hne].
    + apply app_inj_tail in Hsplit. destruct Hsplit as [-> ->].
      now rewrite Hs.
    + destruct (exists_last Hne) as (post' & t' & ->).
      rewrite app_comm_cons, app_assoc in Hsplit.
      apply app_inj_tail in Hsplit. destruct Hsplit as [-> ->].
      assert (Hct : matches hisat2_command t' = false)
        by (apply Hpost, in_or_app; simpl; auto).
      unfold matches in Hct. destruct (search hisat2_command t');
        [discriminate|].
      destruct st as [s0 p0]. rewrite hisat2_lines_app in Eb.
      destruct (hisat2_lines cln f pre (s0, p0) self)
        as [self3 [[s3 p3]|e]] eqn:Epre; [|discriminate].
      cbn [hisat2_lines] in Eb.
      destruct (hisat2_line cln f l (s3, p3) self3)
        as [self4 [[s4 p4]|e]] eqn:El; [|discriminate].
      assert (Hs4 : s4 = cln (group 1 m) f).
      { unfold hisat2_line in El. rewrite Hs in El.
        destruct (scan_regexes _ _ _ _); [|discriminate].
        assert (Hl : matches hisat2_overall l = false).
        { apply Hbody. apply in_or_app. simpl. auto. }
        unfold matches in Hl. destruct (search hisat2_overall l);
          [discriminate|].
        now injection El as _ <- _. }
      subst s4.
      apply (@hisat2_lines_no_command cln f post' _ p4 self4 self s1 p1);
        auto.
      * intros l' Hl'. apply Hbody. apply in_or_app. right. simpl.
        right. exact Hl'.
      * intros l' Hl'. apply Hpost. apply in_or_app. auto.
Qed.

Lemma hisat2_record_name_witness :
  let f := Samples.log_hisat2_two in
  let body := ["hisat2 -x idx -U a.fq" ++ Samples.nl;
               "Total reads: 7" ++ Samples.nl]%string in
  let t := ("Overall alignment rate: 97.5%" ++ Samples.nl)%string in
  exists self' rec,
    hisat2_lines Samples.keep_name f (body ++ [t]) (s_name f, empty)
      new_module = (self', Ok (s_name f, empty))
    /\ self' = save f "a.fq" rec new_module.
Proof.
  intros f body t.
  destruct (hisat2_lines Samples.keep_name f (body ++ [t]) (s_name f, empty)
              new_module) as [self' [st'|e]] eqn:E;
    [|vm_compute in E; discriminate].
  destruct (@hisat2_record_name Samples.keep_name f body t (s_name f, empty)
              st' new_module self') as (s & rec & -> & -> & _ & Hs).
  - intros l [<-|[<-|[]]]; vm_compute; reflexivity.
  - vm_compute. reflexivity.
  - exact E.
  - exists (save f s rec new_module), rec. split; [reflexivity|].
    destruct (search hisat2_command (hd "" body)) as [m|] eqn:Em;
      [|vm_compute in Em; discriminate].
    rewrite (Hs [] (hd "" body) (tl body ++ [t]) m eq_refl Em).
    + vm_compute in Em. injection Em as <-. reflexivity.
    + intros l' [<-|[<-|[]]]; vm_compute; reflexivity.
Defined.



(** X16: the count of alignments trimmed by one base or more is taken only
    from a line that starts with its text: the pattern is anchored. The
    percentage line of the same log holds that text after [% ] and so never
    sets the count, while the percentage pattern, which is not anchored, is
    looked for anywhere in a line. *)
Theorem primerclip_trimmed_count_is_anchored :
  forall (r : regex) (l : string),
    In ("trimmed_by_ge_one_base", r) primerclip_regexes ->
    matches r l = true ->
    prefix "Alignments trimmed by >= 1 base:" l = true.
Proof.
  intros r l Hin Hm. in_table Hin. injection Hin as <-.
  unfold matches in Hm.
  destruct (search _ l) as [m|] eqn:Es; [|discriminate].
  unfold search in Es. apply search_from_reach in Es.
  destruct Es as (pos & p & Hr). cbn [reach] in Hr.
  destruct Hr as (q & c & (-> & -> & ->) & q1 & c1 & (Hp & _) & _).
  now rewrite drop_0 in Hp.
Qed.

Lemma primerclip_trimmed_count_is_anchored_witness :
  let r := RBol +++ RLit "Alignments trimmed by >= 1 base:" +++ spaces
             +++ RGroup 1 num in
  matches r "Alignments trimmed by >= 1 base:  12" = true
  /\ prefix "Alignments trimmed by >= 1 base:"
       "Alignments trimmed by >= 1 base:  12" = true
  /\ matches r "% Alignments trimmed by >= 1 base:  12.5" = false
  /\ option_map (@keys pyval)
       (get "S1"
          (data (fst (parse_primerclip_logs
                        (one_line_log "S1"
                           "% Alignments trimmed by >= 1 base:  12.5")
                        new_module))))
     = Some ["perc_trimmed_by_ge_one_base"].
Proof.
  intros r.
  assert (Hm : matches r "Alignments trimmed by >= 1 base:  12" = true)
    by (vm_compute; reflexivity).
  split; [exact Hm|]. split; [|split; vm_compute; reflexivity].
  apply (@primerclip_trimmed_count_is_anchored r); [simpl; tauto | exact Hm].
Defined.

Local Opaque jax_regexes jax_regexes_se.

(** X17: no record the trimmer stores has [reads_passing_1] or
    [reads_passing_2], whatever the logs hold: the line the two patterns are
    written for contains [Read] and the loop skips it. The
    general-statistics table still gets the [reads_passing_1] column. *)
Theorem jax_trimmer_never_stores_reads_passing :
  forall (sample_ignored : string -> bool)
         (clean_s_name : option string -> logfile -> string)
         (files : list logfile) (self' : module),
    module_init sample_ignored clean_s_name JaxTrimmer files = (self', Ok tt) ->
    In "reads_passing_1" (map fst (jax_trimmer_headers self'))
    /\ forall s rec, get s (data self') = Some rec ->
         mem "reads_passing_1" rec = false
         /\ mem "reads_passing_2" rec = false.
Proof.
  intros ign cln files self' H. split.
  { unfold jax_trimmer_headers. destruct (pe_bool self'); simpl; tauto. }
  rewrite init_stages in H. unfold parse_pass in H. cbn [parse_logs] in H.
  destruct (for_each parse_jax_trimmer_logs files new_module)
    as [self0 [[]|e]] eqn:E; [|discriminate].
  cbn zeta in H. cbn [data set_data] in H.
  destruct (len _ =? 0)%nat; [discriminate|]. simpl in H. injection H as <-.
  simpl. intros s rec Hg. apply get_in in Hg. apply filter_In in Hg.
  destruct Hg as [Hin _].
  apply (@jax_pass_records
           (fun rec => mem "reads_passing_1" rec = false
                       /\ mem "reads_passing_2" rec = false)
           files) with (self := new_module) (self' := self0) (s := s); auto.
  - intros f self self1 parsed _ Hl.
    split; [destruct (mem "reads_passing_1" parsed) eqn:Em
           |destruct (mem "reads_passing_2" parsed) eqn:Em]; auto;
      apply (jax_lines_keys _ _ _ Hl) in Em;
      now apply jax_never_assigns_reads_passing in Em; auto.
  - intros ? ? [].
Qed.

Lemma jax_trimmer_never_stores_reads_passing_witness :
  exists self' rec,
    module_init Samples.ignore_none Samples.keep_name JaxTrimmer
      [Samples.log_jax_pe] = (self', Ok tt)
    /\ get "P1" (data self') = Some rec
    /\ mem "total_reads_2" rec = true
    /\ mem "reads_passing_1" rec = false
    /\ mem "reads_passing_2" rec = false.
Proof.
  destruct (module_init Samples.ignore_none Samples.keep_name JaxTrimmer
              [Samples.log_jax_pe]) as [self' [[]|e]] eqn:E;
    [|vm_compute in E; discriminate].
  destruct (get "P1" (data self')) as [rec|] eqn:Eg;
    [|vm_compute in E; injection E as <-; vm_compute in Eg; discriminate].
  exists self', rec. split; [reflexivity|]. split; [exact Eg|].
  split.
  - vm_compute in E. injection E as <-. vm_compute in Eg.
    injection Eg as <-. reflexivity.
  - exact (proj2 (@jax_trimmer_never_stores_reads_passing Samples.ignore_none
                    Samples.keep_name [Samples.log_jax_pe] self' E) "P1" rec Eg).
Defined.

(** X18: single-end input. When no log holds a line with [Read 2], the pass
    ends with [pe_bool] false, every key of every record is a key of the
    one-column table followed by [_1], and the table gets the six [_1]
    columns. *)
Theorem jax_trimmer_single_end_input :
  forall (clean_s_name : option string -> logfile -> string)
         (files : list logfile) (self' : module),
    (forall f, In f files ->
       existsb is_marker (splitlines (contents f)) = false) ->
    parse_pass clean_s_name JaxTrimmer files = (self', Ok tt) ->
    pe_bool self' = false
    /\ jax_trimmer_headers self' = jax_headers_1
    /\ forall s rec k', get s (data self') = Some rec ->
         mem k' rec = true ->
         exists k, In k (map fst jax_regexes_se) /\ k' = (k ++ "_1")%string.
Proof.
  intros cln files self' Hse H. unfold parse_pass in H. cbn [parse_logs] in H.
  assert (Hb : pe_bool self' = false).
  { clear - Hse H.
    assert (G : forall files self self',
              pe_bool self = false ->
              (forall f, In f files ->
                 existsb is_marker (splitlines (contents f)) = false) ->
              for_each parse_jax_trimmer_logs files self = (self', Ok tt) ->
              pe_bool self' = false).
    { clear. induction files as [|f files IH]; intros self self' Hb Hse H;
        simpl in H.
      - now injection H as <-.
      - destruct (parse_jax_trimmer_logs f self) as [self1 [[]|e]] eqn:E;
          [|discriminate].
        apply (IH self1 self'); auto.
        + rewrite (parse_jax_pe_bool _ _ E). apply Hse. simpl. auto.
        + intros; apply Hse; simpl; auto. }
    exact (G files new_module self' eq_refl Hse H). }
  split; [exact Hb|]. split.
  { unfold jax_trimmer_headers. now rewrite Hb. }
  intros s rec k' Hg. apply get_in in Hg. revert k'.
  apply (@jax_pass_records
           (fun rec => forall k', mem k' rec = true ->
              exists k, In k (map fst jax_regexes_se)
                        /\ k' = (k ++ "_1")%string)
           files) with (self := new_module) (self' := self') (s := s); auto.
  - intros f self self1 parsed Hin Hl k' Hm.
    apply (jax_lines_keys _ _ k' Hl) in Hm.
    destruct Hm as (pre & l & post & k & r & Hlines & _ & _ & Hk).
    pose proof (Hse f Hin) as Hno. rewrite Hlines in Hno.
    apply existsb_false_prefix in Hno. rewrite Hno in Hk. simpl in Hk.
    destruct Hk as [Hk [<-|[]]]. exists k. split; auto.
    apply in_map_iff. exists (k, r). auto.
  - intros ? ? [].
Qed.

Lemma jax_trimmer_single_end_input_witness :
  exists self',
    parse_pass Samples.keep_name JaxTrimmer [Samples.log_jax_se]
      = (self', Ok tt)
    /\ option_map (@keys pyval) (get "Q1" (data self'))
       = Some ["total_reads_1"; "min_trim_len_1"]
    /\ jax_trimmer_headers self' = jax_headers_1.
Proof.
  destruct (parse_pass Samples.keep_name JaxTrimmer [Samples.log_jax_se])
    as [self' [[]|e]] eqn:E; [|vm_compute in E; discriminate].
  exists self'. split; [reflexivity|]. split.
  - vm_compute in E. injection E as <-. reflexivity.
  - apply (@jax_trimmer_single_end_input Samples.keep_name
             [Samples.log_jax_se] self').
    + intros f [<-|[]]. vm_compute. reflexivity.
    + exact E.
Defined.

Local Transparent jax_regexes jax_regexes_se.

(** X19: the columns of the trimmer follow the file parsed last, and that
    file alone: [pe_bool] is reset at every file, so the [_2] columns are
    added exactly when the last log has a line with [Read 2], whatever the
    logs before it hold. *)
Theorem jax_trimmer_columns_follow_last_file :
  forall (sample_ignored : string -> bool)
         (clean_s_name : option string -> logfile -> string)
         (files : list logfile) (f : logfile) (self' : module),
    module_init sample_ignored clean_s_name JaxTrimmer (files ++ [f])
      = (self', Ok tt) ->
    pe_bool self' = existsb is_marker (splitlines (contents f))
    /\ exists d,
         contributions (host self')
         = [WriteDataFile d "multiqc_jax_trimmer";
            GeneralStatsAddcols d
              (if existsb is_marker (splitlines (contents f))
               then jax_headers_1 ++ jax_headers_2 else jax_headers_1)].
Proof.
  intros ign cln files f self' H. rewrite init_stages in H.
  pose proof (parse_pass_contributions cln JaxTrimmer (files ++ [f])) as Hc.
  unfold parse_pass in *. rewrite for_each_app in *.
  destruct (for_each (parse_logs cln JaxTrimmer) files new_module)
    as [self1 [[]|e]]; [|discriminate].
  cbn [for_each parse_logs] in *.
  destruct (parse_jax_trimmer_logs f self1) as [self0 [[]|e]] eqn:E;
    [|discriminate].
  apply parse_jax_pe_bool in E.
  cbn zeta in H. cbn [data set_data] in H.
  destruct (len _ =? 0)%nat; [discriminate|].
  cbn [render before_write data_file_name] in H.
  unfold jax_trimmer_general_stats_table, jax_trimmer_headers in H.
  cbn [fst host call data set_data pe_bool] in H, Hc. injection H as <-.
  cbn [fst host call data set_data pe_bool]. split; [exact E|].
  eexists. rewrite <- app_assoc, contributions_app, Hc, E. reflexivity.
Qed.

Lemma jax_trimmer_columns_follow_last_file_witness :
  let init := module_init Samples.ignore_none Samples.keep_name JaxTrimmer in
  existsb is_marker (splitlines (contents Samples.log_jax_pe)) = true
  /\ (exists self' d,
        init ([Samples.log_jax_pe] ++ [Samples.log_jax_se]) = (self', Ok tt)
        /\ keys d = ["P1"; "Q1"]
        /\ contributions (host self')
           = [WriteDataFile d "multiqc_jax_trimmer";
              GeneralStatsAddcols d jax_headers_1]).
Proof.
  intros init. split; [vm_compute; reflexivity|].
  destruct (init ([Samples.log_jax_pe] ++ [Samples.log_jax_se]))
    as [self' [[]|e]] eqn:E; [|vm_compute in E; discriminate].
  destruct (@jax_trimmer_columns_follow_last_file Samples.ignore_none
              Samples.keep_name [Samples.log_jax_pe] Samples.log_jax_se
              self' E) as (_ & d & Hd).
  exists self', d. split; [reflexivity|]. split; [|exact Hd].
  vm_compute in E. injection E as <-. vm_compute in Hd.
  injection Hd as <-. reflexivity.
Defined.

(** X20: in every record the trimmer stores, the second-read value of
    [max_trim_len], [min_trim_len] and [mean_trim_len] is the first-read
    value over again: in the two-column patterns group 2 is the group nested
    in group 1, so the second column of the log is never what [_2] gets. *)
Theorem jax_trimmer_second_trim_length_repeats_first :
  forall (clean_s_name : option string -> logfile -> string)
         (files : list logfile) (self' : module) (s k : string)
         (rec : record) (v : pyval),
    parse_pass clean_s_name JaxTrimmer files = (self', Ok tt) ->
    In k ["max_trim_len"; "min_trim_len"; "mean_trim_len"] ->
    get s (data self') = Some rec ->
    get (k ++ "_2")%string rec = Some v ->
    get (k ++ "_1")%string rec = Some v.
Proof.
  intros cln files self' s k rec v H Hk Hg. apply get_in in Hg. revert v.
  unfold parse_pass in H. cbn [parse_logs] in H.
  apply (@jax_pass_records (same_reads k) files)
    with (self := new_module) (self' := self') (s := s); auto.
  - intros f self self1 parsed _ Hl.
    apply (@jax_lines_trim_len k) in Hl; auto.
    + unfold trim_len_inv in Hl. destruct (pe_bool self1); auto.
      intros v. rewrite Hl. discriminate.
    + reflexivity.
  - intros ? ? [].
Qed.

Lemma jax_trimmer_second_trim_length_repeats_first_witness :
  In "Max Trimmed Length 150 140" (splitlines (contents Samples.log_jax_pe))
  /\ exists self' rec,
       parse_pass Samples.keep_name JaxTrimmer [Samples.log_jax_pe]
         = (self', Ok tt)
       /\ get "P1" (data self') = Some rec
       /\ get "max_trim_len_2" rec = Some (PyFloat float_150)
       /\ get "max_trim_len_1" rec = Some (PyFloat float_150).
Proof.
  split; [vm_compute; tauto|].
  destruct (parse_pass Samples.keep_name JaxTrimmer [Samples.log_jax_pe])
    as [self' [[]|e]] eqn:E; [|vm_compute in E; discriminate].
  destruct (get "P1" (data self')) as [rec|] eqn:Eg;
    [|vm_compute in E; injection E as <-; vm_compute in Eg; discriminate].
  assert (H2 : get "max_trim_len_2" rec = Some (PyFloat float_150)).
  { vm_compute in E. injection E as <-. vm_compute in Eg.
    injection Eg as <-. vm_compute. reflexivity. }
  exists self', rec. split; [reflexivity|]. split; [exact Eg|].
  split; [exact H2|].
  exact (@jax_trimmer_second_trim_length_repeats_first Samples.keep_name
           [Samples.log_jax_pe] self' "P1" "max_trim_len" rec
           (PyFloat float_150) E (or_introl eq_refl) Eg H2).
Defined.
